(** * The watch-mode rerun engine of AVA ([lib/watcher.js])

    A shallow embedding of [lib/watcher.js]: the trackers of test
    dependencies, exclusive tests and failures, the decision cycle
    [runAfterChanges], the exclusivity override of [run], the debouncer, the
    watch patterns and the path classifier, followed by the properties the
    specification states about them and further properties of the code.

    Modelling conventions.
    - JavaScript arrays are lists, in array order; strings are [string] and
      [===] on them is [String.eqb].  The characters the code inspects
      ([!], [_], [/], [../]) are ASCII, so indexing and slicing at them is
      the same on bytes as on UTF-16 code units.
    - The counters ([runVector], [count]) are JavaScript numbers that only
      ever hold small non-negative integers (they start at 0 or 1 and grow
      by one); they are modelled as [Z], exact below 2^53.
    - [dirtyStates] is a plain object used as a map from path to the name of
      the last event.  It is modelled as an association list in property
      creation order, which is the order of [Object.keys] for keys that are
      not array indices; assigning to an existing key keeps its position.
      Paths are taken to be ordinary property names (not [__proto__]).
    - Mutation of [this] is explicit state passing on the record [Watcher];
      calls to the logger and to the test runner are returned as a list of
      [Effect]s.
    - Timers and promise callbacks are steps of a labelled transition
      system ([step]); the environment chooses their order. *)

From Stdlib Require Import Ascii String ZArith Lia Bool List.
Import ListNotations.

Local Open Scope string_scope.
Local Open Scope Z_scope.
Local Open Scope list_scope.

(** ** Array helpers *)

(** [Array.prototype.indexOf] on an array of strings: the index of the first
    element strictly equal to [x], or [-1]. *)
Fixpoint indexOf (l : list string) (x : string) : Z :=
  match l with
  | [] => -1
  | y :: t =>
      if String.eqb y x then 0
      else let i := indexOf t x in if i =? -1 then -1 else i + 1
  end.

(** [arr.splice(index, 1)] for [0 <= index]: drops the element at [index]. *)
Definition splice1 {A} (l : list A) (index : Z) : list A :=
  firstn (Z.to_nat index) l ++ skipn (S (Z.to_nat index)) l.

(** The npm package [arr-diff] (2.x), called with two arrays: the elements of
    [arr] that do not occur in [other], in the order of [arr]
    ([if (!~other.indexOf(arr[i])) res.push(arr[i])]). *)
Definition diff (arr other : list string) : list string :=
  filter (fun x => indexOf other x =? -1) arr.

(** The npm package [arr-flatten] on an array of arrays of strings. *)
Definition flatten (ll : list (list string)) : list string := concat ll.

(** The npm package [array-uniq] (1.x): a loop that pushes every element not
    yet in the result, so the first occurrence of each value is kept. *)
Fixpoint uniq_loop (ret l : list string) : list string :=
  match l with
  | [] => ret
  | x :: t => if indexOf ret x =? -1 then uniq_loop (ret ++ [x]) t
              else uniq_loop ret t
  end.

Definition uniq (l : list string) : list string := uniq_loop [] l.

(** The npm package [array-union] (1.x): [uniq] of the concatenation. *)
Definition union (a b : list string) : list string := uniq (a ++ b).

(** ** Data model *)

(** [function TestDependency(file, sources)]. *)
Record TestDependency := mkTestDependency {
  dep_file : string;
  dep_sources : list string
}.

(** [TestDependency.prototype.contains]. *)
Definition contains (dep : TestDependency) (source : string) : bool :=
  negb (indexOf (dep_sources dep) source =? -1).

(** An element of [filesWithFailures]: [{file, vector, count}]. *)
Record FailureState := mkFailureState {
  fs_file : string;
  fs_vector : Z;
  fs_count : Z
}.

(** The events chokidar reports through ['all']. *)
Inductive ChokidarEvent := EvAdd | EvAddDir | EvChange | EvUnlink | EvUnlinkDir.

(** The event names stored in [dirtyStates]: ['add'], ['change'], ['unlink']. *)
Inductive DirtyEvent := Add | Change | Unlink.

Definition DirtyStates := list (string * DirtyEvent).

(** [dirtyStates[path]]. *)
Fixpoint dirty_get (d : DirtyStates) (path : string) : option DirtyEvent :=
  match d with
  | [] => None
  | (p, e) :: t => if String.eqb p path then Some e else dirty_get t path
  end.

(** [dirtyStates[path] = event]. *)
Fixpoint dirty_set (d : DirtyStates) (path : string) (event : DirtyEvent)
  : DirtyStates :=
  match d with
  | [] => [(path, event)]
  | (p, e) :: t =>
      if String.eqb p path then (p, event) :: t
      else (p, e) :: dirty_set t path event
  end.

(** [Object.keys(dirtyStates)]. *)
Definition Object_keys (d : DirtyStates) : list string := map fst d.

(** The fields of a [Watcher] that change after construction. *)
Record Watcher := mkWatcher {
  clearLogOnNextRun : bool;
  runVector : Z;
  testDependencies : list TestDependency;
  filesWithExclusiveTests : list string;
  filesWithFailures : list FailureState;
  dirtyStates : DirtyStates
}.

Definition set_clearLogOnNextRun (w : Watcher) (b : bool) : Watcher :=
  mkWatcher b (runVector w) (testDependencies w) (filesWithExclusiveTests w)
            (filesWithFailures w) (dirtyStates w).

Definition set_runVector (w : Watcher) (v : Z) : Watcher :=
  mkWatcher (clearLogOnNextRun w) v (testDependencies w)
            (filesWithExclusiveTests w) (filesWithFailures w) (dirtyStates w).

Definition set_testDependencies (w : Watcher) (l : list TestDependency)
  : Watcher :=
  mkWatcher (clearLogOnNextRun w) (runVector w) l (filesWithExclusiveTests w)
            (filesWithFailures w) (dirtyStates w).

Definition set_filesWithExclusiveTests (w : Watcher) (l : list string)
  : Watcher :=
  mkWatcher (clearLogOnNextRun w) (runVector w) (testDependencies w) l
            (filesWithFailures w) (dirtyStates w).

Definition set_filesWithFailures (w : Watcher) (l : list FailureState)
  : Watcher :=
  mkWatcher (clearLogOnNextRun w) (runVector w) (testDependencies w)
            (filesWithExclusiveTests w) l (dirtyStates w).

Definition set_dirtyStates (w : Watcher) (d : DirtyStates) : Watcher :=
  mkWatcher (clearLogOnNextRun w) (runVector w) (testDependencies w)
            (filesWithExclusiveTests w) (filesWithFailures w) d.

(** What the watcher asks of its collaborators.  [ApiRun fs roe v] is the
    call [api.run(fs, {runOnlyExclusive: roe})] whose completion callback
    closes over [currentVector = v]. *)
Inductive Effect :=
| LoggerClear
| LoggerReset
| LoggerSection
| LoggerStart
| LoggerFinish (previousFailCount : Z)
| ApiRun (runFiles : list string) (runOnlyExclusive : bool) (currentVector : Z).

(** ** Dependency tracker *)

(** The [some] loop of [updateTestDependencies]: the first entry of [file]
    gets the new sources and the loop stops; the flag is the result of
    [some]. *)
Fixpoint assignSources (deps : list TestDependency) (file : string)
  (sources : list string) : list TestDependency * bool :=
  match deps with
  | [] => ([], false)
  | dep :: t =>
      if negb (String.eqb (dep_file dep) file) then
        let r := assignSources t file sources in (dep :: fst r, snd r)
      else (mkTestDependency (dep_file dep) sources :: t, true)
  end.

(** [Watcher.prototype.updateTestDependencies] on the array itself. *)
Definition updateDeps (deps : list TestDependency) (file : string)
  (sources : list string) : list TestDependency :=
  if (Z.of_nat (length sources) =? 0) then
    filter (fun dep => negb (String.eqb (dep_file dep) file)) deps
  else
    let r := assignSources deps file sources in
    if negb (snd r) then fst r ++ [mkTestDependency file sources]
    else fst r.

Definition updateTestDependencies (w : Watcher) (file : string)
  (sources : list string) : Watcher :=
  set_testDependencies w (updateDeps (testDependencies w) file sources).

(** The tests traced to a source path: the inner [filter]/[map] of
    [runAfterChanges]. *)
Definition tracedTestsFor (deps : list TestDependency) (path : string)
  : list string :=
  map dep_file (filter (fun dep => contains dep path) deps).

(** ** Exclusivity tracker *)

Definition updateExcl (excl : list string) (file : string)
  (hasExclusiveTests : bool) : list string :=
  let index := indexOf excl file in
  if hasExclusiveTests && (index =? -1) then excl ++ [file]
  else if negb hasExclusiveTests && negb (index =? -1) then splice1 excl index
  else excl.

(** [Watcher.prototype.updateExclusivity]. *)
Definition updateExclusivity (w : Watcher) (file : string)
  (hasExclusiveTests : bool) : Watcher :=
  set_filesWithExclusiveTests w
    (updateExcl (filesWithExclusiveTests w) file hasExclusiveTests).

(** ** Failure tracker *)

Definition pruneRecords (l : list FailureState) (file : string)
  : list FailureState :=
  filter (fun state => negb (String.eqb (fs_file state) file)) l.

(** [Watcher.prototype.pruneFailures]. *)
Definition pruneFailures (w : Watcher) (file : string) : Watcher :=
  set_filesWithFailures w (pruneRecords (filesWithFailures w) file).

(** The [some] loop of [countFailure]: [state.count++] on the first record of
    [file]. *)
Fixpoint bumpCount (l : list FailureState) (file : string)
  : list FailureState * bool :=
  match l with
  | [] => ([], false)
  | state :: t =>
      if negb (String.eqb (fs_file state) file) then
        let r := bumpCount t file in (state :: fst r, snd r)
      else
        (mkFailureState (fs_file state) (fs_vector state) (fs_count state + 1)
           :: t, true)
  end.

Definition countRecords (l : list FailureState) (file : string) (vector : Z)
  : list FailureState :=
  let r := bumpCount l file in
  if negb (snd r) then fst r ++ [mkFailureState file vector 1] else fst r.

(** [Watcher.prototype.countFailure]. *)
Definition countFailure (w : Watcher) (file : string) (vector : Z) : Watcher :=
  set_filesWithFailures w (countRecords (filesWithFailures w) file vector).

Definition sumRecords (l : list FailureState) (beforeVector : Z) : Z :=
  fold_left
    (fun total state =>
       if fs_vector state <? beforeVector then total + fs_count state
       else total)
    l 0.

(** [Watcher.prototype.sumPreviousFailures]. *)
Definition sumPreviousFailures (w : Watcher) (beforeVector : Z) : Z :=
  sumRecords (filesWithFailures w) beforeVector.

(** The specification's [sumFailuresBefore]: the sum of the counts of the
    records whose generation is below the argument. *)
Definition sumFailuresBefore (l : list FailureState) (generation : Z) : Z :=
  fold_right Z.add 0
    (map fs_count (filter (fun r => fs_vector r <? generation) l)).

(** [Watcher.prototype.cleanUnlinkedTests]. *)
Definition cleanUnlinkedTests (w : Watcher) (unlinkedTests : list string)
  : Watcher :=
  fold_left
    (fun w testFile =>
       pruneFailures
         (updateExclusivity (updateTestDependencies w testFile []) testFile
            false)
         testFile)
    unlinkedTests w.

(** ** Running tests *)

(** Lines 64-79 of [run]: the file list handed to the runner and the
    [runOnlyExclusive] flag, from the requested list and
    [filesWithExclusiveTests]. *)
Definition exclusivityOverride (excl : list string)
  (specificFiles : option (list string)) : option (list string) * bool :=
  match specificFiles with
  | Some sf =>
      let exclusiveFiles :=
        filter (fun file => negb (indexOf excl file =? -1)) sf in
      let runOnlyExclusive :=
        negb (Nat.eqb (length exclusiveFiles) (length excl)) in
      if runOnlyExclusive then
        let remainingFiles := diff sf exclusiveFiles in
        (Some (excl ++ remainingFiles), true)
      else (Some sf, false)
  | None => (None, false)
  end.

(** ** Debouncer and event-loop state *)

(** [function Debouncer(watcher)]: [timer] is the handle of the pending
    timeout or [null]; [again] is read as false until it is first set. *)
Record Debouncer := mkDebouncer {
  timer : option nat;
  again : bool
}.

(** The watcher together with what the event loop holds for it.
    - [nextTimer]: the next handle [setTimeout] returns;
    - [armed]: timeouts set and neither expired nor cleared;
    - [waiting]: expired timeouts whose callback waits on [watcher.busy];
    - [manual]: callbacks of [observeStdin] waiting on [watcher.busy];
    - [statuses]: the [currentVector] closed over by the listeners that
      [trackFailures] put on each [runStatus];
    - [inflight]: the [currentVector] closed over by the completion callback
      of each unsettled [api.run];
    - [effects]: the calls made so far;
    - [cycles]: the [dirtyStates] each call of [runAfterChanges] read
      (a ghost field, for stating properties). *)
Record Sys := mkSys {
  watcher : Watcher;
  debouncer : Debouncer;
  nextTimer : nat;
  armed : list nat;
  waiting : list nat;
  manual : nat;
  statuses : list Z;
  inflight : list Z;
  effects : list Effect;
  cycles : list DirtyStates
}.

Definition set_watcher (s : Sys) (w : Watcher) : Sys :=
  mkSys w (debouncer s) (nextTimer s) (armed s) (waiting s) (manual s)
        (statuses s) (inflight s) (effects s) (cycles s).

Definition set_debouncer (s : Sys) (d : Debouncer) : Sys :=
  mkSys (watcher s) d (nextTimer s) (armed s) (waiting s) (manual s)
        (statuses s) (inflight s) (effects s) (cycles s).

Definition removeTimer (t : nat) (l : list nat) : list nat :=
  filter (fun t' => negb (Nat.eqb t' t)) l.

Fixpoint removeRun (v : Z) (l : list Z) : list Z :=
  match l with
  | [] => []
  | v' :: t => if v' =? v then t else v' :: removeRun v t
  end.

(** The run vectors of the [api.run] calls among some effects. *)
Fixpoint runsOf (l : list Effect) : list Z :=
  match l with
  | [] => []
  | ApiRun _ _ v :: t => v :: runsOf t
  | _ :: t => runsOf t
  end.

(** The [api.run] calls among some effects: file list and
    [runOnlyExclusive]. *)
Fixpoint apiCalls (l : list Effect) : list (list string * bool) :=
  match l with
  | [] => []
  | ApiRun fs roe _ :: t => (fs, roe) :: apiCalls t
  | _ :: t => apiCalls t
  end.

(** The events the listener of [watchFiles] acts on. *)
Definition dirtyKind (event : ChokidarEvent) : option DirtyEvent :=
  match event with
  | EvAdd => Some Add
  | EvChange => Some Change
  | EvUnlink => Some Unlink
  | EvAddDir | EvUnlinkDir => None
  end.

(** [Debouncer.prototype.debounce]: [setTimeout] returns a fresh handle. *)
Definition debounce (s : Sys) : Sys :=
  match timer (debouncer s) with
  | Some t => set_debouncer s (mkDebouncer (Some t) true)
  | None =>
      let t := nextTimer s in
      mkSys (watcher s) (mkDebouncer (Some t) (again (debouncer s))) (S t)
            (armed s ++ [t]) (waiting s) (manual s) (statuses s) (inflight s)
            (effects s) (cycles s)
  end.

(** [Debouncer.prototype.cancel]. *)
Definition cancel (s : Sys) : Sys :=
  match timer (debouncer s) with
  | Some t =>
      mkSys (watcher s) (mkDebouncer None false) (nextTimer s)
            (removeTimer t (armed s)) (waiting s) (manual s) (statuses s)
            (inflight s) (effects s) (cycles s)
  | None => s
  end.

(** ** Path classifier and watch patterns *)

(** What the pattern functions take from outside this file: the glob matcher
    [multimatch(path, patterns)] (the array of matches), [matchable] ([slash]
    on win32, the identity elsewhere), the functions and the separator of
    [nodePath], and the directories of [ignore-by-default]. *)
Record PathLib := mkPathLib {
  multimatch : string -> list string -> list string;
  matchable : string -> string;
  extname : string -> string;
  basename : string -> string;
  dirname : string -> string;
  sep : ascii;
  defaultIgnore : list string
}.

(** [str[0] === c]; [str[0]] is [undefined] on the empty string. *)
Definition firstCharIs (c : ascii) (str : string) : bool :=
  match str with
  | String c' _ => Ascii.eqb c' c
  | EmptyString => false
  end.

(** [pattern.slice(1)]. *)
Definition slice1 (pattern : string) : string :=
  match pattern with
  | String _ t => t
  | EmptyString => EmptyString
  end.

(** [str.split(separator)] for a separator of one character: the array is
    never empty, and the empty string gives one empty component. *)
Fixpoint split (separator : ascii) (str : string) : list string :=
  match str with
  | EmptyString => [EmptyString]
  | String c t =>
      if Ascii.eqb c separator then EmptyString :: split separator t
      else match split separator t with
           | h :: r => String c h :: r
           | [] => [String c EmptyString]
           end
  end.

(** [pattern.split('/')[0]]. *)
Definition firstComponent (pattern : string) : string :=
  hd EmptyString (split "/" pattern).

(** [defaultIgnore.indexOf(pattern.split('/')[0]) >= 0]. *)
Definition inIgnoredDirectory (P : PathLib) (pattern : string) : bool :=
  0 <=? indexOf (defaultIgnore P) (firstComponent pattern).

(** [function getDefaultIgnorePatterns()]. *)
Definition getDefaultIgnorePatterns (P : PathLib) : list string :=
  map (fun dir => (dir ++ "/**/*")%string) (defaultIgnore P).

(** The patterns used when no positive source pattern is given. *)
Definition defaultSources : list string :=
  ["package.json"%string; "**/*.js"%string].

Record ChokidarPatterns := mkChokidarPatterns {
  cp_paths : list string;
  cp_ignored : list string
}.

(** [function getChokidarPatterns(files, sources)]; the [forEach] loop
    threads the two arrays it pushes to. *)
Definition getChokidarPatterns (P : PathLib) (files sources : list string)
  : ChokidarPatterns :=
  let loop :=
    fold_left
      (fun acc pattern =>
         if firstCharIs "!" pattern
         then (fst acc, snd acc ++ [slice1 pattern])
         else (fst acc ++ [pattern], snd acc))
      sources ([], []) in
  let paths := fst loop in
  let ignored := snd loop in
  let overrideDefaultIgnorePatterns :=
    map (fun pattern => ("!" ++ pattern)%string)
      (filter (inIgnoredDirectory P) paths) in
  let ignored :=
    getDefaultIgnorePatterns P ++ ignored ++ overrideDefaultIgnorePatterns in
  let paths := if Nat.eqb (length paths) 0 then defaultSources else paths in
  let paths := paths ++ files in
  mkChokidarPatterns paths ignored.

(** The state of the [forEach] loop of [makeSourceMatcher]. *)
Record SourceLoop := mkSourceLoop {
  sl_mixedPatterns : list string;
  sl_hasPositivePattern : bool;
  sl_overrideDefaultIgnorePatterns : list string
}.

Definition sourceLoop (P : PathLib) (sources : list string) : SourceLoop :=
  fold_left
    (fun st pattern =>
       let mixed := sl_mixedPatterns st ++ [pattern] in
       let hasPositive :=
         if negb (sl_hasPositivePattern st) && negb (firstCharIs "!" pattern)
         then true else sl_hasPositivePattern st in
       let override :=
         if inIgnoredDirectory P pattern
         then sl_overrideDefaultIgnorePatterns st ++ [pattern]
         else sl_overrideDefaultIgnorePatterns st in
       mkSourceLoop mixed hasPositive override)
    sources (mkSourceLoop [] false []).

(** The patterns the source matcher matches against: the loop's patterns,
    after the defaults when no pattern is positive. *)
Definition mixedPatternsOf (P : PathLib) (sources : list string)
  : list string :=
  let st := sourceLoop P sources in
  if negb (sl_hasPositivePattern st)
  then defaultSources ++ sl_mixedPatterns st
  else sl_mixedPatterns st.

(** [multimatch(path, patterns).length === 1]. *)
Definition matchesOne (P : PathLib) (path : string) (patterns : list string)
  : bool :=
  Nat.eqb (length (multimatch P path patterns)) 1.

(** [function makeSourceMatcher(sources)]: the function it returns. *)
Definition makeSourceMatcher (P : PathLib) (sources : list string)
  (path : string) : bool :=
  let mixedPatterns := mixedPatternsOf P sources in
  let defaultIgnorePatterns := getDefaultIgnorePatterns P in
  let overrideDefaultIgnorePatterns :=
    sl_overrideDefaultIgnorePatterns (sourceLoop P sources) in
  let path := matchable P path in
  if String.prefix "../" path then false
  else
    let isSource := matchesOne P path mixedPatterns in
    if negb isSource then false
    else
      let isIgnored := matchesOne P path defaultIgnorePatterns in
      if negb isIgnored then true
      else
        let isErroneouslyIgnored :=
          matchesOne P path overrideDefaultIgnorePatterns in
        if isErroneouslyIgnored then true else false.

(** [subpaths[subpaths.length - 1]], [undefined] on the empty array. *)
Definition lastOf (l : list string) : option string :=
  match rev l with
  | [] => None
  | x :: _ => Some x
  end.

(** The callback of the [reduce] in [makeTestMatcher]; the empty string and
    [undefined] are falsy. *)
Definition pushSubpath (subpaths : list string) (component : string)
  : list string :=
  match lastOf subpaths with
  | Some (String c t) =>
      subpaths ++ [(String c t ++ "/" ++ component)%string]
  | _ => subpaths ++ [component]
  end.

(** [dirname.split(nodePath.sep).reduce(..., [])]. *)
Definition subpathsOf (separator : ascii) (dir : string) : list string :=
  fold_left pushSubpath (split separator dir) [].

(** [function makeTestMatcher(files, excludePatterns)]: the function it
    returns. *)
Definition makeTestMatcher (P : PathLib) (files excludePatterns : list string)
  (path : string) : bool :=
  let initialPatterns := files ++ excludePatterns in
  if negb (String.eqb (extname P path) ".js")
     || firstCharIs "_" (basename P path)
  then false
  else if matchesOne P (matchable P path) initialPatterns then true
  else
    let dir := dirname P path in
    if String.eqb dir "." then false
    else
      let subpaths := subpathsOf (sep P) dir in
      let recursivePatterns :=
        map (fun subpath => (subpath ++ "/**/*.js")%string)
          (filter (fun subpath => matchesOne P subpath initialPatterns)
             subpaths) in
      matchesOne P (matchable P path) (recursivePatterns ++ excludePatterns).

(** ** An example configuration

    Tests are the files under [test/] whose name does not start with an
    underscore, sources the files under [lib/]; paths are already relative
    and the logger always clears. *)

Definition exFiles : list string := ["test/*.js"%string].

Definition exIsTest (path : string) : bool :=
  String.prefix "test/" path && negb (String.prefix "test/_" path).

Definition exIsSource (path : string) : bool := String.prefix "lib/" path.

Definition exRelative (path : string) : string := path.

Definition exLoggerClear (_ : Z) : bool := true.

Definition exA : string := "test/a.js".
Definition exB : string := "test/b.js".
Definition exHelper : string := "test/_helper.js".
Definition exUtil : string := "lib/util.js".

(** An example of the outside functions: patterns match the path equal to
    them, paths use [/], and two directories are ignored by default. *)
Definition exMultimatch (path : string) (patterns : list string)
  : list string :=
  if existsb (String.eqb path) patterns then [path] else [].

Definition exBasename (path : string) : string :=
  last (split "/" path) EmptyString.

Definition exDirname (path : string) : string :=
  match removelast (split "/" path) with
  | [] => "."%string
  | l => String.concat "/" l
  end.

Fixpoint exExtension (name : string) : option string :=
  match name with
  | EmptyString => None
  | String c t =>
      match exExtension t with
      | Some e => Some e
      | None => if Ascii.eqb c "." then Some (String c t) else None
      end
  end.

Definition exExtname (path : string) : string :=
  match exExtension (exBasename path) with
  | Some e => e
  | None => EmptyString
  end.

Definition exPathLib : PathLib :=
  mkPathLib exMultimatch (fun path => path) exExtname exBasename exDirname "/"
    ["node_modules"%string; ".git"%string].

(** A watcher between two runs, with the given trackers. *)
Definition exWatcher (deps : list TestDependency) (excl : list string)
  (failures : list FailureState) (d : DirtyStates) : Watcher :=
  mkWatcher true 1 deps excl failures d.

Section WatcherModel.

(** The configured test file patterns ([files]). *)
Variable files : list string.
(** The path classifier built by [makeTestMatcher] and [makeSourceMatcher]
    from the configured patterns; its glob matcher is an external package. *)
Variable isTest : string -> bool.
Variable isSource : string -> bool.
(** [nodePath.relative('.', path)]. *)
Variable relative : string -> string.
(** The answer of [logger.clear()] before the run that follows run [v]. *)
Variable loggerClear : Z -> bool.

(** [this.run]: the log calls, the new run vector and the call of the
    runner. *)
Definition run (w : Watcher) (specificFiles : option (list string))
  : Watcher * list Effect :=
  let pre :=
    if 0 <? runVector w then
      let cleared := clearLogOnNextRun w && loggerClear (runVector w) in
      (set_clearLogOnNextRun w true,
       (if clearLogOnNextRun w then [LoggerClear] else [])
         ++ (if negb cleared then [LoggerReset; LoggerSection] else [])
         ++ [LoggerReset; LoggerStart])
    else (w, []) in
  let currentVector := runVector (fst pre) + 1 in
  let w' := set_runVector (fst pre) currentVector in
  let r := exclusivityOverride (filesWithExclusiveTests w') specificFiles in
  (w',
   snd pre
     ++ [ApiRun (match fst r with Some sf => sf | None => files end)
                (snd r) currentVector]).

(** The completion callback of [api.run(...)] in [run]. *)
Definition runSettled (w : Watcher) (currentVector : Z)
  (failCount rejectionCount exceptionCount : Z) : Watcher * list Effect :=
  let previousFailCount := sumPreviousFailures w currentVector in
  let badCounts := failCount + rejectionCount + exceptionCount in
  (set_clearLogOnNextRun w (clearLogOnNextRun w && (badCounts =? 0)),
   [LoggerFinish previousFailCount]).

(** [Watcher.prototype.rerunAll]. *)
Definition rerunAll (w : Watcher) : Watcher * list Effect :=
  run (set_dirtyStates w []) None.

(** The locals of [runAfterChanges]. *)
Definition dirtyTestsOf (d : DirtyStates) : list string :=
  filter isTest (Object_keys d).

Definition dirtySourcesOf (d : DirtyStates) : list string :=
  diff (Object_keys d) (dirtyTestsOf d).

Definition addedOrChangedTestsOf (d : DirtyStates) : list string :=
  filter
    (fun path =>
       match dirty_get d path with
       | Some Unlink => false
       | _ => true
       end)
    (dirtyTestsOf d).

Definition unlinkedTestsOf (d : DirtyStates) : list string :=
  diff (dirtyTestsOf d) (addedOrChangedTestsOf d).

Definition testsBySourceOf (deps : list TestDependency)
  (dirtySources : list string) : list (list string) :=
  filter (fun tests => (0 <? Z.of_nat (length tests)))
    (map (fun path => tracedTestsFor deps path) dirtySources).

(** A dirty path that is a test file whose last event is ['unlink']. *)
Definition unlinkedTest (d : DirtyStates) (path : string) : bool :=
  isTest path &&
  match dirty_get d path with
  | Some Unlink => true
  | _ => false
  end.

(** The watcher as [runAfterChanges] has it when it decides what to run:
    [dirtyStates] emptied and the unlinked tests cleaned. *)
Definition cleaned (w : Watcher) : Watcher :=
  cleanUnlinkedTests (set_dirtyStates w []) (unlinkedTestsOf (dirtyStates w)).

(** [Watcher.prototype.runAfterChanges]. *)
Definition runAfterChanges (w : Watcher) : Watcher * list Effect :=
  let d := dirtyStates w in
  let w := set_dirtyStates w [] in
  let dirtyPaths := Object_keys d in
  let dirtyTests := dirtyTestsOf d in
  let dirtySources := dirtySourcesOf d in
  let addedOrChangedTests := addedOrChangedTestsOf d in
  let unlinkedTests := unlinkedTestsOf d in
  let w := cleanUnlinkedTests w unlinkedTests in
  if Nat.eqb (length unlinkedTests) (length dirtyPaths) then (w, [])
  else if Nat.eqb (length dirtySources) 0 then
    run w (Some addedOrChangedTests)
  else
    let testsBySource := testsBySourceOf (testDependencies w) dirtySources in
    if negb (Nat.eqb (length testsBySource) (length dirtySources)) then
      run w None
    else
      run w (Some (union addedOrChangedTests (uniq (flatten testsBySource)))).

(** ** The debouncer and the event loop *)

(** [self.watcher.runAfterChanges()] inside the timer callback, with the
    bookkeeping of the event loop. *)
Definition decisionCycle (s : Sys) : Sys :=
  let r := runAfterChanges (watcher s) in
  mkSys (fst r) (debouncer s) (nextTimer s) (armed s) (waiting s) (manual s)
        (statuses s) (inflight s ++ runsOf (snd r)) (effects s ++ snd r)
        (cycles s ++ [dirtyStates (watcher s)]).

(** The function handed to [busy.then] by the timeout of handle [t]. *)
Definition timerCallback (s : Sys) (t : nat) : Sys :=
  match timer (debouncer s) with
  | Some t' =>
      if negb (Nat.eqb t' t) then s
      else if again (debouncer s) then
        debounce (set_debouncer s (mkDebouncer None false))
      else
        set_debouncer (decisionCycle s) (mkDebouncer None false)
  | None => s
  end.

(** The listener of [watchFiles] on chokidar's ['all']. *)
Definition onAll (s : Sys) (event : ChokidarEvent) (path : string) : Sys :=
  match dirtyKind event with
  | Some e =>
      debounce
        (set_watcher s
           (set_dirtyStates (watcher s)
              (dirty_set (dirtyStates (watcher s)) path e)))
  | None => s
  end.

(** The listeners of [trackTestDependencies], [trackExclusivity] and
    [trackFailures]. *)
Definition onDependencies (w : Watcher) (file : string)
  (dependencies : list string) : Watcher :=
  let sourceDeps := filter isSource (map relative dependencies) in
  updateTestDependencies w file sourceDeps.

Definition onStats (w : Watcher) (file : string) (hasExclusive : bool)
  : Watcher :=
  updateExclusivity w file hasExclusive.

Definition onTestRun (w : Watcher) (runFiles : list string) : Watcher :=
  fold_left (fun w file => pruneFailures w (relative file)) runFiles w.

(** The second callback of [observeStdin], run once [busy] has settled. *)
Definition manualRerun (s : Sys) : Sys :=
  let s := cancel s in
  let r := rerunAll (set_clearLogOnNextRun (watcher s) false) in
  mkSys (fst r) (debouncer s) (nextTimer s) (armed s) (waiting s)
        (Nat.pred (manual s)) (statuses s) (inflight s ++ runsOf (snd r))
        (effects s ++ snd r) (cycles s).

(** What the environment can do next. *)
Inductive Label :=
| Watch (event : ChokidarEvent) (path : string)
| Expire (t : nat)
| BusyThenTimer (t : nat)
| StdinRerun
| BusyThenManual
| TestRun (runFiles : list string)
| Dependencies (file : string) (dependencies : list string)
| Stats (file : string) (hasExclusive : bool)
| RunError (vector : Z) (file : string)
| TestResult (vector : Z) (file : string) (hasError : bool)
| Settled (vector : Z) (failCount rejectionCount exceptionCount : Z).

Definition memZ (v : Z) (l : list Z) : bool := existsb (Z.eqb v) l.
Definition memNat (t : nat) (l : list nat) : bool := existsb (Nat.eqb t) l.

(** One turn of the event loop; [None] when the callback is not pending. *)
Definition step (s : Sys) (l : Label) : option Sys :=
  match l with
  | Watch event path => Some (onAll s event path)
  | Expire t =>
      if memNat t (armed s) then
        Some (mkSys (watcher s) (debouncer s) (nextTimer s)
                (removeTimer t (armed s)) (waiting s ++ [t]) (manual s)
                (statuses s) (inflight s) (effects s) (cycles s))
      else None
  | BusyThenTimer t =>
      if memNat t (waiting s) then
        Some (timerCallback
                (mkSys (watcher s) (debouncer s) (nextTimer s) (armed s)
                   (removeTimer t (waiting s)) (manual s) (statuses s)
                   (inflight s) (effects s) (cycles s))
                t)
      else None
  | StdinRerun =>
      let s := cancel s in
      Some (mkSys (watcher s) (debouncer s) (nextTimer s) (armed s)
              (waiting s) (S (manual s)) (statuses s) (inflight s)
              (effects s) (cycles s))
  | BusyThenManual =>
      if Nat.eqb (manual s) 0 then None else Some (manualRerun s)
  | TestRun runFiles =>
      let w := onTestRun (watcher s) runFiles in
      Some (mkSys w (debouncer s) (nextTimer s) (armed s) (waiting s)
              (manual s) (statuses s ++ [runVector w]) (inflight s)
              (effects s) (cycles s))
  | Dependencies file dependencies =>
      Some (set_watcher s (onDependencies (watcher s) file dependencies))
  | Stats file hasExclusive =>
      Some (set_watcher s (onStats (watcher s) file hasExclusive))
  | RunError vector file =>
      if memZ vector (statuses s) then
        Some (set_watcher s (countFailure (watcher s) file vector))
      else None
  | TestResult vector file hasError =>
      if memZ vector (statuses s) then
        Some (if hasError
              then set_watcher s (countFailure (watcher s) file vector)
              else s)
      else None
  | Settled vector failCount rejectionCount exceptionCount =>
      if memZ vector (inflight s) then
        let r := runSettled (watcher s) vector failCount rejectionCount
                   exceptionCount in
        Some (mkSys (fst r) (debouncer s) (nextTimer s) (armed s) (waiting s)
                (manual s) (statuses s) (removeRun vector (inflight s))
                (effects s ++ snd r) (cycles s))
      else None
  end.

(** [new Watcher(logger, api, files, sources)]: the fields are initialised,
    the listeners registered and [rerunAll()] starts the first run. *)
Definition newWatcher : Sys :=
  let w := mkWatcher true 0 [] [] [] [] in
  let r := rerunAll w in
  mkSys (fst r) (mkDebouncer None false) 0%nat [] [] 0%nat []
        (runsOf (snd r)) (snd r) [].

Fixpoint steps (s : Sys) (ls : list Label) : option Sys :=
  match ls with
  | [] => Some s
  | l :: ls' =>
      match step s l with
      | Some s' => steps s' ls'
      | None => None
      end
  end.

(** The chokidar event that is stored as a given dirty state. *)
Definition chokidarOf (e : DirtyEvent) : ChokidarEvent :=
  match e with
  | Add => EvAdd
  | Change => EvChange
  | Unlink => EvUnlink
  end.

(** The labels of a burst of file events. *)
Definition watchLabels (events : DirtyStates) : list Label :=
  map (fun pe => Watch (chokidarOf (snd pe)) (fst pe)) events.

(** The dirty states after a burst of file events. *)
Definition dirtyAfter (d : DirtyStates) (events : DirtyStates) : DirtyStates :=
  fold_left (fun d pe => dirty_set d (fst pe) (snd pe)) events d.

(** Every failure record carries a vector that is at most the run vector. *)
Definition generationsBounded (w : Watcher) : Prop :=
  forall st, In st (filesWithFailures w) -> fs_vector st <= runVector w.

(** The entries of the dependency tracker hold only sources. *)
Definition onlySources (deps : list TestDependency) : Prop :=
  forall dep s, In dep deps -> In s (dep_sources dep) -> isSource s = true.

(** The shape of the trackers between two callbacks. *)
Definition trackersOk (w : Watcher) : Prop :=
  generationsBounded w /\
  NoDup (filesWithExclusiveTests w) /\
  NoDup (map dep_file (testDependencies w)) /\
  onlySources (testDependencies w) /\
  NoDup (Object_keys (dirtyStates w)).

Definition wellFormed (s : Sys) : Prop :=
  trackersOk (watcher s) /\
  (forall v, In v (statuses s) -> v <= runVector (watcher s)) /\
  (timer (debouncer s) = None -> again (debouncer s) = false).

(** The sum of the counts of all failure records. *)
Definition totalFailures (l : list FailureState) : Z :=
  fold_right Z.add 0 (map fs_count l).

(** One record per file, each with at least one failure counted in a run
    that happened. *)
Definition failuresTight (l : list FailureState) : Prop :=
  NoDup (map fs_file l) /\
  forall st, In st l -> 1 <= fs_count st /\ 1 <= fs_vector st.

(** No dependency entry has an empty array of sources. *)
Definition depsTight (deps : list TestDependency) : Prop :=
  forall dep, In dep deps -> dep_sources dep <> [].

Definition trackersTight (w : Watcher) : Prop :=
  failuresTight (filesWithFailures w) /\
  depsTight (testDependencies w) /\
  1 <= runVector w.

(** The trackers are tight, the listeners captured vectors of runs that
    happened, and the run vector is the number of calls of the runner. *)
Definition tight (s : Sys) : Prop :=
  trackersTight (watcher s) /\
  (forall v, In v (statuses s) -> 1 <= v) /\
  runVector (watcher s) = Z.of_nat (length (apiCalls (effects s))).

(** The states the watcher can be in. *)
Inductive reachable : Sys -> Prop :=
| reachable_new : reachable newWatcher
| reachable_step s l s' :
    reachable s -> step s l = Some s' -> reachable s'.

(** * Properties *)

(** Projects the fields out of the record updates of the trackers. *)
Ltac fields :=
  cbn [clearLogOnNextRun runVector testDependencies filesWithExclusiveTests
       filesWithFailures dirtyStates set_clearLogOnNextRun set_runVector
       set_testDependencies set_filesWithExclusiveTests set_filesWithFailures
       set_dirtyStates updateTestDependencies updateExclusivity pruneFailures
       countFailure].

(** ** Array helpers *)

Lemma indexOf_ge (l : list string) (x : string) : -1 <= indexOf l x.
Proof.
  induction l as [|y t IH]; simpl; [lia|].
  destruct (String.eqb y x); [lia|].
  destruct (indexOf t x =? -1) eqn:E; lia.
Qed.

Lemma indexOf_absent (l : list string) (x : string) :
  indexOf l x = -1 <-> ~ In x l.
Proof.
  induction l as [|y t IH]; simpl.
  - split; [intros _ []|reflexivity].
  - destruct (String.eqb_spec y x) as [->|Hne].
    + split; [lia|intros H; exfalso; apply H; now left].
    + pose proof (indexOf_ge t x) as Hge.
      destruct (indexOf t x =? -1) eqn:E.
      * apply Z.eqb_eq in E. split; [|reflexivity].
        intros _ [H|H]; [congruence|]. now apply IH.
      * apply Z.eqb_neq in E. split; [lia|].
        intros H. exfalso. apply E, IH. intros Hin. apply H. now right.
Qed.

Lemma indexOf_eqb_absent (l : list string) (x : string) :
  (indexOf l x =? -1) = true <-> ~ In x l.
Proof. rewrite Z.eqb_eq. apply indexOf_absent. Qed.

Lemma indexOf_eqb_present (l : list string) (x : string) :
  (indexOf l x =? -1) = false <-> In x l.
Proof.
  rewrite Z.eqb_neq, indexOf_absent.
  destruct (in_dec string_dec x l); tauto.
Qed.

Lemma diff_In (a b : list string) (x : string) :
  In x (diff a b) <-> In x a /\ ~ In x b.
Proof.
  unfold diff. rewrite filter_In, indexOf_eqb_absent. tauto.
Qed.

Lemma diff_NoDup (a b : list string) : NoDup a -> NoDup (diff a b).
Proof. apply NoDup_filter. Qed.

Lemma uniq_loop_In (l ret : list string) (x : string) :
  In x (uniq_loop ret l) <-> In x ret \/ In x l.
Proof.
  revert ret. induction l as [|y t IH]; intros ret; simpl; [tauto|].
  destruct (indexOf ret y =? -1) eqn:E.
  - rewrite IH, in_app_iff. simpl. tauto.
  - apply indexOf_eqb_present in E. rewrite IH.
    split; [tauto|]. intros [H|[->|H]]; tauto.
Qed.

Lemma uniq_loop_NoDup (l ret : list string) :
  NoDup ret -> NoDup (uniq_loop ret l).
Proof.
  revert ret. induction l as [|y t IH]; intros ret Hret; simpl; [assumption|].
  destruct (indexOf ret y =? -1) eqn:E; [|now apply IH].
  apply indexOf_eqb_absent in E. apply IH.
  apply NoDup_app; [assumption|repeat constructor; intros []|].
  intros z Hz [<-|[]]. contradiction.
Qed.

Lemma uniq_In (l : list string) (x : string) : In x (uniq l) <-> In x l.
Proof. unfold uniq. rewrite uniq_loop_In. simpl. tauto. Qed.

Lemma uniq_NoDup (l : list string) : NoDup (uniq l).
Proof. apply uniq_loop_NoDup. constructor. Qed.

Lemma union_In (a b : list string) (x : string) :
  In x (union a b) <-> In x a \/ In x b.
Proof. unfold union. now rewrite uniq_In, in_app_iff. Qed.

Lemma union_NoDup (a b : list string) : NoDup (union a b).
Proof. apply uniq_NoDup. Qed.

Lemma filter_filter_andb {A} (f g : A -> bool) (l : list A) :
  filter f (filter g l) = filter (fun x => g x && f x) l.
Proof.
  induction l as [|a l IH]; simpl; [reflexivity|].
  destruct (g a); simpl; [destruct (f a)|]; now rewrite IH.
Qed.

Lemma filter_length_all {A} (f : A -> bool) (l : list A) :
  length (filter f l) = length l <-> (forall x, In x l -> f x = true).
Proof.
  induction l as [|a l IH]; simpl.
  - split; [intros _ x []|reflexivity].
  - pose proof (filter_length_le f l) as Hle.
    destruct (f a) eqn:E; simpl.
    + split.
      * intros H x [<-|Hx]; [assumption|]. apply IH; [lia|assumption].
      * intros H. f_equal. apply IH. intros x Hx. apply H. now right.
    + split; [lia|]. intros H. specialize (H a (or_introl eq_refl)).
      congruence.
Qed.

Lemma uniq_loop_id (l ret : list string) :
  NoDup (ret ++ l) -> uniq_loop ret l = ret ++ l.
Proof.
  revert ret. induction l as [|y t IH]; intros ret H; simpl.
  - now rewrite app_nil_r.
  - assert (Hy : ~ In y ret).
    { apply NoDup_remove_2 in H. intros Hin. apply H, in_or_app. now left. }
    apply indexOf_eqb_absent in Hy. rewrite Hy.
    rewrite IH; rewrite <- app_assoc; [reflexivity|exact H].
Qed.

Lemma uniq_id (l : list string) : NoDup l -> uniq l = l.
Proof. intros H. unfold uniq. now rewrite uniq_loop_id. Qed.

(** ** Trackers *)

Lemma splice1_indexOf (l : list string) (x : string) :
  indexOf l x <> -1 ->
  exists l1 l2,
    l = l1 ++ x :: l2 /\ ~ In x l1 /\ splice1 l (indexOf l x) = l1 ++ l2.
Proof.
  induction l as [|y t IH]; simpl; [congruence|].
  destruct (String.eqb_spec y x) as [->|Hne].
  - intros _. exists [], t. repeat split. intros [].
  - pose proof (indexOf_ge t x) as Hge.
    destruct (indexOf t x =? -1) eqn:E; [congruence|]. intros _.
    apply Z.eqb_neq in E. destruct (IH E) as (l1 & l2 & Ht & Hl1 & Hs).
    exists (y :: l1), l2. split; [simpl; congruence|]. split.
    + intros [H|H]; [congruence|contradiction].
    + unfold splice1 in *.
      replace (Z.to_nat (indexOf t x + 1)) with (S (Z.to_nat (indexOf t x)))
        by lia.
      simpl. simpl in Hs. now rewrite Hs.
Qed.

Lemma updateExcl_incl (excl : list string) (file : string) (b : bool)
  (x : string) :
  In x (updateExcl excl file b) -> In x excl \/ (b = true /\ x = file).
Proof.
  unfold updateExcl. destruct b; simpl.
  - destruct (indexOf excl file =? -1); [|now left].
    rewrite in_app_iff. simpl. intros [H|[H|[]]]; [now left|now right].
  - destruct (indexOf excl file =? -1) eqn:E; simpl; [now left|].
    apply Z.eqb_neq in E.
    destruct (splice1_indexOf excl file E) as (l1 & l2 & Hl & _ & ->).
    rewrite Hl, !in_app_iff. simpl. intros [H|H]; left; tauto.
Qed.

Lemma updateExcl_NoDup (excl : list string) (file : string) (b : bool) :
  NoDup excl -> NoDup (updateExcl excl file b).
Proof.
  intros H. unfold updateExcl. destruct b; simpl.
  - destruct (indexOf excl file =? -1) eqn:E; [|assumption].
    apply indexOf_eqb_absent in E.
    apply NoDup_app; [assumption|repeat constructor; intros []|].
    intros z Hz [<-|[]]. contradiction.
  - destruct (indexOf excl file =? -1) eqn:E; simpl; [assumption|].
    apply Z.eqb_neq in E.
    destruct (splice1_indexOf excl file E) as (l1 & l2 & Hl & _ & ->).
    rewrite Hl in H. now apply NoDup_remove_1 in H.
Qed.

Lemma updateExcl_false_In (excl : list string) (file x : string) :
  NoDup excl ->
  In x (updateExcl excl file false) <-> In x excl /\ x <> file.
Proof.
  intros H. unfold updateExcl. simpl.
  destruct (indexOf excl file =? -1) eqn:E; simpl.
  - apply indexOf_eqb_absent in E. split; [|tauto].
    intros Hx. split; [assumption|]. intros ->. contradiction.
  - apply Z.eqb_neq in E.
    destruct (splice1_indexOf excl file E) as (l1 & l2 & Hl & _ & ->).
    rewrite Hl in *. apply NoDup_remove_2 in H.
    rewrite !in_app_iff in *. simpl. split.
    + intros Hx. split; [tauto|]. intros ->. tauto.
    + intros [[Hx|[Hx|Hx]] Hne]; [tauto|congruence|tauto].
Qed.

Lemma updateDeps_nil (deps : list TestDependency) (file : string) :
  updateDeps deps file [] =
  filter (fun dep => negb (String.eqb (dep_file dep) file)) deps.
Proof. reflexivity. Qed.

Lemma clean_fields (l : list string) (w : Watcher) :
  clearLogOnNextRun (cleanUnlinkedTests w l) = clearLogOnNextRun w /\
  runVector (cleanUnlinkedTests w l) = runVector w /\
  dirtyStates (cleanUnlinkedTests w l) = dirtyStates w.
Proof.
  unfold cleanUnlinkedTests. revert w.
  induction l as [|t l IH]; intros w; simpl; [repeat split|].
  destruct (IH (pruneFailures
                  (updateExclusivity (updateTestDependencies w t []) t false)
                  t)) as (H1 & H2 & H3).
  rewrite H1, H2, H3. repeat split.
Qed.

Lemma clean_deps_In (l : list string) (w : Watcher) (dep : TestDependency) :
  In dep (testDependencies (cleanUnlinkedTests w l)) <->
  In dep (testDependencies w) /\ ~ In (dep_file dep) l.
Proof.
  unfold cleanUnlinkedTests. revert w.
  induction l as [|t l IH]; intros w; simpl; [tauto|].
  rewrite IH. fields.
  rewrite updateDeps_nil, filter_In, negb_true_iff.
  destruct (String.eqb_spec (dep_file dep) t) as [->|Hne].
  - split; [intros [[_ H] _]; discriminate|tauto].
  - split; [intros [[H _] Hn]|intros [H Hn]]; repeat split; try tauto.
    intros [Heq|Hin]; [congruence|tauto].
Qed.

Lemma clean_failures_In (l : list string) (w : Watcher) (st : FailureState) :
  In st (filesWithFailures (cleanUnlinkedTests w l)) <->
  In st (filesWithFailures w) /\ ~ In (fs_file st) l.
Proof.
  unfold cleanUnlinkedTests. revert w.
  induction l as [|t l IH]; intros w; simpl; [tauto|].
  rewrite IH. fields. unfold pruneRecords.
  rewrite filter_In, negb_true_iff.
  destruct (String.eqb_spec (fs_file st) t) as [->|Hne].
  - split; [intros [[_ H] _]; discriminate|tauto].
  - split; [intros [[H _] Hn]|intros [H Hn]]; repeat split; try tauto.
    intros [Heq|Hin]; [congruence|tauto].
Qed.

Lemma clean_excl_NoDup (l : list string) (w : Watcher) :
  NoDup (filesWithExclusiveTests w) ->
  NoDup (filesWithExclusiveTests (cleanUnlinkedTests w l)).
Proof.
  unfold cleanUnlinkedTests. revert w.
  induction l as [|t l IH]; intros w H; simpl; [assumption|].
  apply IH. fields. now apply updateExcl_NoDup.
Qed.

Lemma clean_excl_In (l : list string) (w : Watcher) (x : string) :
  NoDup (filesWithExclusiveTests w) ->
  In x (filesWithExclusiveTests (cleanUnlinkedTests w l)) <->
  In x (filesWithExclusiveTests w) /\ ~ In x l.
Proof.
  unfold cleanUnlinkedTests. revert w.
  induction l as [|t l IH]; intros w H; simpl; [tauto|].
  rewrite IH by (fields; now apply updateExcl_NoDup).
  fields.
  rewrite updateExcl_false_In by assumption.
  split; [intros [[H1 H2] H3]|intros [H1 H2]]; repeat split; try tauto.
  - intros [Heq|Hin]; [congruence|tauto].
  - intros ->. apply H2. now left.
Qed.

(** ** Dependency tracker *)

Lemma assignSources_files (deps : list TestDependency) (file : string)
  (sources : list string) :
  map dep_file (fst (assignSources deps file sources)) = map dep_file deps.
Proof.
  induction deps as [|dep t IH]; simpl; [reflexivity|].
  destruct (String.eqb (dep_file dep) file); simpl; [reflexivity|].
  now rewrite IH.
Qed.

Lemma assignSources_found (deps : list TestDependency) (file : string)
  (sources : list string) :
  snd (assignSources deps file sources) = true <->
  In file (map dep_file deps).
Proof.
  induction deps as [|dep t IH]; simpl; [split; [discriminate|intros []]|].
  destruct (String.eqb_spec (dep_file dep) file) as [->|Hne]; simpl.
  - split; [now left|reflexivity].
  - rewrite IH. split; [now right|]. intros [H|H]; [contradiction|assumption].
Qed.

Lemma assignSources_again (deps : list TestDependency) (file : string)
  (sources : list string) :
  snd (assignSources deps file sources) = true ->
  assignSources (fst (assignSources deps file sources)) file sources =
  (fst (assignSources deps file sources), true).
Proof.
  induction deps as [|dep t IH]; simpl; [discriminate|].
  destruct (String.eqb (dep_file dep) file) eqn:E; simpl.
  - intros _. now rewrite E.
  - intros H. rewrite E. simpl. now rewrite (IH H).
Qed.

Lemma assignSources_pushed (deps : list TestDependency) (file : string)
  (sources : list string) :
  snd (assignSources deps file sources) = false ->
  assignSources (fst (assignSources deps file sources)
                   ++ [mkTestDependency file sources]) file sources =
  (fst (assignSources deps file sources) ++ [mkTestDependency file sources],
   true).
Proof.
  induction deps as [|dep t IH]; simpl.
  - intros _. now rewrite String.eqb_refl.
  - destruct (String.eqb (dep_file dep) file) eqn:E; simpl; [discriminate|].
    intros H. rewrite E. simpl. now rewrite (IH H).
Qed.

Lemma updateDeps_In_nonempty (deps : list TestDependency) (file : string)
  (sources : list string) (dep : TestDependency) :
  sources <> [] ->
  In dep (updateDeps deps file sources) ->
  dep = mkTestDependency file sources \/ In dep deps.
Proof.
  intros Hne. unfold updateDeps.
  destruct sources as [|x xs]; [congruence|]. cbn [length].
  replace (Z.of_nat (S (length xs)) =? 0) with false
    by (symmetry; apply Z.eqb_neq; lia).
  assert (H : forall d, In d (fst (assignSources deps file (x :: xs))) ->
                        d = mkTestDependency file (x :: xs) \/ In d deps).
  { induction deps as [|d0 t IH]; simpl; [intros d []|].
    destruct (String.eqb_spec (dep_file d0) file) as [Heq|Hn]; simpl.
    - intros d [<-|Hd]; [left; now rewrite Heq|right; now right].
    - intros d [<-|Hd]; [right; now left|].
      destruct (IH d Hd); [now left|right; now right]. }
  destruct (snd (assignSources deps file (x :: xs))); simpl; [apply H|].
  rewrite in_app_iff. simpl. intros [Hd|[<-|[]]]; [now apply H|now left].
Qed.

Lemma NoDup_map_filter {A B} (f : A -> B) (g : A -> bool) (l : list A) :
  NoDup (map f l) -> NoDup (map f (filter g l)).
Proof.
  induction l as [|a l IH]; simpl; [constructor|].
  intros Hnd. inversion Hnd as [|? ? Hn Ht]; subst.
  destruct (g a); simpl; [|now apply IH].
  constructor; [|now apply IH]. intros Hin. apply Hn.
  apply in_map_iff in Hin as (d & Hd & Hin). apply filter_In in Hin.
  apply in_map_iff. exists d. tauto.
Qed.

Lemma updateDeps_NoDup (deps : list TestDependency) (T : string)
  (sources : list string) :
  NoDup (map dep_file deps) ->
  NoDup (map dep_file (updateDeps deps T sources)).
Proof.
  intros Hnd. unfold updateDeps.
  destruct (Z.of_nat (length sources) =? 0);
    [now apply NoDup_map_filter|].
  destruct (snd (assignSources deps T sources)) eqn:E; cbn [negb].
  - now rewrite assignSources_files.
  - rewrite map_app, assignSources_files. simpl.
    apply NoDup_app; [assumption|repeat constructor; intros []|].
    intros z Hz [<-|[]].
    apply assignSources_found with (sources := sources) in Hz.
    congruence.
Qed.

(** C8. Reporting the same sources for a test file twice leaves the
    dependency entries as reporting them once; an array with at most one
    entry per test file keeps that property, and after a report of sources
    that are not empty it has an entry of that file with those sources;
    reporting no sources removes the entries of the file and nothing else. *)
Theorem updateTestDependencies_idempotent :
  (forall (w : Watcher) (T : string) (sources : list string),
     updateTestDependencies (updateTestDependencies w T sources) T sources =
     updateTestDependencies w T sources) /\
  (forall (w : Watcher) (T : string) (sources : list string),
     NoDup (map dep_file (testDependencies w)) ->
     NoDup (map dep_file
              (testDependencies (updateTestDependencies w T sources)))) /\
  (forall (w : Watcher) (T : string) (sources : list string),
     sources <> [] ->
     In (mkTestDependency T sources)
        (testDependencies (updateTestDependencies w T sources))) /\
  (forall (w : Watcher) (T : string) (dep : TestDependency),
     In dep (testDependencies (updateTestDependencies w T [])) <->
     In dep (testDependencies w) /\ dep_file dep <> T).
Proof.
  clear files isTest isSource relative loggerClear.
  split; [|split; [|split]].
  - intros w T sources. unfold updateTestDependencies, set_testDependencies.
    fields. f_equal.
    unfold updateDeps. destruct (Z.of_nat (length sources) =? 0).
    + rewrite filter_filter_andb. apply filter_ext. intros dep.
      now destruct (negb (String.eqb (dep_file dep) T)).
    + destruct (snd (assignSources (testDependencies w) T sources)) eqn:E;
        cbn [negb].
      * now rewrite (assignSources_again _ _ _ E).
      * now rewrite (assignSources_pushed _ _ _ E).
  - intros w T sources Hnd. unfold updateTestDependencies. fields.
    now apply updateDeps_NoDup.
  - intros w T sources Hne. unfold updateTestDependencies. fields.
    unfold updateDeps. destruct sources as [|x xs]; [congruence|].
    cbn [length].
    replace (Z.of_nat (S (length xs)) =? 0) with false
      by (symmetry; apply Z.eqb_neq; lia).
    destruct (snd (assignSources (testDependencies w) T (x :: xs))) eqn:E;
      cbn [negb].
    + clear Hne. induction (testDependencies w) as [|dep t IH];
        simpl in *; [discriminate|].
      destruct (String.eqb_spec (dep_file dep) T) as [->|Hn]; simpl in *.
      * now left.
      * right. now apply IH.
    + apply in_or_app. right. now left.
  - intros w T dep. unfold updateTestDependencies. fields.
    rewrite updateDeps_nil, filter_In, negb_true_iff.
    destruct (String.eqb_spec (dep_file dep) T); intuition congruence.
Qed.

(** ** Failure tracker *)

Lemma sumRecords_acc (l : list FailureState) (g acc : Z) :
  fold_left
    (fun total state =>
       if fs_vector state <? g then total + fs_count state else total)
    l acc = acc + sumFailuresBefore l g.
Proof.
  revert acc. induction l as [|st l IH]; intros acc; simpl.
  - unfold sumFailuresBefore. simpl. lia.
  - rewrite IH. unfold sumFailuresBefore. simpl.
    destruct (fs_vector st <? g); simpl; lia.
Qed.

Lemma sumRecords_spec (l : list FailureState) (g : Z) :
  sumRecords l g = sumFailuresBefore l g.
Proof. unfold sumRecords. now rewrite sumRecords_acc. Qed.

Lemma sumFailuresBefore_app (l1 l2 : list FailureState) (g : Z) :
  sumFailuresBefore (l1 ++ l2) g =
  sumFailuresBefore l1 g + sumFailuresBefore l2 g.
Proof.
  unfold sumFailuresBefore. rewrite filter_app, map_app.
  induction (map fs_count (filter (fun r => fs_vector r <? g) l1))
    as [|c l IH]; simpl; lia.
Qed.

Lemma bumpCount_found (l : list FailureState) (file : string) :
  In file (map fs_file l) ->
  exists l1 st l2,
    l = l1 ++ st :: l2 /\
    fs_file st = file /\
    (forall r, In r l1 -> fs_file r <> file) /\
    bumpCount l file =
    (l1 ++ mkFailureState file (fs_vector st) (fs_count st + 1) :: l2, true).
Proof.
  induction l as [|st t IH]; simpl; [intros []|].
  destruct (String.eqb_spec (fs_file st) file) as [Heq|Hne]; simpl.
  - intros _. exists [], st, t. rewrite <- Heq. repeat split. intros r [].
  - intros [H|H]; [contradiction|].
    destruct (IH H) as (l1 & st' & l2 & Hl & Hf & Hl1 & Hb).
    exists (st :: l1), st', l2. rewrite Hb, Hl. repeat split; auto.
    intros r [<-|Hr]; [assumption|now apply Hl1].
Qed.

Lemma bumpCount_missing (l : list FailureState) (file : string) :
  ~ In file (map fs_file l) -> bumpCount l file = (l, false).
Proof.
  induction l as [|st t IH]; simpl; [reflexivity|].
  destruct (String.eqb_spec (fs_file st) file) as [Heq|Hne]; simpl.
  - intros H. exfalso. apply H. now left.
  - intros H. rewrite IH; [reflexivity|]. intros Hin. apply H. now right.
Qed.

Lemma countRecords_In (l : list FailureState) (file : string) (vector : Z)
  (r : FailureState) :
  In r (countRecords l file vector) ->
  fs_vector r = vector \/ exists r', In r' l /\ fs_vector r' = fs_vector r.
Proof.
  unfold countRecords.
  destruct (in_dec string_dec file (map fs_file l)) as [Hin|Hout].
  - destruct (bumpCount_found l file Hin) as (l1 & st & l2 & Hl & _ & _ & Hb).
    rewrite Hb. cbn [fst snd negb]. rewrite Hl, in_app_iff. simpl.
    intros [H|[<-|H]]; right.
    + exists r. split; [apply in_or_app; now left|reflexivity].
    + exists st. split; [apply in_or_app; right; now left|reflexivity].
    + exists r. split; [apply in_or_app; right; now right|reflexivity].
  - rewrite (bumpCount_missing l file Hout). cbn [fst snd negb].
    rewrite in_app_iff. simpl. intros [H|[<-|[]]]; [right|now left].
    now exists r.
Qed.

(** C5. [sumPreviousFailures] is the sum of the counts of the records whose
    vector is below its argument.  When the first run, of all files, reports
    one failure of file X and a change of the test file Y leads to a second
    run of Y alone, the second run is finished with [previousFailCount]
    equal to 1. *)
Theorem sumPreviousFailures_stale_count :
  (forall (w : Watcher) (g : Z),
     sumPreviousFailures w g = sumFailuresBefore (filesWithFailures w) g) /\
  (forall (X Y : string) (run1Files : list string),
     isTest Y = true ->
     relative Y <> X ->
     exists s,
       steps newWatcher
         [TestRun run1Files; RunError 1 X; Settled 1 1 0 0;
          Watch EvChange Y; Expire 0%nat; BusyThenTimer 0%nat;
          TestRun [Y]; Settled 2 0 0 0] = Some s /\
       apiCalls (effects s) = [(files, false); ([Y], false)] /\
       filesWithFailures (watcher s) = [mkFailureState X 1 1] /\
       sumPreviousFailures (watcher s) 2 = 1 /\
       exists log, effects s = log ++ [LoggerFinish 1]).
Proof.
  split.
  - intros w g. apply sumRecords_spec.
  - intros X Y run1Files HY HXY.
    assert (Hprune : forall fs, onTestRun (mkWatcher true 1 [] [] [] []) fs =
                                mkWatcher true 1 [] [] [] []).
    { induction fs as [|f fs IH]; [reflexivity|]. exact IH. }
    assert (Hne : String.eqb X (relative Y) = false).
    { apply String.eqb_neq. congruence. }
    eexists. split.
    + cbn. rewrite Hprune.
      repeat (progress (cbv -[String.eqb];
                        rewrite ?HY, ?String.eqb_refl, ?Hne)).
      reflexivity.
    + cbn. repeat split.
      exists [ApiRun files false 1; LoggerFinish 0; LoggerReset;
              LoggerSection; LoggerReset; LoggerStart; ApiRun [Y] false 2].
      reflexivity.
Qed.

(** C10. When [countFailure] is applied to a file that has a record, the
    first record of that file gets its count incremented and keeps its
    vector, whatever vector is passed; no record changes file or vector, and
    [sumPreviousFailures] counts the new failure under the vector of the
    record. *)
Theorem countFailure_keeps_vector (w : Watcher) (file : string) (vector : Z) :
  In file (map fs_file (filesWithFailures w)) ->
  let w' := countFailure w file vector in
  map fs_file (filesWithFailures w') = map fs_file (filesWithFailures w) /\
  map fs_vector (filesWithFailures w') = map fs_vector (filesWithFailures w) /\
  exists l1 st l2,
    filesWithFailures w = l1 ++ st :: l2 /\
    fs_file st = file /\
    (forall r, In r l1 -> fs_file r <> file) /\
    filesWithFailures w' =
      l1 ++ mkFailureState file (fs_vector st) (fs_count st + 1) :: l2 /\
    (forall g,
       sumPreviousFailures w' g =
       sumPreviousFailures w g + (if fs_vector st <? g then 1 else 0)) /\
    (forall g,
       fs_vector st < g <= vector ->
       sumPreviousFailures w' g = sumPreviousFailures w g + 1).
Proof.
  intros Hin w'.
  destruct (bumpCount_found _ _ Hin) as (l1 & st & l2 & Hl & Hf & Hl1 & Hb).
  assert (Hw' : filesWithFailures w' =
                l1 ++ mkFailureState file (fs_vector st) (fs_count st + 1)
                   :: l2).
  { unfold w'. fields. unfold countRecords. now rewrite Hb. }
  assert (Hsum : forall g,
             sumPreviousFailures w' g =
             sumPreviousFailures w g + (if fs_vector st <? g then 1 else 0)).
  { intros g. unfold sumPreviousFailures. rewrite !sumRecords_spec, Hw', Hl.
    rewrite !sumFailuresBefore_app.
    assert (Hst : forall r,
               sumFailuresBefore (r :: l2) g =
               (if fs_vector r <? g then fs_count r else 0)
               + sumFailuresBefore l2 g).
    { intros r. unfold sumFailuresBefore. simpl.
      destruct (fs_vector r <? g); simpl; lia. }
    rewrite !Hst. simpl. destruct (fs_vector st <? g); lia. }
  split. { rewrite Hw', Hl, !map_app. simpl. now rewrite Hf. }
  split. { rewrite Hw', Hl, !map_app. reflexivity. }
  exists l1, st, l2.
  split; [exact Hl|]. split; [exact Hf|]. split; [exact Hl1|].
  split; [exact Hw'|]. split; [exact Hsum|].
  intros g [Hg _]. rewrite Hsum.
  replace (fs_vector st <? g) with true; [reflexivity|].
  symmetry. apply Z.ltb_lt. lia.
Qed.

(** ** The locals of the decision cycle *)

Lemma dirtySourcesOf_filter (d : DirtyStates) :
  dirtySourcesOf d = filter (fun p => negb (isTest p)) (Object_keys d).
Proof.
  unfold dirtySourcesOf, diff, dirtyTestsOf. apply filter_ext_in.
  intros x Hx. destruct (isTest x) eqn:E; simpl.
  - apply indexOf_eqb_present, filter_In. now split.
  - apply indexOf_eqb_absent. intros H. apply filter_In in H as [_ H].
    congruence.
Qed.

Lemma dirtySourcesOf_In (d : DirtyStates) (p : string) :
  In p (dirtySourcesOf d) <-> In p (Object_keys d) /\ isTest p = false.
Proof.
  rewrite dirtySourcesOf_filter, filter_In, negb_true_iff. tauto.
Qed.

Lemma addedOrChangedTestsOf_In (d : DirtyStates) (p : string) :
  In p (addedOrChangedTestsOf d) <->
  In p (Object_keys d) /\ isTest p = true /\ dirty_get d p <> Some Unlink.
Proof.
  unfold addedOrChangedTestsOf, dirtyTestsOf. rewrite !filter_In.
  destruct (dirty_get d p) as [[]|]; intuition congruence.
Qed.

Lemma unlinkedTestsOf_filter (d : DirtyStates) :
  unlinkedTestsOf d = filter (unlinkedTest d) (Object_keys d).
Proof.
  unfold unlinkedTestsOf, diff, dirtyTestsOf.
  rewrite filter_filter_andb. apply filter_ext_in. intros x Hx.
  unfold unlinkedTest. destruct (isTest x) eqn:E; simpl; [|reflexivity].
  destruct (indexOf (addedOrChangedTestsOf d) x =? -1) eqn:F.
  - apply indexOf_eqb_absent in F. rewrite addedOrChangedTestsOf_In in F.
    destruct (dirty_get d x) as [[]|]; try reflexivity;
      exfalso; apply F; repeat split; auto; discriminate.
  - apply indexOf_eqb_present in F. apply addedOrChangedTestsOf_In in F.
    destruct F as (_ & _ & F).
    destruct (dirty_get d x) as [[]|]; try reflexivity. congruence.
Qed.

Lemma unlinkedTestsOf_In (d : DirtyStates) (p : string) :
  In p (unlinkedTestsOf d) <->
  In p (Object_keys d) /\ isTest p = true /\ dirty_get d p = Some Unlink.
Proof.
  rewrite unlinkedTestsOf_filter, filter_In. unfold unlinkedTest.
  rewrite andb_true_iff.
  destruct (dirty_get d p) as [[]|]; intuition congruence.
Qed.

Lemma only_unlinked_length (d : DirtyStates) :
  Nat.eqb (length (unlinkedTestsOf d)) (length (Object_keys d)) = true <->
  (forall p, In p (Object_keys d) -> unlinkedTest d p = true).
Proof.
  rewrite Nat.eqb_eq, unlinkedTestsOf_filter. apply filter_length_all.
Qed.

(** ** Running tests: the exclusivity override *)

Lemma apiCalls_app (a b : list Effect) :
  apiCalls (a ++ b) = apiCalls a ++ apiCalls b.
Proof.
  induction a as [|e a IH]; simpl; [reflexivity|].
  destruct e; simpl; now rewrite ?IH.
Qed.

Lemma run_apiCalls (w : Watcher) (specificFiles : option (list string)) :
  apiCalls (snd (run w specificFiles)) =
  [(match fst (exclusivityOverride (filesWithExclusiveTests w) specificFiles)
    with Some sf => sf | None => files end,
    snd (exclusivityOverride (filesWithExclusiveTests w) specificFiles))].
Proof.
  unfold run. cbn [snd]. rewrite apiCalls_app.
  destruct (0 <? runVector w); cbn [fst snd]; [|reflexivity].
  destruct (clearLogOnNextRun w); [destruct (loggerClear (runVector w))|];
    reflexivity.
Qed.

Lemma run_runVector (w : Watcher) (specificFiles : option (list string)) :
  runVector (fst (run w specificFiles)) = runVector w + 1.
Proof. unfold run. cbn [fst]. now destruct (0 <? runVector w). Qed.

Lemma requested_exclusive_incl (excl sf : list string) :
  incl (filter (fun file => negb (indexOf excl file =? -1)) sf) excl.
Proof.
  intros x Hx. apply filter_In in Hx as [_ Hx].
  apply negb_true_iff in Hx. now apply indexOf_eqb_present in Hx.
Qed.

Lemma remaining_files (excl sf : list string) :
  diff sf (filter (fun file => negb (indexOf excl file =? -1)) sf) =
  filter (fun file => indexOf excl file =? -1) sf.
Proof.
  unfold diff. apply filter_ext_in. intros x Hx.
  destruct (indexOf excl x =? -1) eqn:E.
  - apply indexOf_eqb_absent. intros H. apply filter_In in H as [_ H].
    now rewrite E in H.
  - apply indexOf_eqb_present. apply filter_In. now rewrite E.
Qed.

Lemma override_expands (excl sf : list string) :
  NoDup sf ->
  ~ incl excl sf ->
  exclusivityOverride excl (Some sf) =
  (Some (excl ++ filter (fun file => indexOf excl file =? -1) sf), true).
Proof.
  intros Hsf Hstrict. unfold exclusivityOverride.
  set (ex := filter (fun file => negb (indexOf excl file =? -1)) sf).
  destruct (Nat.eqb (length ex) (length excl)) eqn:E; cbn [negb].
  - exfalso. apply Hstrict. apply Nat.eqb_eq in E.
    assert (Hin : incl excl ex).
    { apply NoDup_length_incl.
      - now apply NoDup_filter.
      - lia.
      - apply requested_exclusive_incl. }
    intros x Hx. apply Hin in Hx. now apply filter_In in Hx.
  - subst ex. now rewrite remaining_files.
Qed.

Lemma override_keeps (excl sf : list string) :
  NoDup sf -> NoDup excl ->
  incl excl sf ->
  exclusivityOverride excl (Some sf) = (Some sf, false).
Proof.
  intros Hsf Hexcl Hcov. unfold exclusivityOverride.
  set (ex := filter (fun file => negb (indexOf excl file =? -1)) sf).
  assert (H1 : (length ex <= length excl)%nat).
  { apply NoDup_incl_length; [now apply NoDup_filter|].
    apply requested_exclusive_incl. }
  assert (H2 : (length excl <= length ex)%nat).
  { apply NoDup_incl_length; [assumption|].
    intros x Hx. apply filter_In. split; [now apply Hcov|].
    apply negb_true_iff. now apply indexOf_eqb_present. }
  replace (Nat.eqb (length ex) (length excl)) with true; [reflexivity|].
  symmetry. apply Nat.eqb_eq. lia.
Qed.

(** C1. A run requested with a specific list of files (without repetition,
    as is the list of exclusive files): when some exclusive file is not in
    the requested list, the runner is called with all exclusive files
    followed by the requested files that are not exclusive, and
    [runOnlyExclusive] is set; when the requested list covers all exclusive
    files, the runner is called with the requested list as it is.  With
    exclusive files A and B, requesting A runs A and B, and requesting A and
    B is not expanded. *)
Theorem run_exclusivity_override (w : Watcher) (sf : list string) :
  NoDup sf ->
  NoDup (filesWithExclusiveTests w) ->
  let excl := filesWithExclusiveTests w in
  let requestedExclusive := filter (fun f => negb (indexOf excl f =? -1)) sf in
  let remaining := filter (fun f => indexOf excl f =? -1) sf in
  (incl requestedExclusive excl /\
   (forall f, In f remaining <-> In f sf /\ ~ In f excl)) /\
  (~ incl excl requestedExclusive ->
   apiCalls (snd (run w (Some sf))) = [(excl ++ remaining, true)] /\
   NoDup (excl ++ remaining) /\
   (forall f, In f (excl ++ remaining) <-> In f excl \/ In f sf)) /\
  (incl excl sf ->
   apiCalls (snd (run w (Some sf))) = [(sf, false)]) /\
  (forall A B : string, A <> B -> excl = [A; B] ->
   apiCalls (snd (run w (Some [A]))) = [([A; B], true)] /\
   apiCalls (snd (run w (Some [A; B]))) = [([A; B], false)]).
Proof.
  intros Hsf Hexcl excl requestedExclusive remaining.
  assert (Hrem : forall f, In f remaining <-> In f sf /\ ~ In f excl).
  { intros f. unfold remaining. rewrite filter_In, indexOf_eqb_absent.
    tauto. }
  split; [split; [apply requested_exclusive_incl|exact Hrem]|].
  split; [|split].
  - intros Hstrict.
    assert (Hnot : ~ incl excl sf).
    { intros Hcov. apply Hstrict. intros x Hx. apply filter_In.
      split; [now apply Hcov|]. apply negb_true_iff.
      now apply indexOf_eqb_present. }
    rewrite run_apiCalls. fold excl.
    rewrite (override_expands excl sf Hsf Hnot). cbn [fst snd].
    split; [reflexivity|]. split.
    + apply NoDup_app; [assumption|now apply NoDup_filter|].
      intros x Hx Hr. apply Hrem in Hr. tauto.
    + intros f. rewrite in_app_iff, Hrem.
      destruct (in_dec string_dec f excl); tauto.
  - intros Hcov. rewrite run_apiCalls. fold excl.
    now rewrite (override_keeps excl sf Hsf Hexcl Hcov).
  - intros A B HAB HE. rewrite !run_apiCalls. fold excl. rewrite HE.
    unfold exclusivityOverride, diff. simpl.
    rewrite !String.eqb_refl.
    destruct (String.eqb_spec A B) as [|_]; [contradiction|].
    destruct (String.eqb_spec B A) as [|_]; [congruence|].
    simpl. rewrite !String.eqb_refl. simpl. split; reflexivity.
Qed.

(** ** The decision cycle *)

Lemma runAfterChanges_eq (w : Watcher) :
  runAfterChanges w =
  let d := dirtyStates w in
  if Nat.eqb (length (unlinkedTestsOf d)) (length (Object_keys d)) then
    (cleaned w, [])
  else if Nat.eqb (length (dirtySourcesOf d)) 0 then
    run (cleaned w) (Some (addedOrChangedTestsOf d))
  else if negb (Nat.eqb
                  (length (testsBySourceOf (testDependencies (cleaned w))
                             (dirtySourcesOf d)))
                  (length (dirtySourcesOf d))) then
    run (cleaned w) None
  else
    run (cleaned w)
      (Some (union (addedOrChangedTestsOf d)
               (uniq (flatten (testsBySourceOf (testDependencies (cleaned w))
                                 (dirtySourcesOf d)))))).
Proof. reflexivity. Qed.

Lemma run_trackers (w : Watcher) (specificFiles : option (list string)) :
  testDependencies (fst (run w specificFiles)) = testDependencies w /\
  filesWithExclusiveTests (fst (run w specificFiles)) =
    filesWithExclusiveTests w /\
  filesWithFailures (fst (run w specificFiles)) = filesWithFailures w /\
  dirtyStates (fst (run w specificFiles)) = dirtyStates w.
Proof.
  unfold run. cbn [fst]. destruct (0 <? runVector w); repeat split.
Qed.

Lemma runAfterChanges_trackers (w : Watcher) :
  testDependencies (fst (runAfterChanges w)) = testDependencies (cleaned w) /\
  filesWithExclusiveTests (fst (runAfterChanges w)) =
    filesWithExclusiveTests (cleaned w) /\
  filesWithFailures (fst (runAfterChanges w)) = filesWithFailures (cleaned w) /\
  dirtyStates (fst (runAfterChanges w)) = [].
Proof.
  assert (Hd : dirtyStates (cleaned w) = []).
  { unfold cleaned.
    now destruct (clean_fields (unlinkedTestsOf (dirtyStates w))
                    (set_dirtyStates w [])) as (_ & _ & ->). }
  destruct (run_trackers (cleaned w)
              (Some (addedOrChangedTestsOf (dirtyStates w))))
    as (A1 & A2 & A3 & A4).
  destruct (run_trackers (cleaned w) None) as (B1 & B2 & B3 & B4).
  rewrite runAfterChanges_eq. cbv zeta.
  destruct (Nat.eqb _ _); [cbn [fst]; now rewrite Hd|].
  destruct (Nat.eqb _ _); [now rewrite A1, A2, A3, A4|].
  destruct (negb _); [now rewrite B1, B2, B3, B4|].
  match goal with
  | |- context [run (cleaned w) ?x] =>
      destruct (run_trackers (cleaned w) x) as (C1 & C2 & C3 & C4)
  end.
  now rewrite C1, C2, C3, C4.
Qed.

Lemma tracedTestsFor_In (deps : list TestDependency) (s t : string) :
  In t (tracedTestsFor deps s) <->
  exists dep, In dep deps /\ dep_file dep = t /\ In s (dep_sources dep).
Proof.
  unfold tracedTestsFor. rewrite in_map_iff. split.
  - intros (dep & Hf & Hin). apply filter_In in Hin as [Hin Hc].
    exists dep. repeat split; auto. unfold contains in Hc.
    apply negb_true_iff in Hc. now apply indexOf_eqb_present in Hc.
  - intros (dep & Hin & Hf & Hs). exists dep. split; [assumption|].
    apply filter_In. split; [assumption|]. unfold contains.
    apply negb_true_iff. now apply indexOf_eqb_present.
Qed.

Lemma tracedTestsFor_nil (deps : list TestDependency) (s : string) :
  tracedTestsFor deps s = [] <->
  (forall dep, In dep deps -> ~ In s (dep_sources dep)).
Proof.
  split.
  - intros H dep Hin Hs.
    assert (Ht : In (dep_file dep) (tracedTestsFor deps s)).
    { apply tracedTestsFor_In. now exists dep. }
    rewrite H in Ht. destruct Ht.
  - intros H. destruct (tracedTestsFor deps s) as [|t l] eqn:E; [reflexivity|].
    assert (Ht : In t (tracedTestsFor deps s)) by (rewrite E; now left).
    apply tracedTestsFor_In in Ht as (dep & Hin & _ & Hs).
    exfalso. now apply (H dep).
Qed.

Lemma cleaned_deps_In (w : Watcher) (dep : TestDependency) :
  In dep (testDependencies (cleaned w)) <->
  In dep (testDependencies w) /\
  ~ In (dep_file dep) (unlinkedTestsOf (dirtyStates w)).
Proof. unfold cleaned. now rewrite clean_deps_In. Qed.

Lemma traced_cleaned_nil (w : Watcher) (s : string) :
  tracedTestsFor (testDependencies w) s = [] ->
  tracedTestsFor (testDependencies (cleaned w)) s = [].
Proof.
  rewrite !tracedTestsFor_nil. intros H dep Hin.
  apply cleaned_deps_In in Hin as [Hin _]. now apply H.
Qed.

Lemma dirty_source_not_only_unlinked (d : DirtyStates) (s : string) :
  In s (dirtySourcesOf d) ->
  Nat.eqb (length (unlinkedTestsOf d)) (length (Object_keys d)) = false /\
  Nat.eqb (length (dirtySourcesOf d)) 0 = false.
Proof.
  intros Hs. split.
  - apply not_true_is_false. intros H. rewrite only_unlinked_length in H.
    apply dirtySourcesOf_In in Hs as [Hk Ht]. specialize (H s Hk).
    unfold unlinkedTest in H. rewrite Ht in H. discriminate.
  - destruct (dirtySourcesOf d); [destruct Hs|reflexivity].
Qed.

Lemma testsBySourceOf_all (deps : list TestDependency) (ds : list string) :
  (forall s, In s ds -> tracedTestsFor deps s <> []) ->
  testsBySourceOf deps ds = map (tracedTestsFor deps) ds.
Proof.
  intros H. unfold testsBySourceOf.
  induction ds as [|s ds IH]; simpl; [reflexivity|].
  destruct (tracedTestsFor deps s) as [|t l] eqn:E.
  - exfalso. apply (H s); [now left|assumption].
  - cbn [length]. replace (0 <? Z.of_nat (S (length l))) with true
      by (symmetry; apply Z.ltb_lt; lia).
    f_equal. apply IH. intros x Hx. apply H. now right.
Qed.

Lemma testsBySourceOf_short (deps : list TestDependency) (ds : list string)
  (s : string) :
  In s ds -> tracedTestsFor deps s = [] ->
  Nat.eqb (length (testsBySourceOf deps ds)) (length ds) = false.
Proof.
  intros Hs Hnil. apply Nat.eqb_neq. intros Hlen.
  unfold testsBySourceOf in Hlen.
  rewrite <- (length_map (tracedTestsFor deps) ds) in Hlen.
  rewrite filter_length_all in Hlen.
  specialize (Hlen (tracedTestsFor deps s) (in_map _ _ _ Hs)).
  rewrite Hnil in Hlen. discriminate.
Qed.

Lemma full_rerun_when_untraced (w : Watcher) (s : string) :
  In s (dirtySourcesOf (dirtyStates w)) ->
  tracedTestsFor (testDependencies (cleaned w)) s = [] ->
  runAfterChanges w = run (cleaned w) None /\
  apiCalls (snd (runAfterChanges w)) = [(files, false)].
Proof.
  intros Hs Hnil.
  assert (Heq : runAfterChanges w = run (cleaned w) None).
  { rewrite runAfterChanges_eq. cbv zeta.
    destruct (dirty_source_not_only_unlinked _ _ Hs) as [-> ->].
    now rewrite (testsBySourceOf_short _ _ s Hs Hnil). }
  split; [assumption|]. rewrite Heq, run_apiCalls. reflexivity.
Qed.

(** C2. In a decision cycle where some dirty source has no traced test in
    the dependency tracker (before or after the entries of unlinked tests are
    removed), [runAfterChanges] calls [run] without a list of files: the
    runner gets the configured files and [runOnlyExclusive] is off. *)
Theorem untraceable_source_full_rerun (w : Watcher) :
  (exists s,
      In s (dirtySourcesOf (dirtyStates w)) /\
      (tracedTestsFor (testDependencies w) s = [] \/
       tracedTestsFor (testDependencies (cleaned w)) s = [])) ->
  runAfterChanges w = run (cleaned w) None /\
  apiCalls (snd (runAfterChanges w)) = [(files, false)].
Proof.
  intros (s & Hs & Hnil).
  apply (full_rerun_when_untraced w s Hs).
  destruct Hnil as [H|H]; [now apply traced_cleaned_nil|assumption].
Qed.

Lemma addedOrChangedTestsOf_NoDup (d : DirtyStates) :
  NoDup (Object_keys d) -> NoDup (addedOrChangedTestsOf d).
Proof.
  intros H. unfold addedOrChangedTestsOf, dirtyTestsOf.
  now repeat apply NoDup_filter.
Qed.

Lemma flatten_traced_In (deps : list TestDependency) (ds : list string)
  (t : string) :
  In t (flatten (map (tracedTestsFor deps) ds)) <->
  exists s, In s ds /\ In t (tracedTestsFor deps s).
Proof.
  unfold flatten. rewrite in_concat. split.
  - intros (l & Hl & Ht). apply in_map_iff in Hl as (s & <- & Hs).
    now exists s.
  - intros (s & Hs & Ht). exists (tracedTestsFor deps s).
    split; [now apply in_map|assumption].
Qed.

(** C3. In a decision cycle where every dirty source has at least one traced
    test, [runAfterChanges] calls [run] with exactly the union, without
    repetition, of the added or changed dirty tests and the traced tests of
    the dirty sources (and starts no run when that union is empty because
    every dirty path is an unlinked test); the runner gets this list as it is
    whenever it covers the files with exclusive tests.  When the source S is
    the only dirty source and is traced to the test T only, the list is T
    together with the added or changed tests, and T alone when S is the only
    dirty path. *)
Theorem traced_sources_scoped_run (w : Watcher) :
  let d := dirtyStates w in
  let w1 := cleaned w in
  let traced := tracedTestsFor (testDependencies w1) in
  let U :=
    union (addedOrChangedTestsOf d)
      (uniq (flatten (map traced (dirtySourcesOf d)))) in
  NoDup (Object_keys d) ->
  ((forall s, In s (dirtySourcesOf d) -> traced s <> []) ->
   (NoDup U /\
    forall t,
      In t U <->
      In t (addedOrChangedTestsOf d) \/
      exists s, In s (dirtySourcesOf d) /\ In t (traced s)) /\
   ((exists p, In p (Object_keys d) /\ unlinkedTest d p = false) ->
    runAfterChanges w = run w1 (Some U) /\
    (NoDup (filesWithExclusiveTests w1) ->
     incl (filesWithExclusiveTests w1) U ->
     apiCalls (snd (runAfterChanges w)) = [(U, false)])) /\
   ((forall p, In p (Object_keys d) -> unlinkedTest d p = true) ->
    U = [] /\ runAfterChanges w = (w1, []))) /\
  (forall S T,
     dirtySourcesOf d = [S] -> traced S = [T] ->
     runAfterChanges w = run w1 (Some (union (addedOrChangedTestsOf d) [T])) /\
     forall t,
       In t (union (addedOrChangedTestsOf d) [T]) <->
       t = T \/ In t (addedOrChangedTestsOf d)) /\
  (forall S T e,
     d = [(S, e)] -> isTest S = false ->
     tracedTestsFor (testDependencies w) S = [T] ->
     runAfterChanges w = run (set_dirtyStates w []) (Some [T])).
Proof.
  intros d w1 traced U Hkeys.
  assert (Hmem : forall t,
             In t U <->
             In t (addedOrChangedTestsOf d) \/
             exists s, In s (dirtySourcesOf d) /\ In t (traced s)).
  { intros t. unfold U, traced.
    rewrite union_In, uniq_In, flatten_traced_In. reflexivity. }
  assert (Hrun : (forall s, In s (dirtySourcesOf d) -> traced s <> []) ->
                 (exists p, In p (Object_keys d) /\ unlinkedTest d p = false) ->
                 runAfterChanges w = run w1 (Some U)).
  { intros Hall (p & Hp & Hun). unfold U.
    rewrite runAfterChanges_eq. cbv zeta. fold d w1.
    replace (Nat.eqb (length (unlinkedTestsOf d)) (length (Object_keys d)))
      with false.
    2:{ symmetry. apply not_true_is_false. intros H.
        rewrite only_unlinked_length in H. specialize (H p Hp). congruence. }
    rewrite (testsBySourceOf_all _ _ Hall). rewrite length_map, Nat.eqb_refl.
    cbn [negb]. fold traced. destruct (dirtySourcesOf d) as [|s ds] eqn:E.
    - cbn [length Nat.eqb map flatten concat].
      unfold union. replace (uniq []) with (@nil string) by reflexivity.
      rewrite app_nil_r.
      rewrite uniq_id; [reflexivity|].
      now apply addedOrChangedTestsOf_NoDup.
    - cbn [length Nat.eqb]. reflexivity. }
  split; [|split].
  - intros Hall. split; [split; [apply union_NoDup|exact Hmem]|]. split.
    + intros Hex. pose proof (Hrun Hall Hex) as Heq.
      split; [exact Heq|]. intros Hnd Hincl.
      rewrite Heq, run_apiCalls.
      rewrite override_keeps; auto. apply union_NoDup.
    + intros Honly.
      assert (HU : U = []).
      { destruct U as [|t l] eqn:E; [reflexivity|]. exfalso.
        assert (Ht : In t (t :: l)) by now left.
        apply Hmem in Ht as [Ht|(s & Hs & _)].
        - apply addedOrChangedTestsOf_In in Ht as (Hk & _ & Hne).
          specialize (Honly t Hk). unfold unlinkedTest in Honly.
          apply andb_true_iff in Honly as [_ Honly].
          destruct (dirty_get d t) as [[]|]; congruence.
        - apply dirtySourcesOf_In in Hs as [Hk Hf].
          specialize (Honly s Hk). unfold unlinkedTest in Honly.
          rewrite Hf in Honly. discriminate. }
      split; [exact HU|].
      rewrite runAfterChanges_eq. cbv zeta. fold d w1.
      apply only_unlinked_length in Honly. now rewrite Honly.
  - intros S T HS HT.
    assert (Hall : forall s, In s (dirtySourcesOf d) -> traced s <> []).
    { intros s Hs. rewrite HS in Hs. destruct Hs as [<-|[]].
      rewrite HT. discriminate. }
    assert (Hex : exists p, In p (Object_keys d) /\ unlinkedTest d p = false).
    { exists S. assert (Hs : In S (dirtySourcesOf d)) by (rewrite HS; now left).
      apply dirtySourcesOf_In in Hs as [Hk Hf]. split; [assumption|].
      unfold unlinkedTest. now rewrite Hf. }
    rewrite (Hrun Hall Hex). unfold U. rewrite HS. cbn [map flatten concat].
    rewrite HT. rewrite app_nil_r.
    replace (uniq [T]) with [T] by reflexivity.
    split; [reflexivity|]. intros t. rewrite union_In. simpl.
    intuition congruence.
  - intros S T e Hd HS HT.
    assert (Hds : dirtySourcesOf d = [S]).
    { rewrite dirtySourcesOf_filter, Hd. simpl. now rewrite HS. }
    assert (Hw1 : w1 = set_dirtyStates w []).
    { unfold w1, cleaned. fold d. rewrite unlinkedTestsOf_filter, Hd. simpl.
      unfold unlinkedTest. now rewrite HS. }
    assert (HT' : traced S = [T]).
    { unfold traced. rewrite Hw1. exact HT. }
    assert (Hall : forall s, In s (dirtySourcesOf d) -> traced s <> []).
    { intros s Hs. rewrite Hds in Hs. destruct Hs as [<-|[]].
      rewrite HT'. discriminate. }
    assert (Hex : exists p, In p (Object_keys d) /\ unlinkedTest d p = false).
    { exists S. rewrite Hd. split; [now left|].
      unfold unlinkedTest. now rewrite HS. }
    rewrite (Hrun Hall Hex), <- Hw1. unfold U. rewrite Hds.
    cbn [map flatten concat]. rewrite HT', app_nil_r.
    replace (addedOrChangedTestsOf d) with (@nil string); [reflexivity|].
    unfold addedOrChangedTestsOf, dirtyTestsOf. rewrite Hd. simpl.
    now rewrite HS.
Qed.

(** C4. After a decision cycle, every dirty test whose last event is an
    unlink has no dependency entry, is not among the files with exclusive
    tests and has no failure record; and when every dirty path is an unlinked
    test the cycle makes no call at all and leaves the run vector as it
    was. *)
Theorem removed_tests_cleaned (w : Watcher) :
  NoDup (filesWithExclusiveTests w) ->
  let d := dirtyStates w in
  let w' := fst (runAfterChanges w) in
  (forall t,
     In t (Object_keys d) -> isTest t = true -> dirty_get d t = Some Unlink ->
     (forall dep, In dep (testDependencies w') -> dep_file dep <> t) /\
     ~ In t (filesWithExclusiveTests w') /\
     (forall st, In st (filesWithFailures w') -> fs_file st <> t)) /\
  ((forall p,
      In p (Object_keys d) -> isTest p = true /\ dirty_get d p = Some Unlink) ->
   snd (runAfterChanges w) = [] /\
   apiCalls (snd (runAfterChanges w)) = [] /\
   runVector w' = runVector w).
Proof.
  intros Hnd d w'. split.
  - intros t Hk Ht Hu.
    assert (Hin : In t (unlinkedTestsOf d)) by now apply unlinkedTestsOf_In.
    destruct (runAfterChanges_trackers w) as (Hd & He & Hf & _).
    unfold w'. rewrite Hd, He, Hf. unfold cleaned. fold d. repeat split.
    + intros dep Hdep Heq. apply clean_deps_In in Hdep as [_ Hn].
      apply Hn. now rewrite Heq.
    + intros Hx. apply clean_excl_In in Hx as [_ Hn]; [|exact Hnd].
      now apply Hn.
    + intros st Hst Heq. apply clean_failures_In in Hst as [_ Hn].
      apply Hn. now rewrite Heq.
  - intros Hall.
    assert (Honly : Nat.eqb (length (unlinkedTestsOf d))
                      (length (Object_keys d)) = true).
    { apply only_unlinked_length. intros p Hp.
      destruct (Hall p Hp) as [H1 H2]. unfold unlinkedTest.
      now rewrite H1, H2. }
    unfold w'. rewrite runAfterChanges_eq. cbv zeta. fold d. rewrite Honly.
    cbn [fst snd apiCalls]. repeat split.
    destruct (clean_fields (unlinkedTestsOf d) (set_dirtyStates w []))
      as (_ & H & _).
    exact H.
Qed.

(** C6, as the code has it.  A dirty path that is not a test is handled as a
    dirty source whether or not the source matcher accepts it.  When the
    dependency entries hold only sources, a dirty path that is neither a
    test nor a source has no traced test, and the cycle calls [run] without a
    list of files. *)
Theorem unclassified_path_full_rerun (w : Watcher) (p : string) :
  onlySources (testDependencies w) ->
  In p (Object_keys (dirtyStates w)) ->
  isTest p = false ->
  isSource p = false ->
  In p (dirtySourcesOf (dirtyStates w)) /\
  tracedTestsFor (testDependencies (cleaned w)) p = [] /\
  runAfterChanges w = run (cleaned w) None /\
  apiCalls (snd (runAfterChanges w)) = [(files, false)].
Proof.
  intros Hsrc Hk Ht Hs.
  assert (Hds : In p (dirtySourcesOf (dirtyStates w))).
  { now apply dirtySourcesOf_In. }
  assert (Hnil : tracedTestsFor (testDependencies w) p = []).
  { apply tracedTestsFor_nil. intros dep Hdep Hin.
    specialize (Hsrc dep p Hdep Hin). congruence. }
  split; [exact Hds|]. split; [now apply traced_cleaned_nil|].
  apply (full_rerun_when_untraced w p Hds). now apply traced_cleaned_nil.
Qed.

(** The lists [runAfterChanges] hands to [run] have no repetition. *)
Lemma runAfterChanges_request (w : Watcher) :
  NoDup (Object_keys (dirtyStates w)) ->
  runAfterChanges w = (cleaned w, []) \/
  runAfterChanges w = run (cleaned w) None \/
  exists sf, NoDup sf /\ runAfterChanges w = run (cleaned w) (Some sf).
Proof.
  intros Hk. rewrite runAfterChanges_eq. cbv zeta.
  destruct (Nat.eqb _ _); [now left|]. right.
  destruct (Nat.eqb _ _).
  - right. eexists. split; [|reflexivity].
    now apply addedOrChangedTestsOf_NoDup.
  - destruct (negb _); [now left|]. right.
    eexists. split; [|reflexivity]. apply union_NoDup.
Qed.

(** ** Invariants of the event loop *)

Lemma dirty_set_keys_In (d : DirtyStates) (p : string) (e : DirtyEvent)
  (q : string) :
  In q (Object_keys (dirty_set d p e)) <-> q = p \/ In q (Object_keys d).
Proof.
  unfold Object_keys. induction d as [|[p' e'] t IH]; simpl.
  - intuition congruence.
  - destruct (String.eqb_spec p' p) as [->|Hne]; simpl.
    + intuition congruence.
    + rewrite IH. intuition congruence.
Qed.

Lemma dirty_set_keys_NoDup (d : DirtyStates) (p : string) (e : DirtyEvent) :
  NoDup (Object_keys d) -> NoDup (Object_keys (dirty_set d p e)).
Proof.
  induction d as [|[p' e'] t IH]; simpl.
  - intros _. repeat constructor. intros [].
  - intros H. inversion H as [|? ? Hn Ht]; subst.
    destruct (String.eqb_spec p' p) as [->|Hne]; simpl.
    + now constructor.
    + constructor; [|now apply IH]. intros Hin.
      apply (dirty_set_keys_In t p e p') in Hin as [Heq|Hin];
        [congruence|contradiction].
Qed.

Lemma run_trackersOk (w : Watcher) (specificFiles : option (list string)) :
  trackersOk w -> trackersOk (fst (run w specificFiles)).
Proof.
  unfold trackersOk, generationsBounded.
  destruct (run_trackers w specificFiles) as (-> & -> & -> & ->).
  rewrite run_runVector. intros (H1 & H2 & H3 & H4 & H5).
  repeat split; auto. intros st Hst. specialize (H1 st Hst). lia.
Qed.

Lemma clean_deps_NoDup (l : list string) (w : Watcher) :
  NoDup (map dep_file (testDependencies w)) ->
  NoDup (map dep_file (testDependencies (cleanUnlinkedTests w l))).
Proof.
  unfold cleanUnlinkedTests. revert w.
  induction l as [|t l IH]; intros w H; simpl; [assumption|].
  apply IH. fields. now apply updateDeps_NoDup.
Qed.

Lemma cleaned_fields (w : Watcher) :
  clearLogOnNextRun (cleaned w) = clearLogOnNextRun w /\
  runVector (cleaned w) = runVector w /\
  dirtyStates (cleaned w) = [].
Proof.
  exact (clean_fields (unlinkedTestsOf (dirtyStates w))
           (set_dirtyStates w [])).
Qed.

Lemma cleaned_trackersOk (w : Watcher) : trackersOk w -> trackersOk (cleaned w).
Proof.
  unfold trackersOk, generationsBounded, onlySources.
  intros (H1 & H2 & H3 & H4 & _).
  destruct (cleaned_fields w) as (_ & -> & ->).
  split; [|split; [|split; [|split]]].
  - intros st Hst. unfold cleaned in Hst.
    apply clean_failures_In in Hst as [Hst _]. now apply H1.
  - now apply clean_excl_NoDup.
  - now apply clean_deps_NoDup.
  - intros dep s Hdep. apply cleaned_deps_In in Hdep as [Hdep _].
    now apply H4.
  - constructor.
Qed.

Lemma runAfterChanges_cases (w : Watcher) :
  runAfterChanges w = (cleaned w, []) \/
  exists specificFiles, runAfterChanges w = run (cleaned w) specificFiles.
Proof.
  rewrite runAfterChanges_eq. cbv zeta.
  destruct (Nat.eqb _ _); [now left|]. right.
  destruct (Nat.eqb _ _); [eexists; reflexivity|].
  destruct (negb _); eexists; reflexivity.
Qed.

Lemma runAfterChanges_trackersOk (w : Watcher) :
  trackersOk w -> trackersOk (fst (runAfterChanges w)).
Proof.
  intros H. apply cleaned_trackersOk in H.
  destruct (runAfterChanges_cases w) as [->|(x & ->)]; [exact H|].
  now apply run_trackersOk.
Qed.

Lemma runAfterChanges_runVector (w : Watcher) :
  runVector w <= runVector (fst (runAfterChanges w)).
Proof.
  destruct (cleaned_fields w) as (_ & Hv & _).
  destruct (runAfterChanges_cases w) as [->|(x & ->)]; cbn [fst].
  - lia.
  - rewrite run_runVector. lia.
Qed.

Lemma onTestRun_fields (l : list string) (w : Watcher) :
  runVector (onTestRun w l) = runVector w /\
  testDependencies (onTestRun w l) = testDependencies w /\
  filesWithExclusiveTests (onTestRun w l) = filesWithExclusiveTests w /\
  dirtyStates (onTestRun w l) = dirtyStates w /\
  (forall st, In st (filesWithFailures (onTestRun w l)) ->
              In st (filesWithFailures w)).
Proof.
  unfold onTestRun. revert w. induction l as [|f l IH]; intros w; simpl.
  - repeat split. auto.
  - destruct (IH (pruneFailures w (relative f))) as (-> & -> & -> & -> & H).
    repeat split. intros st Hst. apply H in Hst. revert Hst. fields.
    unfold pruneRecords. rewrite filter_In. tauto.
Qed.

Lemma onTestRun_trackersOk (l : list string) (w : Watcher) :
  trackersOk w -> trackersOk (onTestRun w l).
Proof.
  unfold trackersOk, generationsBounded.
  destruct (onTestRun_fields l w) as (-> & -> & -> & -> & H).
  intros (H1 & H2 & H3 & H4 & H5). repeat split; auto.
Qed.

Lemma countFailure_trackersOk (w : Watcher) (file : string) (vector : Z) :
  vector <= runVector w -> trackersOk w ->
  trackersOk (countFailure w file vector).
Proof.
  unfold trackersOk, generationsBounded. fields.
  intros Hv (H1 & H2 & H3 & H4 & H5). repeat split; auto.
  intros st Hst. apply countRecords_In in Hst as [->|(r & Hr & <-)];
    [assumption|now apply H1].
Qed.

Lemma pruneFailures_trackersOk (w : Watcher) (file : string) :
  trackersOk w -> trackersOk (pruneFailures w file).
Proof.
  unfold trackersOk, generationsBounded. fields.
  intros (H1 & H2 & H3 & H4 & H5). repeat split; auto.
  intros st Hst. unfold pruneRecords in Hst. apply filter_In in Hst as [Hst _].
  now apply H1.
Qed.

Lemma onDependencies_trackersOk (w : Watcher) (file : string)
  (dependencies : list string) :
  trackersOk w -> trackersOk (onDependencies w file dependencies).
Proof.
  unfold trackersOk, generationsBounded, onlySources, onDependencies. fields.
  intros (H1 & H2 & H3 & H4 & H5).
  split; [assumption|]. split; [assumption|].
  split; [now apply updateDeps_NoDup|]. split; [|assumption].
  intros dep s Hdep Hs.
  set (src := filter isSource (map relative dependencies)) in *.
  destruct src as [|x xs] eqn:E.
  - rewrite updateDeps_nil in Hdep. apply filter_In in Hdep as [Hdep _].
    now apply (H4 dep).
  - apply updateDeps_In_nonempty in Hdep; [|discriminate].
    destruct Hdep as [->|Hdep]; [|now apply (H4 dep)].
    cbn [dep_sources] in Hs. rewrite <- E in Hs. unfold src in Hs.
    now apply filter_In in Hs.
Qed.

Lemma onStats_trackersOk (w : Watcher) (file : string) (b : bool) :
  trackersOk w -> trackersOk (onStats w file b).
Proof.
  unfold trackersOk, generationsBounded, onStats. fields.
  intros (H1 & H2 & H3 & H4 & H5). repeat split; auto.
  now apply updateExcl_NoDup.
Qed.

Lemma debounce_fields (s : Sys) :
  watcher (debounce s) = watcher s /\
  statuses (debounce s) = statuses s /\
  timer (debouncer (debounce s)) <> None.
Proof.
  unfold debounce. destruct (timer (debouncer s)); cbn; repeat split;
    discriminate.
Qed.

Lemma step_wellFormed (s s' : Sys) (l : Label) :
  wellFormed s -> step s l = Some s' -> wellFormed s'.
Proof.
  unfold wellFormed. intros (Hw & Hst & Hdb) Hstep.
  destruct l; cbn [step] in Hstep.
  - (* Watch *)
    injection Hstep as <-. unfold onAll.
    destruct (dirtyKind event); [|split; [assumption|split; assumption]].
    match goal with
    | |- context [debounce ?x] =>
        destruct (debounce_fields x) as (-> & -> & Ht)
    end.
    cbn [watcher statuses set_watcher]. split; [|split].
    + destruct Hw as (H1 & H2 & H3 & H4 & H5).
      unfold trackersOk, generationsBounded. fields. repeat split; auto.
      now apply dirty_set_keys_NoDup.
    + exact Hst.
    + intros H. contradiction.
  - (* Expire *)
    destruct (memNat t (armed s)); [|discriminate].
    injection Hstep as <-. cbn [watcher statuses debouncer].
    split; [assumption|split; assumption].
  - (* BusyThenTimer *)
    destruct (memNat t (waiting s)); [|discriminate].
    injection Hstep as <-. unfold timerCallback.
    cbn [debouncer watcher statuses].
    destruct (timer (debouncer s)) as [t'|] eqn:Et;
      [|cbn [watcher statuses debouncer]; rewrite Et;
        split; [assumption|split; assumption]].
    destruct (negb (Nat.eqb t' t));
      [cbn [watcher statuses debouncer]; rewrite Et;
       split; [assumption|split; [assumption|discriminate]]|].
    destruct (again (debouncer s)).
    + match goal with
      | |- context [debounce ?x] =>
          destruct (debounce_fields x) as (-> & -> & Ht)
      end.
      cbn [watcher statuses set_debouncer].
      split; [assumption|split; [assumption|]]. intros H. contradiction.
    + cbn [watcher statuses debouncer set_debouncer decisionCycle timer
             again].
      split; [now apply runAfterChanges_trackersOk|].
      split; [|reflexivity]. intros v Hv. specialize (Hst v Hv).
      pose proof (runAfterChanges_runVector (watcher s)). lia.
  - (* StdinRerun *)
    injection Hstep as <-. unfold cancel.
    destruct (timer (debouncer s)) eqn:Et;
      cbn [watcher statuses debouncer timer again].
    + split; [assumption|split; [assumption|reflexivity]].
    + rewrite Et. split; [assumption|split; assumption].
  - (* BusyThenManual *)
    destruct (Nat.eqb (manual s) 0); [discriminate|].
    injection Hstep as <-. unfold manualRerun, rerunAll.
    assert (Hc : watcher (cancel s) = watcher s /\
                 statuses (cancel s) = statuses s /\
                 (timer (debouncer (cancel s)) = None ->
                  again (debouncer (cancel s)) = false)).
    { unfold cancel. destruct (timer (debouncer s)) eqn:Et;
        cbn [watcher statuses debouncer timer again];
        [repeat split|rewrite Et; repeat split; assumption]. }
    destruct Hc as (Hcw & Hcs & Hcd). cbn [watcher statuses debouncer].
    rewrite Hcw, Hcs. split; [|split; [|exact Hcd]].
    + apply run_trackersOk. destruct Hw as (H1 & H2 & H3 & H4 & H5).
      unfold trackersOk, generationsBounded. fields. repeat split; auto.
      constructor.
    + intros v Hv. specialize (Hst v Hv). rewrite run_runVector. fields. lia.
  - (* TestRun *)
    injection Hstep as <-. cbn [watcher statuses debouncer].
    split; [now apply onTestRun_trackersOk|]. split; [|exact Hdb].
    destruct (onTestRun_fields runFiles (watcher s)) as (Hv & _).
    intros v Hin. apply in_app_iff in Hin as [Hin|[<-|[]]]; [|lia].
    specialize (Hst v Hin). lia.
  - (* Dependencies *)
    injection Hstep as <-. cbn [watcher statuses debouncer set_watcher].
    split; [now apply onDependencies_trackersOk|]. now split.
  - (* Stats *)
    injection Hstep as <-. cbn [watcher statuses debouncer set_watcher].
    split; [now apply onStats_trackersOk|]. now split.
  - (* RunError *)
    destruct (memZ vector (statuses s)) eqn:E; [|discriminate].
    injection Hstep as <-. cbn [watcher statuses debouncer set_watcher].
    unfold memZ in E. apply existsb_exists in E as (v & Hv & Heq).
    apply Z.eqb_eq in Heq. subst v.
    split; [apply countFailure_trackersOk; auto|]. now split.
  - (* TestResult *)
    destruct (memZ vector (statuses s)) eqn:E; [|discriminate].
    injection Hstep as <-.
    unfold memZ in E. apply existsb_exists in E as (v & Hv & Heq).
    apply Z.eqb_eq in Heq. subst v.
    destruct hasError; [|split; [assumption|split; assumption]].
    cbn [watcher statuses debouncer set_watcher].
    split; [apply countFailure_trackersOk; auto|]. now split.
  - (* Settled *)
    destruct (memZ vector (inflight s)); [|discriminate].
    injection Hstep as <-. cbn [watcher statuses debouncer runSettled fst].
    split; [|now split]. destruct Hw as (H1 & H2 & H3 & H4 & H5).
    unfold trackersOk, generationsBounded. fields. now repeat split.
Qed.

Lemma newWatcher_wellFormed : wellFormed newWatcher.
Proof.
  unfold wellFormed, newWatcher, rerunAll. cbn [watcher statuses debouncer].
  split; [|split; [intros v []|reflexivity]].
  apply run_trackersOk. unfold trackersOk, generationsBounded, onlySources.
  cbn. repeat split; try constructor; intros; contradiction.
Qed.

Lemma reachable_wellFormed (s : Sys) : reachable s -> wellFormed s.
Proof.
  induction 1 as [|s l s' _ IH Hstep];
    [apply newWatcher_wellFormed|now apply (step_wellFormed s s' l)].
Qed.

Lemma step_runVector (s s' : Sys) (l : Label) :
  step s l = Some s' -> runVector (watcher s) <= runVector (watcher s').
Proof.
  intros Hstep. destruct l; cbn [step] in Hstep.
  - injection Hstep as <-. unfold onAll. destruct (dirtyKind event); [|lia].
    match goal with
    | |- context [debounce ?x] => destruct (debounce_fields x) as (-> & _)
    end.
    cbn. lia.
  - destruct (memNat t (armed s)); [|discriminate].
    injection Hstep as <-. cbn. lia.
  - destruct (memNat t (waiting s)); [|discriminate].
    injection Hstep as <-. unfold timerCallback. cbn [debouncer].
    destruct (timer (debouncer s)) as [t'|]; [|cbn; lia].
    destruct (negb (Nat.eqb t' t)); [cbn; lia|].
    destruct (again (debouncer s)).
    + match goal with
      | |- context [debounce ?x] => destruct (debounce_fields x) as (-> & _)
      end.
      cbn. lia.
    + cbn. apply runAfterChanges_runVector.
  - injection Hstep as <-. unfold cancel.
    destruct (timer (debouncer s)); cbn; lia.
  - destruct (Nat.eqb (manual s) 0); [discriminate|].
    injection Hstep as <-. unfold manualRerun, rerunAll. cbn [watcher].
    rewrite run_runVector. fields. unfold cancel.
    destruct (timer (debouncer s)); cbn; lia.
  - injection Hstep as <-. cbn [watcher].
    destruct (onTestRun_fields runFiles (watcher s)) as (-> & _). lia.
  - injection Hstep as <-. cbn. lia.
  - injection Hstep as <-. cbn. lia.
  - destruct (memZ vector (statuses s)); [|discriminate].
    injection Hstep as <-. cbn. lia.
  - destruct (memZ vector (statuses s)); [|discriminate].
    injection Hstep as <-. destruct hasError; cbn; lia.
  - destruct (memZ vector (inflight s)); [|discriminate].
    injection Hstep as <-. cbn. lia.
Qed.

(** C7. In every state the watcher can be in, the vector of each failure
    record is at most the run vector.  Each operation keeps it so: starting a
    run, counting a failure under a vector that is at most the run vector
    (the listeners pass the run vector they captured, and every captured
    vector stays at most the run vector), and pruning a record; and no step
    of the event loop decreases the run vector. *)
Theorem failure_generations_bounded :
  (forall s, reachable s -> generationsBounded (watcher s)) /\
  (forall s, reachable s ->
     forall v, In v (statuses s) -> v <= runVector (watcher s)) /\
  (forall w specificFiles,
     generationsBounded w -> generationsBounded (fst (run w specificFiles))) /\
  (forall w file vector,
     vector <= runVector w -> generationsBounded w ->
     generationsBounded (countFailure w file vector)) /\
  (forall w file,
     generationsBounded w -> generationsBounded (pruneFailures w file)) /\
  (forall s l s',
     step s l = Some s' -> runVector (watcher s) <= runVector (watcher s')).
Proof.
  split; [|split; [|split; [|split; [|split]]]].
  - intros s Hs. now destruct (reachable_wellFormed s Hs) as ((H & _) & _).
  - intros s Hs. now destruct (reachable_wellFormed s Hs) as (_ & H & _).
  - intros w sf H. unfold generationsBounded.
    destruct (run_trackers w sf) as (_ & _ & -> & _). rewrite run_runVector.
    intros st Hst. specialize (H st Hst). lia.
  - intros w file vector Hv H st Hst. revert Hst. fields. intros Hst.
    apply countRecords_In in Hst as [->|(r & Hr & <-)];
      [assumption|now apply H].
  - intros w file H st Hst. revert Hst. fields. unfold pruneRecords.
    intros Hst. apply filter_In in Hst as [Hst _]. now apply H.
  - intros s l s'. apply step_runVector.
Qed.

(** ** The debouncer *)

Lemma steps_app (s : Sys) (l1 l2 : list Label) :
  steps s (l1 ++ l2) =
  match steps s l1 with
  | Some s' => steps s' l2
  | None => None
  end.
Proof.
  revert s. induction l1 as [|l l1 IH]; intros s; simpl; [reflexivity|].
  destruct (step s l); [apply IH|reflexivity].
Qed.

Lemma dirtyKind_chokidarOf (e : DirtyEvent) : dirtyKind (chokidarOf e) = Some e.
Proof. now destruct e. Qed.

Lemma memNat_last (t : nat) (l : list nat) : memNat t (l ++ [t]) = true.
Proof.
  unfold memNat. rewrite existsb_app. simpl. rewrite Nat.eqb_refl.
  now rewrite orb_true_r.
Qed.

Lemma dirtyAfter_keys_In (events d : DirtyStates) (p : string) :
  In p (Object_keys (dirtyAfter d events)) <->
  In p (Object_keys d) \/ In p (map fst events).
Proof.
  unfold dirtyAfter. revert d.
  induction events as [|[q e] t IH]; intros d; simpl; [tauto|].
  rewrite IH, dirty_set_keys_In. intuition congruence.
Qed.

Lemma dirty_get_set (d : DirtyStates) (p : string) (e : DirtyEvent)
  (q : string) :
  dirty_get (dirty_set d p e) q =
  if String.eqb p q then Some e else dirty_get d q.
Proof.
  induction d as [|[p' e'] t IH]; simpl.
  - reflexivity.
  - destruct (String.eqb_spec p' p) as [->|Hne]; simpl.
    + now destruct (String.eqb p q).
    + rewrite IH. destruct (String.eqb_spec p' q) as [->|Hq];
        [|reflexivity].
      destruct (String.eqb_spec p q); [congruence|reflexivity].
Qed.

Lemma dirtyAfter_get_other (events d : DirtyStates) (p : string) :
  ~ In p (map fst events) ->
  dirty_get (dirtyAfter d events) p = dirty_get d p.
Proof.
  unfold dirtyAfter. revert d.
  induction events as [|[q e] t IH]; intros d Hn; simpl; [reflexivity|].
  rewrite IH by (intros H; apply Hn; now right).
  rewrite dirty_get_set. destruct (String.eqb_spec q p) as [->|_];
    [|reflexivity].
  exfalso. apply Hn. now left.
Qed.

Lemma dirtyAfter_get_last (l1 l2 d : DirtyStates) (p : string)
  (e : DirtyEvent) :
  ~ In p (map fst l2) ->
  dirty_get (dirtyAfter d (l1 ++ (p, e) :: l2)) p = Some e.
Proof.
  intros Hn. unfold dirtyAfter. rewrite fold_left_app. simpl.
  fold (dirtyAfter d l1).
  fold (dirtyAfter (dirty_set (dirtyAfter d l1) p e) l2).
  rewrite dirtyAfter_get_other by assumption.
  now rewrite dirty_get_set, String.eqb_refl.
Qed.

(** Events that arrive while the timeout is pending only set [again]. *)
Lemma steps_watch_armed (events : DirtyStates) (s : Sys) (t : nat) :
  timer (debouncer s) = Some t ->
  steps s (watchLabels events) =
  Some (mkSys
          (set_dirtyStates (watcher s)
             (dirtyAfter (dirtyStates (watcher s)) events))
          (mkDebouncer (Some t)
             (match events with [] => again (debouncer s) | _ => true end))
          (nextTimer s) (armed s) (waiting s) (manual s) (statuses s)
          (inflight s) (effects s) (cycles s)).
Proof.
  revert s. induction events as [|[p e] evs IH]; intros s Ht.
  - cbn. destruct s as [w [tm ag] ? ? ? ? ? ? ? ?]. cbn in *. subst tm.
    now destruct w.
  - cbn [watchLabels map steps step fst snd]. unfold onAll.
    rewrite dirtyKind_chokidarOf. unfold debounce at 1.
    cbn [debouncer set_watcher]. rewrite Ht.
    fold (watchLabels evs). rewrite IH by reflexivity.
    cbn. now destruct evs.
Qed.

(** C9. From an idle debouncer, a burst of one or more file events followed
    by the expiry of the timeout (and, when the burst had more than one
    event, of the timeout the callback sets again) runs [runAfterChanges]
    exactly once; that call reads the dirty states of all paths of the burst
    on top of those already there, each path with its last event, and leaves
    the debouncer idle. *)
Theorem debounce_coalesces (s : Sys) (events : DirtyStates) :
  timer (debouncer s) = None ->
  again (debouncer s) = false ->
  events <> [] ->
  let t := nextTimer s in
  let fires :=
    if Nat.eqb (length events) 1 then [Expire t; BusyThenTimer t]
    else [Expire t; BusyThenTimer t; Expire (S t); BusyThenTimer (S t)] in
  let D := dirtyAfter (dirtyStates (watcher s)) events in
  exists s',
    steps s (watchLabels events ++ fires) = Some s' /\
    cycles s' = cycles s ++ [D] /\
    (forall p,
       In p (Object_keys D) <->
       In p (Object_keys (dirtyStates (watcher s))) \/ In p (map fst events)) /\
    (forall l1 p e l2,
       events = l1 ++ (p, e) :: l2 -> ~ In p (map fst l2) ->
       dirty_get D p = Some e) /\
    watcher s' = fst (runAfterChanges (set_dirtyStates (watcher s) D)) /\
    effects s' =
      effects s ++ snd (runAfterChanges (set_dirtyStates (watcher s) D)) /\
    debouncer s' = mkDebouncer None false /\
    dirtyStates (watcher s') = [].
Proof.
  intros Ht Ha Hne t fires D.
  destruct events as [|[p e] evs]; [congruence|].
  assert (Hkeys : forall q,
             In q (Object_keys D) <->
             In q (Object_keys (dirtyStates (watcher s))) \/
             In q (map fst ((p, e) :: evs))).
  { intros q. apply dirtyAfter_keys_In. }
  assert (Hlast : forall l1 q e' l2,
             (p, e) :: evs = l1 ++ (q, e') :: l2 -> ~ In q (map fst l2) ->
             dirty_get D q = Some e').
  { intros l1 q e' l2 Heq Hn. unfold D. rewrite Heq.
    now apply dirtyAfter_get_last. }
  assert (Hclean : dirtyStates
                     (fst (runAfterChanges (set_dirtyStates (watcher s) D)))
                   = []).
  { now destruct (runAfterChanges_trackers (set_dirtyStates (watcher s) D))
      as (_ & _ & _ & H). }
  rewrite steps_app.
  cbn [watchLabels map steps step fst snd]. unfold onAll.
  rewrite dirtyKind_chokidarOf. fold (watchLabels evs).
  destruct s as [w [tm ag] n ar wa m st inf ef cy].
  cbn [debouncer timer again] in Ht, Ha. subst tm ag.
  cbn -[runAfterChanges dirtyAfter memNat Nat.eqb removeTimer watchLabels]
    in *.
  rewrite (steps_watch_armed evs _ n) by reflexivity.
  cbn -[runAfterChanges dirtyAfter memNat Nat.eqb removeTimer watchLabels].
  change (set_dirtyStates
            (set_dirtyStates w (dirty_set (dirtyStates w) p e))
            (dirtyAfter (dirty_set (dirtyStates w) p e) evs))
    with (set_dirtyStates w D).
  unfold fires.
  destruct evs as [|pe evs];
    unfold timerCallback;
    repeat (progress (cbn -[runAfterChanges dirtyAfter memNat removeTimer];
                      rewrite ?memNat_last, ?Nat.eqb_refl));
    (eexists; split; [reflexivity|]);
    cbn -[runAfterChanges dirtyAfter memNat removeTimer];
    repeat split; auto; apply Hkeys.
Qed.

(** * Further properties of the trackers *)

(** ** Exclusivity tracker *)

Lemma updateExcl_true_In (excl : list string) (file x : string) :
  In x (updateExcl excl file true) <-> In x excl \/ x = file.
Proof.
  unfold updateExcl. simpl.
  destruct (indexOf excl file =? -1) eqn:E.
  - rewrite in_app_iff. simpl. intuition congruence.
  - apply indexOf_eqb_present in E. split; [now left|].
    intros [H | ->]; assumption.
Qed.

Lemma first_occurrence_unique {A} (x : A) (l1 l2 l1' l2' : list A) :
  l1 ++ x :: l2 = l1' ++ x :: l2' -> ~ In x l1 -> ~ In x l1' ->
  l1 = l1' /\ l2 = l2'.
Proof.
  revert l1'. induction l1 as [|a l1 IH]; intros [|a' l1'] Heq H1 H2;
    simpl in *.
  - injection Heq as <-. now split.
  - injection Heq as <- _. exfalso. apply H2. now left.
  - injection Heq as -> _. exfalso. apply H1. now left.
  - injection Heq as <- Heq.
    destruct (IH l1' Heq) as [-> ->]; [tauto|tauto|now split].
Qed.

(** X1. On an array without repetition, [updateExclusivity] with [true]
    makes the file the only new member, with [false] removes exactly the
    file, keeps the array without repetition and touches no other field. *)
Theorem updateExclusivity_membership (w : Watcher) (file : string)
  (hasExclusiveTests : bool) :
  NoDup (filesWithExclusiveTests w) ->
  let w' := updateExclusivity w file hasExclusiveTests in
  NoDup (filesWithExclusiveTests w') /\
  (forall x,
     In x (filesWithExclusiveTests w') <->
     if hasExclusiveTests
     then In x (filesWithExclusiveTests w) \/ x = file
     else In x (filesWithExclusiveTests w) /\ x <> file) /\
  testDependencies w' = testDependencies w /\
  filesWithFailures w' = filesWithFailures w /\
  dirtyStates w' = dirtyStates w /\
  runVector w' = runVector w.
Proof.
  intros Hnd w'. unfold w'. fields.
  split; [now apply updateExcl_NoDup|]. split; [|repeat split].
  intros x. destruct hasExclusiveTests;
    [apply updateExcl_true_In|now apply updateExcl_false_In].
Qed.

(** X2. Reporting the same exclusivity for a file a second time changes
    nothing. *)
Theorem updateExclusivity_idempotent (w : Watcher) (file : string)
  (hasExclusiveTests : bool) :
  NoDup (filesWithExclusiveTests w) ->
  updateExclusivity (updateExclusivity w file hasExclusiveTests) file
    hasExclusiveTests =
  updateExclusivity w file hasExclusiveTests.
Proof.
  intros Hnd. unfold updateExclusivity, set_filesWithExclusiveTests. fields.
  f_equal.
  set (excl := filesWithExclusiveTests w) in *.
  assert (Hstable : forall l,
             (if hasExclusiveTests then In file l else ~ In file l) ->
             updateExcl l file hasExclusiveTests = l).
  { intros l Hl. unfold updateExcl. destruct hasExclusiveTests; simpl.
    - apply indexOf_eqb_present in Hl. now rewrite Hl.
    - apply indexOf_eqb_absent in Hl. now rewrite Hl. }
  apply Hstable. destruct hasExclusiveTests.
  - apply updateExcl_true_In. now right.
  - intros H. apply updateExcl_false_In in H; [|assumption]. tauto.
Qed.

(** X3. A file that is not in the array is pushed by a report of [true] and
    spliced out again by a report of [false]: the watcher is as before. *)
Theorem updateExclusivity_add_remove (w : Watcher) (file : string) :
  ~ In file (filesWithExclusiveTests w) ->
  filesWithExclusiveTests (updateExclusivity w file true) =
    filesWithExclusiveTests w ++ [file] /\
  updateExclusivity (updateExclusivity w file true) file false = w.
Proof.
  intros Hout.
  assert (Hadd : updateExcl (filesWithExclusiveTests w) file true =
                 filesWithExclusiveTests w ++ [file]).
  { unfold updateExcl. simpl. apply indexOf_eqb_absent in Hout.
    now rewrite Hout. }
  split; [exact Hadd|].
  unfold updateExclusivity, set_filesWithExclusiveTests. fields.
  rewrite Hadd.
  assert (Hrem : updateExcl (filesWithExclusiveTests w ++ [file]) file false
                 = filesWithExclusiveTests w).
  { unfold updateExcl. simpl.
    assert (Hin : In file (filesWithExclusiveTests w ++ [file])).
    { apply in_or_app. right. now left. }
    apply indexOf_eqb_present in Hin. rewrite Hin. simpl.
    apply Z.eqb_neq in Hin.
    destruct (splice1_indexOf _ _ Hin) as (l1 & l2 & Hl & Hl1 & ->).
    destruct (first_occurrence_unique file (filesWithExclusiveTests w) []
                l1 l2 Hl Hout Hl1) as [<- <-].
    apply app_nil_r. }
  rewrite Hrem. now destruct w.
Qed.

(** ** Failure tracker *)

Lemma totalFailures_app (l1 l2 : list FailureState) :
  totalFailures (l1 ++ l2) = totalFailures l1 + totalFailures l2.
Proof.
  unfold totalFailures. rewrite map_app.
  induction (map fs_count l1) as [|c l IH]; simpl; lia.
Qed.

Lemma countRecords_missing (l : list FailureState) (file : string)
  (vector : Z) :
  ~ In file (map fs_file l) ->
  countRecords l file vector = l ++ [mkFailureState file vector 1].
Proof.
  intros H. unfold countRecords. now rewrite (bumpCount_missing l file H).
Qed.

Lemma countRecords_files (l : list FailureState) (file : string) (vector : Z) :
  map fs_file (countRecords l file vector) =
  if in_dec string_dec file (map fs_file l) then map fs_file l
  else map fs_file l ++ [file].
Proof.
  destruct (in_dec string_dec file (map fs_file l)) as [Hin|Hout].
  - unfold countRecords.
    destruct (bumpCount_found l file Hin) as (l1 & st & l2 & Hl & Hf & _ & Hb).
    rewrite Hb. cbn [fst snd negb]. rewrite Hl, !map_app. simpl.
    now rewrite Hf.
  - rewrite (countRecords_missing l file vector Hout), map_app. reflexivity.
Qed.

Lemma countRecords_NoDup (l : list FailureState) (file : string) (vector : Z) :
  NoDup (map fs_file l) -> NoDup (map fs_file (countRecords l file vector)).
Proof.
  intros H. rewrite countRecords_files.
  destruct (in_dec string_dec file (map fs_file l)) as [Hin|Hout];
    [assumption|].
  apply NoDup_app; [assumption|repeat constructor; intros []|].
  intros z Hz [<-|[]]. contradiction.
Qed.

Lemma pruneRecords_In (l : list FailureState) (file : string)
  (st : FailureState) :
  In st (pruneRecords l file) <-> In st l /\ fs_file st <> file.
Proof.
  unfold pruneRecords. rewrite filter_In, negb_true_iff.
  destruct (String.eqb_spec (fs_file st) file); intuition congruence.
Qed.

Lemma pruneRecords_absent (l : list FailureState) (file : string) :
  ~ In file (map fs_file (pruneRecords l file)).
Proof.
  intros H. apply in_map_iff in H as (st & Hf & Hin).
  apply pruneRecords_In in Hin. tauto.
Qed.

(** X4. Every call of [countFailure] adds exactly one to the sum of all
    counts; for a file without a record it appends the record of that file
    with the given vector and count 1, and it never makes a second record
    for a file. *)
Theorem countFailure_counts_one (w : Watcher) (file : string) (vector : Z) :
  totalFailures (filesWithFailures (countFailure w file vector)) =
    totalFailures (filesWithFailures w) + 1 /\
  (~ In file (map fs_file (filesWithFailures w)) ->
   filesWithFailures (countFailure w file vector) =
     filesWithFailures w ++ [mkFailureState file vector 1]) /\
  (NoDup (map fs_file (filesWithFailures w)) ->
   NoDup (map fs_file (filesWithFailures (countFailure w file vector)))).
Proof.
  fields. split; [|split].
  - destruct (in_dec string_dec file (map fs_file (filesWithFailures w)))
      as [Hin|Hout].
    + unfold countRecords.
      destruct (bumpCount_found _ _ Hin) as (l1 & st & l2 & Hl & _ & _ & Hb).
      rewrite Hb. cbn [fst snd negb]. rewrite Hl, !totalFailures_app.
      unfold totalFailures. simpl. lia.
    + rewrite (countRecords_missing _ _ vector Hout), totalFailures_app.
      unfold totalFailures. simpl. lia.
  - apply countRecords_missing.
  - apply countRecords_NoDup.
Qed.

(** X5. Once the record of a file is pruned, as at the start of a run that
    includes the file, its next failure makes a new record with the vector
    of that run and count 1, the records of the other files are kept, and
    the failure is not counted among the failures before that run. *)
Theorem prune_then_count (w : Watcher) (file : string) (vector : Z) :
  let w' := countFailure (pruneFailures w file) file vector in
  filesWithFailures w' =
    pruneRecords (filesWithFailures w) file
      ++ [mkFailureState file vector 1] /\
  (forall st,
     In st (filesWithFailures w') <->
     (In st (filesWithFailures w) /\ fs_file st <> file) \/
     st = mkFailureState file vector 1) /\
  sumPreviousFailures w' vector =
    sumPreviousFailures (pruneFailures w file) vector.
Proof.
  intros w'.
  assert (Hw' : filesWithFailures w' =
                pruneRecords (filesWithFailures w) file
                  ++ [mkFailureState file vector 1]).
  { unfold w'. fields. apply countRecords_missing, pruneRecords_absent. }
  split; [exact Hw'|]. split.
  - intros st. rewrite Hw', in_app_iff, pruneRecords_In. simpl.
    intuition congruence.
  - unfold sumPreviousFailures. rewrite Hw'. fields.
    rewrite !sumRecords_spec, sumFailuresBefore_app.
    unfold sumFailuresBefore at 2. simpl. rewrite Z.ltb_irrefl. simpl. lia.
Qed.

(** ** Dependency tracker *)

Lemma assignSources_In (deps : list TestDependency) (T : string)
  (sources : list string) (dep : TestDependency) :
  NoDup (map dep_file deps) ->
  In T (map dep_file deps) ->
  In dep (fst (assignSources deps T sources)) <->
  dep = mkTestDependency T sources \/ (In dep deps /\ dep_file dep <> T).
Proof.
  induction deps as [|d t IH]; simpl; [intros _ []|].
  intros Hnd Hin. inversion Hnd as [|? ? Hn Ht]; subst.
  destruct (String.eqb_spec (dep_file d) T) as [Heq|Hne]; simpl.
  - rewrite Heq in *. split.
    + intros [<-|Hd]; [now left|]. right. split; [now right|].
      intros HT. apply Hn. rewrite <- HT. now apply in_map.
    + intros [->|[[<-|Hd] HT]]; [now left|congruence|now right].
  - destruct Hin as [Hin|Hin]; [contradiction|].
    rewrite (IH Ht Hin). split.
    + intros [<-|[->|[Hd HT]]]; [right; split; [now left|assumption]
                                |now left|right; split; [now right|assumption]].
    + intros [->|[[<-|Hd] HT]]; [right; now left|now left|].
      right. right. now split.
Qed.

Lemma assignSources_missing (deps : list TestDependency) (T : string)
  (sources : list string) :
  ~ In T (map dep_file deps) -> assignSources deps T sources = (deps, false).
Proof.
  induction deps as [|d t IH]; simpl; [reflexivity|].
  destruct (String.eqb_spec (dep_file d) T) as [Heq|Hne]; simpl.
  - intros H. exfalso. apply H. now left.
  - intros H. rewrite IH; [reflexivity|]. intros Hin. apply H. now right.
Qed.

Lemma updateDeps_In (deps : list TestDependency) (T : string)
  (sources : list string) (dep : TestDependency) :
  NoDup (map dep_file deps) -> sources <> [] ->
  In dep (updateDeps deps T sources) <->
  dep = mkTestDependency T sources \/ (In dep deps /\ dep_file dep <> T).
Proof.
  intros Hnd Hne. unfold updateDeps.
  destruct sources as [|x xs]; [congruence|]. cbn [length].
  replace (Z.of_nat (S (length xs)) =? 0) with false
    by (symmetry; apply Z.eqb_neq; lia).
  destruct (in_dec string_dec T (map dep_file deps)) as [Hin|Hout].
  - pose proof (proj2 (assignSources_found deps T (x :: xs)) Hin) as Hf.
    rewrite Hf. cbn [negb]. now apply assignSources_In.
  - rewrite (assignSources_missing deps T (x :: xs) Hout). cbn [fst snd negb].
    rewrite in_app_iff. simpl. split.
    + intros [Hd|[<-|[]]]; [|now left]. right. split; [assumption|].
      intros HT. apply Hout. rewrite <- HT. now apply in_map.
    + intros [->|[Hd _]]; [right; now left|now left].
Qed.

(** X7. After a report of sources that are not empty for the test file T,
    on entries with one entry per file, T is traced to a path exactly when
    the path is among the reported sources, and what the other test files
    are traced to is unchanged; after a report of no sources T is traced to
    nothing. *)
Theorem traced_after_update (w : Watcher) (T : string) (sources : list string)
  (path : string) :
  NoDup (map dep_file (testDependencies w)) ->
  let traced w := tracedTestsFor (testDependencies w) path in
  (sources <> [] ->
   (In T (traced (updateTestDependencies w T sources)) <-> In path sources) /\
   (forall T', T' <> T ->
      In T' (traced (updateTestDependencies w T sources)) <->
      In T' (traced w))) /\
  ~ In T (traced (updateTestDependencies w T [])) /\
  (forall T', T' <> T ->
     In T' (traced (updateTestDependencies w T [])) <-> In T' (traced w)).
Proof.
  intros Hnd traced. unfold traced. fields. split; [|split].
  - intros Hne. split.
    + rewrite tracedTestsFor_In. split.
      * intros (dep & Hd & Hf & Hs).
        apply (updateDeps_In _ _ _ _ Hnd Hne) in Hd as [->|[_ HT]];
          [exact Hs|contradiction].
      * intros Hs. exists (mkTestDependency T sources).
        split; [apply (updateDeps_In _ _ _ _ Hnd Hne); now left|now split].
    + intros T' HT'. rewrite !tracedTestsFor_In. split.
      * intros (dep & Hd & Hf & Hs).
        apply (updateDeps_In _ _ _ _ Hnd Hne) in Hd as [->|[Hd _]];
          [simpl in Hf; congruence|]. now exists dep.
      * intros (dep & Hd & Hf & Hs). exists dep.
        split; [|now split]. apply (updateDeps_In _ _ _ _ Hnd Hne).
        right. split; [assumption|congruence].
  - rewrite tracedTestsFor_In. intros (dep & Hd & Hf & _).
    rewrite updateDeps_nil in Hd. apply filter_In in Hd as [_ Hd].
    apply negb_true_iff, String.eqb_neq in Hd. contradiction.
  - intros T' HT'. rewrite !tracedTestsFor_In. split.
    + intros (dep & Hd & Hf & Hs). rewrite updateDeps_nil in Hd.
      apply filter_In in Hd as [Hd _]. now exists dep.
    + intros (dep & Hd & Hf & Hs). exists dep. split; [|now split].
      rewrite updateDeps_nil. apply filter_In. split; [assumption|].
      apply negb_true_iff, String.eqb_neq. congruence.
Qed.

(** ** The trackers in the states the watcher can be in *)

Lemma pruneRecords_tight (l : list FailureState) (file : string) :
  failuresTight l -> failuresTight (pruneRecords l file).
Proof.
  intros [Hnd Hc]. split.
  - unfold pruneRecords. now apply NoDup_map_filter.
  - intros st Hst. apply pruneRecords_In in Hst as [Hst _]. now apply Hc.
Qed.

Lemma countRecords_tight (l : list FailureState) (file : string)
  (vector : Z) :
  1 <= vector -> failuresTight l -> failuresTight (countRecords l file vector).
Proof.
  intros Hv [Hnd Hc]. split; [now apply countRecords_NoDup|].
  intros st. unfold countRecords.
  destruct (in_dec string_dec file (map fs_file l)) as [Hin|Hout].
  - destruct (bumpCount_found l file Hin) as (l1 & r & l2 & Hl & _ & _ & Hb).
    rewrite Hb. cbn [fst snd negb]. rewrite in_app_iff. simpl.
    assert (Hr : 1 <= fs_count r /\ 1 <= fs_vector r).
    { apply Hc. rewrite Hl. apply in_or_app. right. now left. }
    intros [H|[<-|H]].
    + apply Hc. rewrite Hl. apply in_or_app. now left.
    + simpl. lia.
    + apply Hc. rewrite Hl. apply in_or_app. right. now right.
  - rewrite (bumpCount_missing l file Hout). cbn [fst snd negb].
    rewrite in_app_iff. simpl. intros [H|[<-|[]]]; [now apply Hc|].
    simpl. lia.
Qed.

Lemma clean_failures_tight (l : list string) (w : Watcher) :
  failuresTight (filesWithFailures w) ->
  failuresTight (filesWithFailures (cleanUnlinkedTests w l)).
Proof.
  unfold cleanUnlinkedTests. revert w.
  induction l as [|t l IH]; intros w H; simpl; [assumption|].
  apply IH. fields. now apply pruneRecords_tight.
Qed.

Lemma onTestRun_failures_tight (l : list string) (w : Watcher) :
  failuresTight (filesWithFailures w) ->
  failuresTight (filesWithFailures (onTestRun w l)).
Proof.
  unfold onTestRun. revert w.
  induction l as [|t l IH]; intros w H; simpl; [assumption|].
  apply IH. fields. now apply pruneRecords_tight.
Qed.

Lemma run_trackersTight (w : Watcher) (specificFiles : option (list string)) :
  trackersTight w -> trackersTight (fst (run w specificFiles)).
Proof.
  unfold trackersTight.
  destruct (run_trackers w specificFiles) as (-> & _ & -> & _).
  rewrite run_runVector. intros (H1 & H2 & H3).
  split; [assumption|split; [assumption|lia]].
Qed.

Lemma cleaned_trackersTight (w : Watcher) :
  trackersTight w -> trackersTight (cleaned w).
Proof.
  unfold trackersTight. intros (H1 & H2 & H3).
  destruct (cleaned_fields w) as (_ & -> & _).
  split; [|split; [|assumption]].
  - unfold cleaned. now apply clean_failures_tight.
  - intros dep Hdep. apply cleaned_deps_In in Hdep as [Hdep _].
    now apply H2.
Qed.

Lemma runAfterChanges_trackersTight (w : Watcher) :
  trackersTight w -> trackersTight (fst (runAfterChanges w)).
Proof.
  intros H. apply cleaned_trackersTight in H.
  destruct (runAfterChanges_cases w) as [->|(x & ->)]; [exact H|].
  now apply run_trackersTight.
Qed.

(** A cycle calls the runner at most once, and the run vector grows by the
    number of calls. *)
Lemma runAfterChanges_counts (w : Watcher) :
  (length (apiCalls (snd (runAfterChanges w))) <= 1)%nat /\
  runVector (fst (runAfterChanges w)) =
    runVector w + Z.of_nat (length (apiCalls (snd (runAfterChanges w)))).
Proof.
  destruct (cleaned_fields w) as (_ & Hv & _).
  destruct (runAfterChanges_cases w) as [->|(x & ->)].
  - cbn. split; lia.
  - rewrite run_apiCalls, run_runVector. cbn [length]. split; lia.
Qed.

Lemma onDependencies_depsTight (w : Watcher) (file : string)
  (dependencies : list string) :
  depsTight (testDependencies w) ->
  depsTight (testDependencies (onDependencies w file dependencies)).
Proof.
  unfold depsTight, onDependencies. fields. intros H dep Hdep.
  set (src := filter isSource (map relative dependencies)) in *.
  destruct src as [|x xs] eqn:E.
  - rewrite updateDeps_nil in Hdep. apply filter_In in Hdep as [Hdep _].
    now apply H.
  - apply updateDeps_In_nonempty in Hdep; [|discriminate].
    destruct Hdep as [->|Hdep]; [discriminate|now apply H].
Qed.

Lemma apiCalls_length_app (a b : list Effect) :
  Z.of_nat (length (apiCalls (a ++ b))) =
  Z.of_nat (length (apiCalls a)) + Z.of_nat (length (apiCalls b)).
Proof. rewrite apiCalls_app, length_app. lia. Qed.

Ltac same_tight :=
  match goal with
  | Hw : trackersTight _ |- _ => destruct Hw as (?H1 & ?H2 & ?H3)
  end;
  unfold trackersTight; fields; split; [assumption|split; assumption].

Lemma step_tight (s s' : Sys) (l : Label) :
  tight s -> step s l = Some s' -> tight s'.
Proof.
  unfold tight. intros (Hw & Hst & Hn) Hstep.
  destruct l; cbn [step] in Hstep.
  - (* Watch *)
    injection Hstep as <-. unfold onAll.
    destruct (dirtyKind event); [|split; [assumption|split; assumption]].
    unfold debounce. cbn [debouncer set_watcher].
    destruct (timer (debouncer s));
      cbn [watcher statuses effects set_debouncer set_watcher];
      (split; [same_tight|split; assumption]).
  - (* Expire *)
    destruct (memNat t (armed s)); [|discriminate].
    injection Hstep as <-. cbn [watcher statuses effects].
    split; [assumption|split; assumption].
  - (* BusyThenTimer *)
    destruct (memNat t (waiting s)); [|discriminate].
    injection Hstep as <-. unfold timerCallback. cbn [debouncer].
    destruct (timer (debouncer s)) as [t'|];
      [|cbn [watcher statuses effects]; split; [assumption|split; assumption]].
    destruct (negb (Nat.eqb t' t));
      [cbn [watcher statuses effects]; split; [assumption|split; assumption]|].
    destruct (again (debouncer s)).
    + unfold debounce.
      cbn [watcher statuses effects debouncer set_debouncer timer].
      split; [assumption|split; assumption].
    + cbn [watcher statuses effects set_debouncer decisionCycle].
      split; [now apply runAfterChanges_trackersTight|].
      split; [assumption|].
      destruct (runAfterChanges_counts (watcher s)) as (_ & ->).
      rewrite apiCalls_length_app. lia.
  - (* StdinRerun *)
    injection Hstep as <-. unfold cancel.
    destruct (timer (debouncer s)); cbn [watcher statuses effects];
      (split; [assumption|split; assumption]).
  - (* BusyThenManual *)
    destruct (Nat.eqb (manual s) 0); [discriminate|].
    injection Hstep as <-. unfold manualRerun, rerunAll.
    assert (Hc : watcher (cancel s) = watcher s /\
                 statuses (cancel s) = statuses s /\
                 effects (cancel s) = effects s).
    { unfold cancel. destruct (timer (debouncer s)); repeat split. }
    destruct Hc as (Hcw & Hcs & Hce). cbn [watcher statuses effects].
    rewrite Hcw, Hcs, Hce. split; [|split; [assumption|]].
    + apply run_trackersTight. same_tight.
    + rewrite run_runVector, apiCalls_length_app, run_apiCalls. fields.
      cbn [length]. lia.
  - (* TestRun *)
    injection Hstep as <-. cbn [watcher statuses effects].
    destruct (onTestRun_fields runFiles (watcher s)) as (Hv & Hd & _).
    destruct Hw as (H1 & H2 & H3).
    split; [|split].
    + unfold trackersTight. rewrite Hv, Hd.
      split; [now apply onTestRun_failures_tight|now split].
    + intros v Hin. apply in_app_iff in Hin as [Hin|[<-|[]]];
        [now apply Hst|lia].
    + now rewrite Hv.
  - (* Dependencies *)
    injection Hstep as <-. cbn [watcher statuses effects set_watcher].
    split; [|split; assumption]. destruct Hw as (H1 & H2 & H3).
    split; [exact H1|]. split; [now apply onDependencies_depsTight|exact H3].
  - (* Stats *)
    injection Hstep as <-. cbn [watcher statuses effects set_watcher].
    split; [|split; assumption]. unfold onStats. same_tight.
  - (* RunError *)
    destruct (memZ vector (statuses s)) eqn:E; [|discriminate].
    injection Hstep as <-. cbn [watcher statuses effects set_watcher].
    unfold memZ in E. apply existsb_exists in E as (v & Hv & Heq).
    apply Z.eqb_eq in Heq. subst v.
    split; [|split; assumption]. destruct Hw as (H1 & H2 & H3).
    unfold trackersTight. fields.
    split; [apply countRecords_tight; auto|now split].
  - (* TestResult *)
    destruct (memZ vector (statuses s)) eqn:E; [|discriminate].
    injection Hstep as <-.
    unfold memZ in E. apply existsb_exists in E as (v & Hv & Heq).
    apply Z.eqb_eq in Heq. subst v.
    destruct hasError; [|split; [assumption|split; assumption]].
    cbn [watcher statuses effects set_watcher].
    split; [|split; assumption]. destruct Hw as (H1 & H2 & H3).
    unfold trackersTight. fields.
    split; [apply countRecords_tight; auto|now split].
  - (* Settled *)
    destruct (memZ vector (inflight s)); [|discriminate].
    injection Hstep as <-.
    cbn [watcher statuses effects runSettled fst snd].
    split; [same_tight|split; [assumption|]].
    fields. rewrite apiCalls_length_app. cbn. lia.
Qed.

Lemma newWatcher_tight : tight newWatcher.
Proof.
  unfold tight, newWatcher, rerunAll. cbn [watcher statuses effects].
  split; [|split; [intros v []|]].
  - unfold trackersTight.
    destruct (run_trackers (set_dirtyStates (mkWatcher true 0 [] [] [] []) [])
                None) as (-> & _ & -> & _).
    rewrite run_runVector. cbn [filesWithFailures testDependencies runVector
      set_dirtyStates].
    split; [split; [constructor|intros st []]|].
    split; [intros dep []|lia].
  - rewrite run_runVector, run_apiCalls. reflexivity.
Qed.

Lemma reachable_tight (s : Sys) : reachable s -> tight s.
Proof.
  induction 1 as [|s l s' _ IH Hstep];
    [apply newWatcher_tight|now apply (step_tight s s' l)].
Qed.

(** X6. In every state the watcher can be in there is at most one failure
    record per file, and every record has a count of at least 1 and the
    vector of a run that happened (at least 1, at most the run vector). *)
Theorem reachable_failure_records (s : Sys) :
  reachable s ->
  NoDup (map fs_file (filesWithFailures (watcher s))) /\
  forall st,
    In st (filesWithFailures (watcher s)) ->
    1 <= fs_count st /\ 1 <= fs_vector st <= runVector (watcher s).
Proof.
  intros Hs.
  destruct (reachable_tight s Hs) as (((Hnd & Hc) & _) & _).
  destruct (reachable_wellFormed s Hs) as ((Hb & _) & _).
  split; [exact Hnd|]. intros st Hst.
  destruct (Hc st Hst) as [H1 H2]. specialize (Hb st Hst). lia.
Qed.

(** X8. In every state the watcher can be in the dependency tracker has at
    most one entry per test file, no entry has an empty array of sources,
    and every path in an entry is one the source matcher accepts. *)
Theorem reachable_dependency_entries (s : Sys) :
  reachable s ->
  NoDup (map dep_file (testDependencies (watcher s))) /\
  (forall dep,
     In dep (testDependencies (watcher s)) ->
     dep_sources dep <> [] /\
     forall path, In path (dep_sources dep) -> isSource path = true).
Proof.
  intros Hs.
  destruct (reachable_tight s Hs) as ((_ & Hd & _) & _).
  destruct (reachable_wellFormed s Hs) as ((_ & _ & Hnd & Hsrc & _) & _).
  split; [exact Hnd|]. intros dep Hdep.
  split; [now apply Hd|]. intros path Hp. now apply (Hsrc dep).
Qed.

(** X9. In every state the watcher can be in the run vector is the number
    of calls of the runner made so far, the first run included, the files
    with exclusive tests are listed once, and so are the dirty paths. *)
Theorem reachable_run_vector_counts_runs (s : Sys) :
  reachable s ->
  runVector (watcher s) = Z.of_nat (length (apiCalls (effects s))) /\
  1 <= runVector (watcher s) /\
  NoDup (filesWithExclusiveTests (watcher s)) /\
  NoDup (Object_keys (dirtyStates (watcher s))).
Proof.
  intros Hs.
  destruct (reachable_tight s Hs) as ((_ & _ & H1) & _ & Hn).
  destruct (reachable_wellFormed s Hs) as ((_ & He & _ & _ & Hk) & _).
  repeat split; assumption.
Qed.

(** * Further properties of runs, cycles and the debouncer *)



(** X11. A cycle removes from the trackers what belongs to the unlinked
    tests and nothing else: the dependency entries, the exclusive files and
    the failure records of every other file are kept. *)
Theorem cycle_keeps_other_files (w : Watcher) :
  NoDup (filesWithExclusiveTests w) ->
  let unlinkedTests := unlinkedTestsOf (dirtyStates w) in
  let w' := fst (runAfterChanges w) in
  (forall dep,
     In dep (testDependencies w') <->
     In dep (testDependencies w) /\ ~ In (dep_file dep) unlinkedTests) /\
  (forall file,
     In file (filesWithExclusiveTests w') <->
     In file (filesWithExclusiveTests w) /\ ~ In file unlinkedTests) /\
  (forall st,
     In st (filesWithFailures w') <->
     In st (filesWithFailures w) /\ ~ In (fs_file st) unlinkedTests).
Proof.
  intros Hnd unlinkedTests w'.
  destruct (runAfterChanges_trackers w) as (Hd & He & Hf & _).
  unfold w'. rewrite Hd, He, Hf. unfold cleaned. fold unlinkedTests.
  split; [|split].
  - intros dep. now rewrite clean_deps_In.
  - intros file. now rewrite clean_excl_In.
  - intros st. now rewrite clean_failures_In.
Qed.

Lemma runAfterChanges_idle (w : Watcher) :
  dirtyStates w = [] -> runAfterChanges w = (w, []).
Proof.
  intros H. rewrite runAfterChanges_eq. cbv zeta. unfold cleaned.
  rewrite H. cbn. destruct w. cbn in H. now subst.
Qed.

(** X12. A cycle calls the runner at most once and the run vector grows by
    the number of calls; it leaves no dirty state behind, so that a cycle
    without dirty paths, as a second cycle in a row is, changes nothing and
    calls nothing. *)
Theorem cycle_runs_at_most_once (w : Watcher) :
  (length (apiCalls (snd (runAfterChanges w))) <= 1)%nat /\
  runVector (fst (runAfterChanges w)) =
    runVector w + Z.of_nat (length (apiCalls (snd (runAfterChanges w)))) /\
  dirtyStates (fst (runAfterChanges w)) = [] /\
  (dirtyStates w = [] -> runAfterChanges w = (w, [])) /\
  runAfterChanges (fst (runAfterChanges w)) = (fst (runAfterChanges w), []).
Proof.
  destruct (runAfterChanges_counts w) as (H1 & H2).
  destruct (runAfterChanges_trackers w) as (_ & _ & _ & H3).
  repeat split; auto using runAfterChanges_idle.
Qed.

(** ** The debouncer *)

(** X13. [cancel] does nothing to an idle debouncer, leaves the debouncer
    without a timer, changes neither the watcher nor what was called, and
    applied twice is as applied once. *)
Theorem cancel_idempotent (s : Sys) :
  (timer (debouncer s) = None -> cancel s = s) /\
  timer (debouncer (cancel s)) = None /\
  cancel (cancel s) = cancel s /\
  watcher (cancel s) = watcher s /\
  effects (cancel s) = effects s /\
  cycles (cancel s) = cycles s.
Proof.
  unfold cancel. destruct (timer (debouncer s)) eqn:E; cbn.
  - repeat split. intros H. discriminate.
  - rewrite E. repeat split; auto.
Qed.

(** The handles of the pending timeouts are below the next handle. *)
Lemma step_handles (s s' : Sys) (l : Label) :
  ((forall t, In t (armed s ++ waiting s) -> (t < nextTimer s)%nat) /\
   (forall t, timer (debouncer s) = Some t -> (t < nextTimer s)%nat)) ->
  step s l = Some s' ->
  (forall t, In t (armed s' ++ waiting s') -> (t < nextTimer s')%nat) /\
  (forall t, timer (debouncer s') = Some t -> (t < nextTimer s')%nat).
Proof.
  intros (Hp & Ht) Hstep.
  assert (Hdeb : forall x,
             (forall t, In t (armed x ++ waiting x) -> (t < nextTimer x)%nat) ->
             (forall t, timer (debouncer x) = Some t -> (t < nextTimer x)%nat) ->
             (forall t, In t (armed (debounce x) ++ waiting (debounce x)) ->
                        (t < nextTimer (debounce x))%nat) /\
             (forall t, timer (debouncer (debounce x)) = Some t ->
                        (t < nextTimer (debounce x))%nat)).
  { intros x Hxp Hxt. unfold debounce.
    destruct (timer (debouncer x)) as [t0|] eqn:E;
      cbn [armed waiting nextTimer debouncer set_debouncer timer].
    - split; [exact Hxp|]. intros t Heq. injection Heq as <-. now apply Hxt.
    - split.
      + intros t Hin. rewrite <- app_assoc in Hin.
        apply in_app_iff in Hin as [Hin|Hin].
        * specialize (Hxp t (in_or_app _ _ _ (or_introl Hin))). lia.
        * destruct Hin as [<-|Hin]; [lia|].
          specialize (Hxp t (in_or_app _ _ _ (or_intror Hin))). lia.
      + intros t Heq. injection Heq as <-. lia. }
  assert (Hrm : forall t t0 l0, In t (removeTimer t0 l0) -> In t l0).
  { intros t t0 l0 H. unfold removeTimer in H. now apply filter_In in H. }
  destruct l; cbn [step] in Hstep.
  - injection Hstep as <-. unfold onAll.
    destruct (dirtyKind event); [|now split].
    apply Hdeb; cbn [armed waiting nextTimer debouncer set_watcher];
      assumption.
  - destruct (memNat t (armed s)) eqn:E; [|discriminate].
    injection Hstep as <-. cbn [armed waiting nextTimer debouncer].
    split; [|assumption]. intros t0 Hin.
    apply in_app_iff in Hin as [Hin|Hin].
    + apply Hp, in_or_app. left. now apply Hrm in Hin.
    + apply in_app_iff in Hin as [Hin|[<-|[]]].
      * apply Hp, in_or_app. now right.
      * unfold memNat in E. apply existsb_exists in E as (x & Hx & Heq).
        apply Nat.eqb_eq in Heq. subst x. apply Hp, in_or_app. now left.
  - destruct (memNat t (waiting s)); [|discriminate].
    injection Hstep as <-. unfold timerCallback. cbn [debouncer].
    assert (Hp' : forall t0,
               In t0 (armed s ++ removeTimer t (waiting s)) ->
               (t0 < nextTimer s)%nat).
    { intros t0 Hin. apply Hp. apply in_app_iff in Hin as [Hin|Hin];
        apply in_or_app; [now left|right; now apply Hrm in Hin]. }
    destruct (timer (debouncer s)) as [t'|] eqn:Et;
      [|cbn [armed waiting nextTimer debouncer]; rewrite Et;
        split; [assumption|discriminate]].
    destruct (negb (Nat.eqb t' t));
      [cbn [armed waiting nextTimer debouncer]; rewrite Et;
       split; assumption|].
    destruct (again (debouncer s)).
    + apply Hdeb;
        cbn [armed waiting nextTimer debouncer set_debouncer timer];
        [assumption|discriminate].
    + cbn [armed waiting nextTimer debouncer set_debouncer decisionCycle
             timer].
      split; [assumption|discriminate].
  - injection Hstep as <-. unfold cancel.
    destruct (timer (debouncer s)) as [t'|] eqn:Et;
      cbn [armed waiting nextTimer debouncer timer].
    + split; [|discriminate]. intros t0 Hin. apply Hp.
      apply in_app_iff in Hin as [Hin|Hin]; apply in_or_app;
        [left; now apply Hrm in Hin|now right].
    + rewrite Et. split; [assumption|discriminate].
  - destruct (Nat.eqb (manual s) 0); [discriminate|].
    injection Hstep as <-. unfold manualRerun, cancel.
    destruct (timer (debouncer s)) as [t'|] eqn:Et;
      cbn [armed waiting nextTimer debouncer timer].
    + split; [|discriminate]. intros t0 Hin. apply Hp.
      apply in_app_iff in Hin as [Hin|Hin]; apply in_or_app;
        [left; now apply Hrm in Hin|now right].
    + rewrite Et. split; [assumption|discriminate].
  - injection Hstep as <-. now split.
  - injection Hstep as <-. now split.
  - injection Hstep as <-. now split.
  - destruct (memZ vector (statuses s)); [|discriminate].
    injection Hstep as <-. now split.
  - destruct (memZ vector (statuses s)); [|discriminate].
    injection Hstep as <-. destruct hasError; now split.
  - destruct (memZ vector (inflight s)); [|discriminate].
    injection Hstep as <-. now split.
Qed.

Lemma reachable_handles (s : Sys) :
  reachable s ->
  (forall t, In t (armed s ++ waiting s) -> (t < nextTimer s)%nat) /\
  (forall t, timer (debouncer s) = Some t -> (t < nextTimer s)%nat).
Proof.
  induction 1 as [|s l s' _ IH Hstep].
  - unfold newWatcher. cbn. split; [intros t []|discriminate].
  - now apply (step_handles s s' l).
Qed.

(** X14. A timeout that was cancelled never runs a cycle: its callback does
    nothing after [cancel], and still nothing when a file event has set a
    new timeout in between, because that timeout has a new handle. *)
Theorem cancelled_timeout_is_ignored (s : Sys) (t : nat) :
  timerCallback (cancel s) t = cancel s /\
  (forall t', timer (debouncer s) = Some t' -> t' <> t ->
              timerCallback s t = s) /\
  (reachable s -> In t (armed s ++ waiting s) ->
   forall event path,
     timerCallback (onAll (cancel s) event path) t =
     onAll (cancel s) event path).
Proof.
  split; [|split].
  - unfold timerCallback.
    now destruct (cancel_idempotent s) as (_ & -> & _).
  - intros t' Ht Hne. unfold timerCallback. rewrite Ht.
    apply Nat.eqb_neq in Hne. now rewrite Hne.
  - intros Hs Hin event path.
    destruct (reachable_handles s Hs) as (Hp & _).
    specialize (Hp t Hin). unfold onAll.
    destruct (dirtyKind event).
    + unfold timerCallback, debounce. cbn [debouncer set_watcher].
      destruct (cancel_idempotent s) as (_ & Hnone & _). rewrite Hnone.
      cbn [debouncer timer nextTimer set_watcher].
      assert (Hn : nextTimer (cancel s) = nextTimer s).
      { unfold cancel. now destruct (timer (debouncer s)). }
      rewrite Hn.
      replace (Nat.eqb (nextTimer s) t) with false;
        [reflexivity|symmetry; apply Nat.eqb_neq; lia].
    + unfold timerCallback.
      now destruct (cancel_idempotent s) as (_ & -> & _).
Qed.

(** X15. The listener of the watch service ignores the events of
    directories; for a file event it records the event as the state of the
    path, keeps the state of every other path, leaves a timeout pending and
    touches neither the trackers nor the runner. *)
Theorem watch_listener (s : Sys) (event : ChokidarEvent) (path : string) :
  (dirtyKind event = None -> onAll s event path = s) /\
  (forall e, dirtyKind event = Some e ->
     let s' := onAll s event path in
     dirty_get (dirtyStates (watcher s')) path = Some e /\
     (forall q, q <> path ->
        dirty_get (dirtyStates (watcher s')) q =
        dirty_get (dirtyStates (watcher s)) q) /\
     timer (debouncer s') <> None /\
     testDependencies (watcher s') = testDependencies (watcher s) /\
     filesWithExclusiveTests (watcher s') =
       filesWithExclusiveTests (watcher s) /\
     filesWithFailures (watcher s') = filesWithFailures (watcher s) /\
     effects s' = effects s /\
     cycles s' = cycles s).
Proof.
  split.
  - intros H. unfold onAll. now rewrite H.
  - intros e H s'. unfold s', onAll. rewrite H.
    match goal with
    | |- context [debounce ?x] =>
        destruct (debounce_fields x) as (Hw & _ & Ht); set (y := x) in *
    end.
    rewrite Hw. unfold y. cbn [watcher set_watcher]. fields.
    split; [now rewrite dirty_get_set, String.eqb_refl|].
    split.
    { intros q Hq. rewrite dirty_get_set.
      destruct (String.eqb_spec path q); [congruence|reflexivity]. }
    split; [exact Ht|]. repeat split.
    + unfold debounce. now destruct (timer (debouncer (set_watcher s _))).
    + unfold debounce. now destruct (timer (debouncer (set_watcher s _))).
Qed.



Lemma debounce_frame (s : Sys) :
  effects (debounce s) = effects s /\
  cycles (debounce s) = cycles s /\
  manual (debounce s) = manual s /\
  inflight (debounce s) = inflight s.
Proof. unfold debounce. destruct (timer (debouncer s)); repeat split. Qed.

Lemma steps_watch_frame (events : DirtyStates) (s : Sys) :
  exists s1,
    steps s (watchLabels events) = Some s1 /\
    watcher s1 =
      set_dirtyStates (watcher s)
        (dirtyAfter (dirtyStates (watcher s)) events) /\
    effects s1 = effects s /\
    cycles s1 = cycles s /\
    manual s1 = manual s.
Proof.
  revert s. induction events as [|[p e] evs IH]; intros s.
  - exists s. cbn. repeat split. now destruct (watcher s).
  - cbn [watchLabels map steps step fst snd]. unfold onAll.
    rewrite dirtyKind_chokidarOf. fold (watchLabels evs).
    match goal with
    | |- context [debounce ?x] =>
        destruct (IH (debounce x)) as (s1 & Hs & Hw & He & Hc & Hm);
          destruct (debounce_fields x) as (Hdw & _ & _);
          destruct (debounce_frame x) as (Hde & Hdc & Hdm & _)
    end.
    exists s1. split; [exact Hs|].
    rewrite Hw, He, Hc, Hm, Hdw, Hde, Hdc, Hdm. now repeat split.
Qed.

(** X17. A manual rerun wins over the debouncer.  After the request and the
    callback that waits for the run in flight, whatever file events arrived
    in between, all configured files are run without [runOnlyExclusive] and
    without clearing the log, no dirty state and no timeout are left, no
    cycle has run, the trackers are as they were, and the callback of any
    timeout still pending does nothing. *)
Theorem manual_rerun_runs_all_files (s : Sys) (events : DirtyStates) :
  exists s',
    steps s ([StdinRerun] ++ watchLabels events ++ [BusyThenManual])
      = Some s' /\
    effects s' =
      effects s
        ++ (if 0 <? runVector (watcher s)
            then [LoggerReset; LoggerSection; LoggerReset; LoggerStart]
            else [])
        ++ [ApiRun files false (runVector (watcher s) + 1)] /\
    cycles s' = cycles s /\
    dirtyStates (watcher s') = [] /\
    timer (debouncer s') = None /\
    testDependencies (watcher s') = testDependencies (watcher s) /\
    filesWithExclusiveTests (watcher s') =
      filesWithExclusiveTests (watcher s) /\
    filesWithFailures (watcher s') = filesWithFailures (watcher s) /\
    (forall t, timerCallback s' t = s').
Proof.
  cbn [app steps step].
  set (s0 := mkSys (watcher (cancel s)) (debouncer (cancel s))
               (nextTimer (cancel s)) (armed (cancel s)) (waiting (cancel s))
               (S (manual (cancel s))) (statuses (cancel s))
               (inflight (cancel s)) (effects (cancel s)) (cycles (cancel s))).
  destruct (cancel_idempotent s) as (_ & _ & _ & Hcw & Hce & Hcc).
  destruct (steps_watch_frame events s0) as (s1 & Hs & Hw & He & Hc & Hm).
  rewrite steps_app, Hs. cbn [steps step]. rewrite Hm.
  cbn [manual s0 Nat.eqb].
  eexists. split; [reflexivity|].
  destruct (cancel_idempotent s1) as (_ & Hn1 & _ & Hcw1 & Hce1 & Hcc1).
  unfold manualRerun, rerunAll.
  cbn [watcher effects cycles debouncer].
  rewrite Hcw1, Hce1, Hcc1, Hw, He, Hc. cbn [watcher effects cycles s0].
  rewrite Hcw, Hce, Hcc.
  match goal with
  | |- context [run ?x None] =>
      destruct (run_trackers x None) as (Hd & Hx & Hf & Hdirty);
        set (w0 := x) in *
  end.
  rewrite Hd, Hx, Hf, Hdirty.
  assert (Heff : snd (run w0 None) =
                 (if 0 <? runVector (watcher s)
                  then [LoggerReset; LoggerSection; LoggerReset; LoggerStart]
                  else [])
                   ++ [ApiRun files false (runVector (watcher s) + 1)]).
  { unfold run, w0. fields.
    destruct (0 <? runVector (watcher s)); cbn; reflexivity. }
  rewrite Heff. unfold w0. fields.
  repeat split; auto.
  intros t. unfold timerCallback. cbn [debouncer]. now rewrite Hn1.
Qed.

(** * Properties of the watch patterns and the path classifier *)

Lemma firstCharIs_bang_slice (pattern : string) :
  firstCharIs "!" pattern = true ->
  pattern = ("!" ++ slice1 pattern)%string.
Proof.
  destruct pattern as [|c t]; simpl; [discriminate|].
  intros H. apply Ascii.eqb_eq in H. now subst c.
Qed.

Lemma split_nonempty (separator : ascii) (str : string) :
  split separator str <> [].
Proof.
  destruct str as [|c t]; simpl; [discriminate|].
  destruct (Ascii.eqb c separator); [discriminate|].
  destruct (split separator t); discriminate.
Qed.

Lemma firstComponent_bang (pattern : string) :
  firstCharIs "!" pattern = true ->
  firstCharIs "!" (firstComponent pattern) = true.
Proof.
  destruct pattern as [|c t]; simpl; [discriminate|].
  intros H. unfold firstComponent. simpl.
  pose proof H as Hc. apply Ascii.eqb_eq in Hc. subst c. simpl.
  destruct (split "/" t); reflexivity.
Qed.

Lemma chokidar_loop (sources paths ignored : list string) :
  fold_left
    (fun acc pattern =>
       if firstCharIs "!" pattern
       then (fst acc, snd acc ++ [slice1 pattern])
       else (fst acc ++ [pattern], snd acc))
    sources (paths, ignored) =
  (paths ++ filter (fun p => negb (firstCharIs "!" p)) sources,
   ignored ++ map slice1 (filter (firstCharIs "!") sources)).
Proof.
  revert paths ignored.
  induction sources as [|p t IH]; intros paths ignored; simpl.
  - now rewrite !app_nil_r.
  - destruct (firstCharIs "!" p); simpl; rewrite IH; cbn [fst snd];
      now rewrite <- app_assoc.
Qed.

(** X18. The patterns handed to the watch service.  The watched paths are
    the source patterns that do not start with [!], or the two default
    patterns when there is none, followed by the test file patterns.  The
    ignored patterns are the default ignore patterns, then the source
    patterns that start with [!] without that character, then each positive
    source pattern inside a directory ignored by default, with [!] put in
    front.  So every test file pattern is watched, the watched paths are
    never empty, and a negated source pattern is ignored as the pattern it
    negates. *)
Theorem getChokidarPatterns_spec (P : PathLib) (testFiles sources : list string) :
  let positive := filter (fun p => negb (firstCharIs "!" p)) sources in
  let negated := filter (firstCharIs "!") sources in
  let r := getChokidarPatterns P testFiles sources in
  cp_paths r =
    (match positive with [] => defaultSources | _ => positive end) ++ testFiles /\
  cp_ignored r =
    getDefaultIgnorePatterns P ++ map slice1 negated
      ++ map (fun p => ("!" ++ p)%string)
           (filter (inIgnoredDirectory P) positive) /\
  incl testFiles (cp_paths r) /\
  cp_paths r <> [] /\
  (forall p, In p sources -> firstCharIs "!" p = true ->
             exists q, p = ("!" ++ q)%string /\ In q (cp_ignored r)) /\
  (forall dir, In dir (defaultIgnore P) ->
               In (dir ++ "/**/*")%string (cp_ignored r)).
Proof.
  intros positive negated r.
  assert (Hp : cp_paths r =
               (match positive with [] => defaultSources | _ => positive end)
                 ++ testFiles).
  { unfold r, getChokidarPatterns. rewrite chokidar_loop.
    cbn [fst snd cp_paths app]. fold positive.
    now destruct positive. }
  assert (Hi : cp_ignored r =
               getDefaultIgnorePatterns P ++ map slice1 negated
                 ++ map (fun p => ("!" ++ p)%string)
                      (filter (inIgnoredDirectory P) positive)).
  { unfold r, getChokidarPatterns. rewrite chokidar_loop.
    cbn [fst snd cp_ignored app]. reflexivity. }
  split; [exact Hp|]. split; [exact Hi|]. split; [|split; [|split]].
  - intros f Hf. rewrite Hp. apply in_or_app. now right.
  - rewrite Hp. destruct positive; discriminate.
  - intros p Hin Hb. exists (slice1 p).
    split; [now apply firstCharIs_bang_slice|].
    rewrite Hi. apply in_or_app. right. apply in_or_app. left.
    apply in_map. apply filter_In. now split.
  - intros dir Hd. rewrite Hi. apply in_or_app. left.
    unfold getDefaultIgnorePatterns.
    now apply (in_map (fun d => (d ++ "/**/*")%string)).
Qed.

Lemma sourceLoop_acc (P : PathLib) (sources : list string) (st : SourceLoop) :
  fold_left
    (fun st pattern =>
       let mixed := sl_mixedPatterns st ++ [pattern] in
       let hasPositive :=
         if negb (sl_hasPositivePattern st) && negb (firstCharIs "!" pattern)
         then true else sl_hasPositivePattern st in
       let override :=
         if inIgnoredDirectory P pattern
         then sl_overrideDefaultIgnorePatterns st ++ [pattern]
         else sl_overrideDefaultIgnorePatterns st in
       mkSourceLoop mixed hasPositive override)
    sources st =
  mkSourceLoop
    (sl_mixedPatterns st ++ sources)
    (sl_hasPositivePattern st
     || existsb (fun p => negb (firstCharIs "!" p)) sources)
    (sl_overrideDefaultIgnorePatterns st
       ++ filter (inIgnoredDirectory P) sources).
Proof.
  revert st. induction sources as [|p t IH]; intros st; simpl.
  - rewrite !app_nil_r, orb_false_r. now destruct st.
  - rewrite IH. cbn [sl_mixedPatterns sl_hasPositivePattern
      sl_overrideDefaultIgnorePatterns].
    f_equal.
    + now rewrite <- app_assoc.
    + destruct (sl_hasPositivePattern st), (firstCharIs "!" p); reflexivity.
    + destruct (inIgnoredDirectory P p); [now rewrite <- app_assoc|].
      reflexivity.
Qed.

Lemma sourceLoop_spec (P : PathLib) (sources : list string) :
  sourceLoop P sources =
  mkSourceLoop sources
    (existsb (fun p => negb (firstCharIs "!" p)) sources)
    (filter (inIgnoredDirectory P) sources).
Proof. unfold sourceLoop. now rewrite sourceLoop_acc. Qed.

Lemma existsb_filter_nil {A} (f : A -> bool) (l : list A) :
  existsb f l = false <-> filter f l = [].
Proof.
  induction l as [|a l IH]; simpl; [split; reflexivity|].
  destruct (f a); simpl; [split; discriminate|exact IH].
Qed.

(** X19. What the source matcher accepts.  A path is a source exactly when,
    after [matchable], it does not start with [../], it matches the source
    patterns (after the two default patterns when no source pattern is
    positive), and it either matches no default ignore pattern or matches a
    source pattern that lies in a directory ignored by default.  A path
    outside the working directory is never a source, and neither is a path
    that the source patterns do not match. *)
Theorem makeSourceMatcher_spec (P : PathLib) (sources : list string)
  (path : string) :
  let p := matchable P path in
  let mixed :=
    if existsb (fun q => negb (firstCharIs "!" q)) sources then sources
    else defaultSources ++ sources in
  makeSourceMatcher P sources path =
    negb (String.prefix "../" p)
    && matchesOne P p mixed
    && (negb (matchesOne P p (getDefaultIgnorePatterns P))
        || matchesOne P p (filter (inIgnoredDirectory P) sources)) /\
  (String.prefix "../" p = true -> makeSourceMatcher P sources path = false) /\
  (matchesOne P p mixed = false -> makeSourceMatcher P sources path = false) /\
  (makeSourceMatcher P sources path = true ->
   matchesOne P p (getDefaultIgnorePatterns P) = true ->
   matchesOne P p (filter (inIgnoredDirectory P) sources) = true).
Proof.
  intros p mixed.
  assert (Hm : mixedPatternsOf P sources = mixed).
  { unfold mixedPatternsOf, mixed. rewrite sourceLoop_spec. cbn.
    now destruct (existsb _ sources). }
  assert (Heq : makeSourceMatcher P sources path =
                negb (String.prefix "../" p)
                && matchesOne P p mixed
                && (negb (matchesOne P p (getDefaultIgnorePatterns P))
                    || matchesOne P p
                         (filter (inIgnoredDirectory P) sources))).
  { unfold makeSourceMatcher. rewrite Hm, sourceLoop_spec. fold p.
    cbn [sl_overrideDefaultIgnorePatterns].
    destruct (String.prefix "../" p); [reflexivity|].
    destruct (matchesOne P p mixed); [|reflexivity].
    destruct (matchesOne P p (getDefaultIgnorePatterns P)); [|reflexivity].
    now destruct (matchesOne P p (filter (inIgnoredDirectory P) sources)). }
  split; [exact Heq|]. split; [|split].
  - intros H. rewrite Heq, H. reflexivity.
  - intros H. rewrite Heq, H. now rewrite andb_false_r.
  - intros Ht Hi. rewrite Heq, Hi in Ht.
    apply andb_true_iff in Ht as [_ Ht]. exact Ht.
Qed.

(** X20. The source matcher and the watch patterns agree.  Both use the two
    default patterns in the same case, when no source pattern is positive;
    and, when no directory ignored by default has a name that starts with
    [!], the patterns with which the source matcher overrides the default
    ignore patterns are the positive source patterns that the watch
    patterns take out of the ignored ones. *)
Theorem source_matcher_agrees_with_watch_patterns (P : PathLib)
  (testFiles sources : list string) :
  let positive := filter (fun p => negb (firstCharIs "!" p)) sources in
  let r := getChokidarPatterns P testFiles sources in
  let override := sl_overrideDefaultIgnorePatterns (sourceLoop P sources) in
  (positive = [] ->
   mixedPatternsOf P sources = defaultSources ++ sources /\
   cp_paths r = defaultSources ++ testFiles) /\
  (positive <> [] ->
   mixedPatternsOf P sources = sources /\
   cp_paths r = positive ++ testFiles) /\
  ((forall dir, In dir (defaultIgnore P) -> firstCharIs "!" dir = false) ->
   override = filter (inIgnoredDirectory P) positive /\
   cp_ignored r =
     getDefaultIgnorePatterns P
       ++ map slice1 (filter (firstCharIs "!") sources)
       ++ map (fun p => ("!" ++ p)%string) override).
Proof.
  intros positive r override.
  assert (Hp : cp_paths r =
               (match positive with [] => defaultSources | _ => positive end)
                 ++ testFiles).
  { unfold r, getChokidarPatterns. rewrite chokidar_loop.
    cbn [fst snd cp_paths app]. fold positive. now destruct positive. }
  assert (Hm : mixedPatternsOf P sources =
               if existsb (fun q => negb (firstCharIs "!" q)) sources
               then sources else defaultSources ++ sources).
  { unfold mixedPatternsOf. rewrite sourceLoop_spec. cbn.
    now destruct (existsb _ sources). }
  split; [|split].
  - intros H. rewrite Hp, Hm, H.
    apply existsb_filter_nil in H. now rewrite H.
  - intros H. rewrite Hp, Hm.
    destruct (existsb (fun q => negb (firstCharIs "!" q)) sources) eqn:E.
    + split; [reflexivity|]. fold positive.
      destruct positive; [congruence|reflexivity].
    + apply existsb_filter_nil in E. contradiction.
  - intros Hdirs.
    assert (Hov : override = filter (inIgnoredDirectory P) positive).
    { unfold override, positive. rewrite sourceLoop_spec.
      cbn [sl_overrideDefaultIgnorePatterns]. rewrite filter_filter_andb.
      apply filter_ext. intros q.
      destruct (firstCharIs "!" q) eqn:E; [|reflexivity]. cbn [negb andb].
      unfold inIgnoredDirectory.
      replace (indexOf (defaultIgnore P) (firstComponent q)) with (-1);
        [reflexivity|].
      symmetry. apply indexOf_absent. intros Hin.
      apply Hdirs in Hin. apply firstComponent_bang in E. congruence. }
    split; [exact Hov|]. rewrite Hov.
    unfold r, getChokidarPatterns. rewrite chokidar_loop.
    cbn [fst snd cp_ignored app]. reflexivity.
Qed.


Lemma append_assoc' (a b c : string) :
  ((a ++ b) ++ c)%string = (a ++ (b ++ c))%string.
Proof. induction a as [|x a IH]; simpl; [reflexivity|now rewrite IH]. Qed.

Lemma concat_split (separator : ascii) (str : string) :
  String.concat (String separator EmptyString) (split separator str) = str.
Proof.
  induction str as [|c t IH]; [reflexivity|]. simpl.
  destruct (Ascii.eqb_spec c separator) as [->|Hne].
  - pose proof (split_nonempty separator t) as Hn.
    destruct (split separator t) as [|x xs]; [congruence|].
    change (String.concat (String separator EmptyString)
              (EmptyString :: x :: xs))
      with (String separator
              (String.concat (String separator EmptyString) (x :: xs))).
    now rewrite IH.
  - destruct (split separator t) as [|h r]; [simpl in IH; now subst|].
    destruct r as [|x xs]; simpl in *; now rewrite IH.
Qed.

Lemma lastOf_snoc (l : list string) (x : string) : lastOf (l ++ [x]) = Some x.
Proof. unfold lastOf. now rewrite rev_app_distr. Qed.

Lemma lastOf_cons (x : string) (l : list string) :
  l <> [] -> lastOf (x :: l) = lastOf l.
Proof.
  intros H. unfold lastOf. simpl.
  destruct (rev l) as [|y r] eqn:E; [|reflexivity].
  exfalso. apply H. apply (f_equal (@rev string)) in E.
  now rewrite rev_involutive in E.
Qed.

Lemma pushSubpath_snoc (subpaths : list string) (component : string) :
  exists x, pushSubpath subpaths component = subpaths ++ [x].
Proof.
  unfold pushSubpath. destruct (lastOf subpaths) as [[|c t]|];
    eexists; reflexivity.
Qed.

Lemma fold_push_prefix (cs acc : list string) :
  exists l,
    fold_left pushSubpath cs acc = acc ++ l /\ length l = length cs.
Proof.
  revert acc. induction cs as [|c t IH]; intros acc; simpl.
  - exists []. now rewrite app_nil_r.
  - destruct (pushSubpath_snoc acc c) as (x & ->).
    destruct (IH (acc ++ [x])) as (l & -> & Hl).
    exists (x :: l). rewrite <- app_assoc. simpl. now rewrite Hl.
Qed.

Lemma fold_push_cons (cs acc : list string) (x : string) :
  acc <> [] \/ x = EmptyString ->
  fold_left pushSubpath cs (x :: acc) = x :: fold_left pushSubpath cs acc.
Proof.
  revert acc. induction cs as [|c t IH]; intros acc H; simpl; [reflexivity|].
  assert (Hpush : pushSubpath (x :: acc) c = x :: pushSubpath acc c).
  { unfold pushSubpath. destruct acc as [|a acc'].
    - destruct H as [H| ->]; [congruence|]. reflexivity.
    - rewrite lastOf_cons by discriminate.
      destruct (lastOf (a :: acc')) as [[|c' t']|]; reflexivity. }
  rewrite Hpush. apply IH. left.
  destruct (pushSubpath_snoc acc c) as (y & ->). now destruct acc.
Qed.

Lemma fold_push_nth (cs acc : list string) (p : string) (k : nat) :
  lastOf acc = Some p -> p <> EmptyString -> (k < length cs)%nat ->
  nth (length acc + k) (fold_left pushSubpath cs acc) EmptyString =
  (p ++ "/" ++ String.concat "/" (firstn (S k) cs))%string.
Proof.
  revert acc p k. induction cs as [|c t IH]; intros acc p k Hl Hp Hk;
    [simpl in Hk; lia|].
  cbn [fold_left].
  assert (Hpush : pushSubpath acc c = acc ++ [(p ++ "/" ++ c)%string]).
  { unfold pushSubpath. rewrite Hl. destruct p; [congruence|reflexivity]. }
  rewrite Hpush.
  assert (Hp' : (p ++ "/" ++ c)%string <> EmptyString).
  { destruct p; [congruence|discriminate]. }
  destruct k as [|k'].
  - destruct (fold_push_prefix t (acc ++ [(p ++ "/" ++ c)%string]))
      as (l & -> & _).
    rewrite <- app_assoc, Nat.add_0_r. simpl. now rewrite nth_middle.
  - cbn [length] in Hk.
    replace (length acc + S k')%nat
      with (length (acc ++ [(p ++ "/" ++ c)%string]) + k')%nat
      by (rewrite length_app; simpl; lia).
    rewrite (IH _ (p ++ "/" ++ c)%string k' (lastOf_snoc _ _) Hp')
      by lia.
    destruct t as [|x xs]; [simpl in Hk; lia|].
    cbn [firstn]. cbn [String.concat]. rewrite append_assoc'. reflexivity.
Qed.

Lemma lastOf_nth (l : list string) :
  l <> [] -> lastOf l = Some (nth (length l - 1) l EmptyString).
Proof.
  intros H. destruct (exists_last H) as (l' & x & ->).
  rewrite lastOf_snoc, length_app. simpl.
  replace (length l' + 1 - 1)%nat with (length l') by lia.
  now rewrite nth_middle.
Qed.

(** X22. The subpaths that the test matcher builds from a directory name:
    there is one for each component; when the first component is not empty
    the k-th one is the first k components joined with [/], so that, with
    [/] as separator, the last one is the directory name itself; and a
    separator in front adds an empty subpath and loses the separator, the
    others being those of the path without it. *)
Theorem subpathsOf_spec (separator : ascii) (dir : string) :
  let cs := split separator dir in
  length (subpathsOf separator dir) = length cs /\
  (hd EmptyString cs <> EmptyString ->
   forall k, (k < length cs)%nat ->
     nth k (subpathsOf separator dir) EmptyString =
     String.concat "/" (firstn (S k) cs)) /\
  (separator = "/"%char -> hd EmptyString cs <> EmptyString ->
   lastOf (subpathsOf separator dir) = Some dir) /\
  subpathsOf separator (String separator dir) =
    EmptyString :: subpathsOf separator dir.
Proof.
  intros cs.
  assert (Hlen : length (subpathsOf separator dir) = length cs).
  { unfold subpathsOf. fold cs.
    destruct (fold_push_prefix cs []) as (l & -> & Hl). exact Hl. }
  assert (Hnth : hd EmptyString cs <> EmptyString ->
                 forall k, (k < length cs)%nat ->
                   nth k (subpathsOf separator dir) EmptyString =
                   String.concat "/" (firstn (S k) cs)).
  { intros Hhd k Hk. unfold subpathsOf. fold cs.
    destruct cs as [|c t]; [simpl in Hk; lia|]. cbn [hd] in Hhd.
    cbn [fold_left]. change (pushSubpath [] c) with [c].
    destruct k as [|k'].
    - destruct (fold_push_prefix t [c]) as (l & -> & _). reflexivity.
    - cbn [length] in Hk.
      assert (Hk' : (k' < length t)%nat) by lia.
      pose proof (fold_push_nth t [c] c k' eq_refl Hhd Hk') as H.
      cbn [length Nat.add] in H. rewrite H.
      destruct t as [|x xs]; [simpl in Hk; lia|]. reflexivity. }
  split; [exact Hlen|]. split; [exact Hnth|]. split.
  - intros -> Hhd.
    assert (Hne : subpathsOf "/" dir <> []).
    { intros H. rewrite H in Hlen. pose proof (split_nonempty "/" dir).
      fold cs in H0. destruct cs; [congruence|discriminate]. }
    rewrite (lastOf_nth _ Hne), Hlen.
    pose proof (split_nonempty "/" dir) as Hcs. fold cs in Hcs.
    rewrite (Hnth Hhd) by (destruct cs; [congruence|simpl; lia]).
    replace (S (length cs - 1)) with (length cs)
      by (destruct cs; [congruence|simpl; lia]).
    rewrite firstn_all. unfold cs.
    now rewrite (concat_split "/" dir).
  - unfold subpathsOf. simpl. rewrite Ascii.eqb_refl. cbn [fold_left].
    change (pushSubpath [] EmptyString) with [EmptyString].
    apply fold_push_cons. now right.
Qed.

Lemma steps_reachable (ls : list Label) (s s' : Sys) :
  reachable s -> steps s ls = Some s' -> reachable s'.
Proof.
  revert s. induction ls as [|l ls IH]; intros s Hs H; simpl in H.
  - now injection H as <-.
  - destruct (step s l) as [s1|] eqn:E; [|discriminate].
    apply (IH s1); [|assumption]. now apply (reachable_step s l s1).
Qed.

End WatcherModel.

(** * The watcher with its own path classifier *)

Lemma makeTestMatcher_rejects (P : PathLib)
  (testFiles excludePatterns : list string) (path : string) :
  extname P path <> ".js"%string \/ firstCharIs "_" (basename P path) = true ->
  makeTestMatcher P testFiles excludePatterns path = false.
Proof.
  intros H. unfold makeTestMatcher.
  replace (negb (extname P path =? ".js")%string
           || firstCharIs "_" (basename P path)) with true; [reflexivity|].
  symmetry. apply orb_true_iff. destruct H as [H|H]; [left|now right].
  apply negb_true_iff. now apply String.eqb_neq.
Qed.

(** X23. With the test matcher of the watcher, the change of a file that is
    not a [.js] file or whose name starts with an underscore, such as a
    helper, is the change of a source; when no test is traced to it the
    cycle runs all the configured files. *)
Theorem helper_change_reruns_all (P : PathLib)
  (files excludePatterns : list string) (loggerClear : Z -> bool)
  (w : Watcher) (path : string) :
  In path (Object_keys (dirtyStates w)) ->
  extname P path <> ".js"%string \/ firstCharIs "_" (basename P path) = true ->
  tracedTestsFor (testDependencies w) path = [] ->
  let isTest := makeTestMatcher P files excludePatterns in
  In path (dirtySourcesOf isTest (dirtyStates w)) /\
  runAfterChanges files isTest loggerClear w =
    run files loggerClear (cleaned isTest w) None /\
  apiCalls (snd (runAfterChanges files isTest loggerClear w)) =
    [(files, false)].
Proof.
  intros Hk Hrej Hnil isTest.
  assert (Ht : isTest path = false)
    by now apply makeTestMatcher_rejects.
  assert (Hs : In path (dirtySourcesOf isTest (dirtyStates w))).
  { apply (dirtySourcesOf_In isTest (fun _ => true) (fun q => q)).
    now split. }
  split; [exact Hs|].
  apply (full_rerun_when_untraced files isTest (fun _ => true) (fun q => q)
           loggerClear w path Hs).
  now apply (traced_cleaned_nil isTest (fun _ => true) (fun q => q)).
Qed.

(** X24. With the source matcher of the watcher, in every state the watcher
    can be in, every path kept in a dependency entry is inside the working
    directory and is matched by the source patterns. *)
Theorem reachable_sources_inside_cwd (P : PathLib)
  (files sources : list string) (isTest : string -> bool)
  (relative : string -> string) (loggerClear : Z -> bool) (s : Sys) :
  reachable files isTest (makeSourceMatcher P sources) relative loggerClear s ->
  forall dep path,
    In dep (testDependencies (watcher s)) -> In path (dep_sources dep) ->
    String.prefix "../" (matchable P path) = false /\
    matchesOne P (matchable P path) (mixedPatternsOf P sources) = true.
Proof.
  intros Hs dep path Hdep Hpath.
  destruct (reachable_wellFormed files isTest (makeSourceMatcher P sources)
              relative loggerClear s Hs) as ((_ & _ & _ & Hsrc & _) & _).
  specialize (Hsrc dep path Hdep Hpath). unfold makeSourceMatcher in Hsrc.
  destruct (String.prefix "../" (matchable P path)); [discriminate|].
  split; [reflexivity|].
  destruct (matchesOne P (matchable P path) (mixedPatternsOf P sources));
    [reflexivity|discriminate].
Qed.

(** * The properties on the example configuration *)

Lemma run_exclusivity_override_witness :
  NoDup [exA] /\
  NoDup [exA; exB] /\
  ~ incl [exA; exB]
         (filter (fun f => negb (indexOf [exA; exB] f =? -1)) [exA]) /\
  apiCalls
    (snd (run exFiles exLoggerClear (exWatcher [] [exA; exB] [] [])
            (Some [exA]))) =
  [([exA; exB], true)].
Proof.
  assert (H1 : NoDup [exA]).
  { repeat constructor; simpl; intuition discriminate. }
  assert (H2 : NoDup [exA; exB]).
  { repeat constructor; simpl; intuition discriminate. }
  assert (H3 : ~ incl [exA; exB]
                 (filter (fun f => negb (indexOf [exA; exB] f =? -1)) [exA])).
  { intros H. specialize (H exB). simpl in H.
    destruct H as [H|[]]; [now right; left|discriminate]. }
  split; [exact H1|]. split; [exact H2|]. split; [exact H3|].
  exact (proj1
           (proj1 (proj2
              (run_exclusivity_override exFiles exIsTest exIsSource exRelative
                 exLoggerClear (exWatcher [] [exA; exB] [] []) [exA] H1 H2))
              H3)).
Defined.

Lemma untraceable_source_full_rerun_witness :
  (exists s,
      In s (dirtySourcesOf exIsTest [(exUtil, Change)]) /\
      (tracedTestsFor [] s = [] \/
       tracedTestsFor
         (testDependencies
            (cleaned exIsTest (exWatcher [] [] [] [(exUtil, Change)]))) s
       = [])) /\
  apiCalls
    (snd (runAfterChanges exFiles exIsTest exLoggerClear
            (exWatcher [] [] [] [(exUtil, Change)]))) =
  [(exFiles, false)].
Proof.
  assert (H : exists s,
             In s (dirtySourcesOf exIsTest [(exUtil, Change)]) /\
             (tracedTestsFor [] s = [] \/
              tracedTestsFor
                (testDependencies
                   (cleaned exIsTest (exWatcher [] [] [] [(exUtil, Change)])))
                s = [])).
  { exists exUtil. split; [now left|now left]. }
  split; [exact H|].
  exact (proj2
           (untraceable_source_full_rerun exFiles exIsTest exIsSource
              exRelative exLoggerClear
              (exWatcher [] [] [] [(exUtil, Change)]) H)).
Defined.

Lemma traced_sources_scoped_run_witness :
  NoDup (Object_keys [(exUtil, Change)]) /\
  exIsTest exUtil = false /\
  tracedTestsFor [mkTestDependency exA [exUtil]] exUtil = [exA] /\
  runAfterChanges exFiles exIsTest exLoggerClear
    (exWatcher [mkTestDependency exA [exUtil]] [] [] [(exUtil, Change)]) =
  run exFiles exLoggerClear
    (exWatcher [mkTestDependency exA [exUtil]] [] [] []) (Some [exA]).
Proof.
  assert (H : NoDup (Object_keys [(exUtil, Change)])).
  { repeat constructor. intros []. }
  split; [exact H|]. split; [reflexivity|]. split; [reflexivity|].
  exact (proj2 (proj2
           (traced_sources_scoped_run exFiles exIsTest exIsSource exRelative
              exLoggerClear
              (exWatcher [mkTestDependency exA [exUtil]] [] []
                 [(exUtil, Change)]) H))
           exUtil exA Change eq_refl eq_refl eq_refl).
Defined.

Lemma removed_tests_cleaned_witness :
  NoDup [exA] /\
  In exA (Object_keys [(exA, Unlink)]) /\
  exIsTest exA = true /\
  dirty_get [(exA, Unlink)] exA = Some Unlink /\
  ~ In exA
      (filesWithExclusiveTests
         (fst (runAfterChanges exFiles exIsTest exLoggerClear
                 (exWatcher [mkTestDependency exA [exUtil]] [exA]
                    [mkFailureState exA 1 1] [(exA, Unlink)])))) /\
  snd (runAfterChanges exFiles exIsTest exLoggerClear
         (exWatcher [mkTestDependency exA [exUtil]] [exA]
            [mkFailureState exA 1 1] [(exA, Unlink)])) = [].
Proof.
  assert (H : NoDup [exA]) by (repeat constructor; intros []).
  assert (Hk : In exA (Object_keys [(exA, Unlink)])) by now left.
  assert (Hall : forall p,
             In p (Object_keys [(exA, Unlink)]) ->
             exIsTest p = true /\ dirty_get [(exA, Unlink)] p = Some Unlink).
  { intros p [<-|[]]. split; reflexivity. }
  split; [exact H|]. split; [exact Hk|]. split; [reflexivity|].
  split; [reflexivity|].
  pose (thm := removed_tests_cleaned exFiles exIsTest exIsSource exRelative
                 exLoggerClear
                 (exWatcher [mkTestDependency exA [exUtil]] [exA]
                    [mkFailureState exA 1 1] [(exA, Unlink)]) H).
  split.
  - exact (proj1 (proj2 (proj1 thm exA Hk eq_refl eq_refl))).
  - exact (proj1 (proj2 thm Hall)).
Defined.

Lemma sumPreviousFailures_stale_count_witness :
  exIsTest "test/y.js" = true /\
  exRelative "test/y.js" <> "test/x.js"%string /\
  exists s,
    steps exFiles exIsTest exIsSource exRelative exLoggerClear
      (newWatcher exFiles exLoggerClear)
      [TestRun ["test/x.js"%string; "test/y.js"%string];
       RunError 1 "test/x.js"; Settled 1 1 0 0;
       Watch EvChange "test/y.js"; Expire 0%nat; BusyThenTimer 0%nat;
       TestRun ["test/y.js"%string]; Settled 2 0 0 0] = Some s /\
    sumPreviousFailures (watcher s) 2 = 1.
Proof.
  assert (H : exRelative "test/y.js" <> "test/x.js"%string) by discriminate.
  split; [reflexivity|]. split; [exact H|].
  destruct (proj2
              (sumPreviousFailures_stale_count exFiles exIsTest exIsSource
                 exRelative exLoggerClear)
              "test/x.js"%string "test/y.js"%string
              ["test/x.js"%string; "test/y.js"%string] eq_refl H)
    as (s & Hs & _ & _ & Hsum & _).
  exists s. split; [exact Hs|exact Hsum].
Defined.

(** C6 as it is stated fails.  The helper [test/_helper.js] is neither a
    test nor a source.  A cycle whose only dirty path is the unlinked test
    [test/a.js] starts no run, and with the helper among the dirty paths it
    runs all files; a cycle for the changed test [test/a.js] runs that file,
    and with the helper it runs all files; and a change of the helper alone,
    after the first run, starts a second run of all files. *)
Lemma irrelevant_path_not_ignored :
  exIsTest exHelper = false /\
  exIsSource exHelper = false /\
  (apiCalls
     (snd (runAfterChanges exFiles exIsTest exLoggerClear
             (exWatcher [] [] [] [(exA, Unlink)]))) = [] /\
   apiCalls
     (snd (runAfterChanges exFiles exIsTest exLoggerClear
             (exWatcher [] [] [] [(exA, Unlink); (exHelper, Change)]))) =
   [(exFiles, false)]) /\
  (apiCalls
     (snd (runAfterChanges exFiles exIsTest exLoggerClear
             (exWatcher [] [] [] [(exA, Change)]))) = [([exA], false)] /\
   apiCalls
     (snd (runAfterChanges exFiles exIsTest exLoggerClear
             (exWatcher [] [] [] [(exA, Change); (exHelper, Change)]))) =
   [(exFiles, false)]) /\
  option_map (fun s => apiCalls (effects s))
    (steps exFiles exIsTest exIsSource exRelative exLoggerClear
       (newWatcher exFiles exLoggerClear)
       [TestRun [exA]; Settled 1 0 0 0; Watch EvChange exHelper;
        Expire 0%nat; BusyThenTimer 0%nat]) =
  Some [(exFiles, false); (exFiles, false)].
Proof. vm_compute. repeat split. Qed.

Lemma unclassified_path_full_rerun_witness :
  onlySources exIsSource [mkTestDependency exA [exUtil]] /\
  In exHelper (Object_keys [(exHelper, Change)]) /\
  exIsTest exHelper = false /\
  exIsSource exHelper = false /\
  apiCalls
    (snd (runAfterChanges exFiles exIsTest exLoggerClear
            (exWatcher [mkTestDependency exA [exUtil]] [] []
               [(exHelper, Change)]))) =
  [(exFiles, false)].
Proof.
  assert (H : onlySources exIsSource [mkTestDependency exA [exUtil]]).
  { intros dep s [<-|[]] [<-|[]]. reflexivity. }
  assert (Hk : In exHelper (Object_keys [(exHelper, Change)])) by now left.
  split; [exact H|]. split; [exact Hk|]. split; [reflexivity|].
  split; [reflexivity|].
  exact (proj2 (proj2 (proj2
           (unclassified_path_full_rerun exFiles exIsTest exIsSource
              exRelative exLoggerClear
              (exWatcher [mkTestDependency exA [exUtil]] [] []
                 [(exHelper, Change)])
              exHelper H Hk eq_refl eq_refl)))).
Defined.

Lemma failure_generations_bounded_witness :
  reachable exFiles exIsTest exIsSource exRelative exLoggerClear
    (newWatcher exFiles exLoggerClear) /\
  generationsBounded (watcher (newWatcher exFiles exLoggerClear)) /\
  (1 <= runVector (exWatcher [] [] [] []) ->
   generationsBounded (exWatcher [] [] [] []) ->
   generationsBounded (countFailure (exWatcher [] [] [] []) exA 1)).
Proof.
  pose (thm := failure_generations_bounded exFiles exIsTest exIsSource
                 exRelative exLoggerClear).
  assert (H : reachable exFiles exIsTest exIsSource exRelative exLoggerClear
                (newWatcher exFiles exLoggerClear))
    by apply reachable_new.
  split; [exact H|]. split.
  - exact (proj1 thm _ H).
  - exact (proj1 (proj2 (proj2 (proj2 thm))) (exWatcher [] [] [] []) exA 1).
Defined.

Lemma updateTestDependencies_idempotent_witness :
  NoDup (map dep_file [mkTestDependency exA [exUtil]]) /\
  [exUtil] <> [] /\
  NoDup
    (map dep_file
       (testDependencies
          (updateTestDependencies
             (exWatcher [mkTestDependency exA [exUtil]] [] [] []) exB
             [exUtil]))) /\
  In (mkTestDependency exB [exUtil])
     (testDependencies
        (updateTestDependencies
           (exWatcher [mkTestDependency exA [exUtil]] [] [] []) exB
           [exUtil])).
Proof.
  assert (H : NoDup (map dep_file [mkTestDependency exA [exUtil]])).
  { repeat constructor. intros []. }
  assert (Hne : [exUtil] <> []) by discriminate.
  split; [exact H|]. split; [exact Hne|]. split.
  - exact (proj1 (proj2 updateTestDependencies_idempotent)
             (exWatcher [mkTestDependency exA [exUtil]] [] [] []) exB
             [exUtil] H).
  - exact (proj1 (proj2 (proj2 updateTestDependencies_idempotent))
             (exWatcher [mkTestDependency exA [exUtil]] [] [] []) exB
             [exUtil] Hne).
Defined.

Lemma debounce_coalesces_witness :
  timer (debouncer (newWatcher exFiles exLoggerClear)) = None /\
  again (debouncer (newWatcher exFiles exLoggerClear)) = false /\
  [(exUtil, Change); (exA, Add); (exUtil, Unlink)] <> [] /\
  exists s',
    steps exFiles exIsTest exIsSource exRelative exLoggerClear
      (newWatcher exFiles exLoggerClear)
      [Watch EvChange exUtil; Watch EvAdd exA; Watch EvUnlink exUtil;
       Expire 0%nat; BusyThenTimer 0%nat; Expire 1%nat; BusyThenTimer 1%nat]
    = Some s' /\
    cycles s' = [[(exUtil, Unlink); (exA, Add)]].
Proof.
  assert (Hne : [(exUtil, Change); (exA, Add); (exUtil, Unlink)] <> [])
    by discriminate.
  split; [reflexivity|]. split; [reflexivity|]. split; [exact Hne|].
  destruct (debounce_coalesces exFiles exIsTest exIsSource exRelative
              exLoggerClear (newWatcher exFiles exLoggerClear)
              [(exUtil, Change); (exA, Add); (exUtil, Unlink)]
              eq_refl eq_refl Hne)
    as (s' & Hs & Hc & _).
  exists s'. split; [exact Hs|exact Hc].
Defined.

Lemma countFailure_keeps_vector_witness :
  In exA (map fs_file [mkFailureState exA 1 1]) /\
  map fs_vector
    (filesWithFailures
       (countFailure (exWatcher [] [] [mkFailureState exA 1 1] []) exA 2)) =
  [1].
Proof.
  assert (H : In exA (map fs_file [mkFailureState exA 1 1])) by now left.
  split; [exact H|].
  exact (proj1 (proj2
           (countFailure_keeps_vector
              (exWatcher [] [] [mkFailureState exA 1 1] []) exA 2 H))).
Defined.

(** ** The further properties on the example configuration *)

Lemma updateExclusivity_membership_witness :
  NoDup [exA] /\
  In exB
     (filesWithExclusiveTests
        (updateExclusivity (exWatcher [] [exA] [] []) exB true)).
Proof.
  assert (H : NoDup [exA]) by (repeat constructor; intros []).
  split; [exact H|].
  exact (proj2
           (proj1 (proj2
              (updateExclusivity_membership exIsTest exIsSource exRelative
                 (exWatcher [] [exA] [] []) exB true H))
              exB)
           (or_intror eq_refl)).
Defined.

Lemma updateExclusivity_idempotent_witness :
  NoDup [exA; exB] /\
  updateExclusivity
    (updateExclusivity (exWatcher [] [exA; exB] [] []) exA false) exA false =
  updateExclusivity (exWatcher [] [exA; exB] [] []) exA false.
Proof.
  assert (H : NoDup [exA; exB]).
  { repeat constructor; simpl; intuition discriminate. }
  split; [exact H|].
  exact (updateExclusivity_idempotent exIsTest exIsSource exRelative
           (exWatcher [] [exA; exB] [] []) exA false H).
Defined.

Lemma updateExclusivity_add_remove_witness :
  ~ In exB [exA] /\
  updateExclusivity
    (updateExclusivity (exWatcher [] [exA] [] []) exB true) exB false =
  exWatcher [] [exA] [] [].
Proof.
  assert (H : ~ In exB [exA]) by (intros [H|[]]; discriminate).
  split; [exact H|].
  exact (proj2
           (updateExclusivity_add_remove exIsTest exIsSource exRelative
              (exWatcher [] [exA] [] []) exB H)).
Defined.

Lemma countFailure_counts_one_witness :
  ~ In exB (map fs_file [mkFailureState exA 1 1]) /\
  filesWithFailures
    (countFailure (exWatcher [] [] [mkFailureState exA 1 1] []) exB 2) =
  [mkFailureState exA 1 1; mkFailureState exB 2 1].
Proof.
  assert (H : ~ In exB (map fs_file [mkFailureState exA 1 1])).
  { intros [H|[]]; discriminate. }
  split; [exact H|].
  exact (proj1 (proj2
           (countFailure_counts_one
              (exWatcher [] [] [mkFailureState exA 1 1] []) exB 2))
           H).
Defined.

Lemma prune_then_count_witness :
  filesWithFailures
    (countFailure
       (pruneFailures
          (exWatcher [] []
             [mkFailureState exA 1 3; mkFailureState exB 1 1] []) exA)
       exA 2) =
  [mkFailureState exB 1 1; mkFailureState exA 2 1].
Proof.
  exact (proj1
           (prune_then_count exIsTest exIsSource exRelative exLoggerClear
              (exWatcher [] []
                 [mkFailureState exA 1 3; mkFailureState exB 1 1] [])
              exA 2)).
Defined.

Lemma traced_after_update_witness :
  NoDup (map dep_file [mkTestDependency exA [exUtil]]) /\
  [exUtil] <> [] /\
  In exB
     (tracedTestsFor
        (testDependencies
           (updateTestDependencies
              (exWatcher [mkTestDependency exA [exUtil]] [] [] []) exB
              [exUtil]))
        exUtil).
Proof.
  assert (H : NoDup (map dep_file [mkTestDependency exA [exUtil]])).
  { repeat constructor. intros []. }
  assert (Hne : [exUtil] <> []) by discriminate.
  split; [exact H|]. split; [exact Hne|].
  exact (proj2
           (proj1
              (proj1
                 (traced_after_update exIsTest exIsSource exRelative
                    (exWatcher [mkTestDependency exA [exUtil]] [] [] []) exB
                    [exUtil] exUtil H)
                 Hne))
           (or_introl eq_refl)).
Defined.

Lemma reachable_failure_records_witness :
  exists s,
    steps exFiles exIsTest exIsSource exRelative exLoggerClear
      (newWatcher exFiles exLoggerClear)
      [TestRun [exA]; RunError 1 exA; TestResult 1 exA true;
       RunError 1 exB] = Some s /\
    reachable exFiles exIsTest exIsSource exRelative exLoggerClear s /\
    filesWithFailures (watcher s) =
      [mkFailureState exA 1 2; mkFailureState exB 1 1] /\
    NoDup (map fs_file (filesWithFailures (watcher s))).
Proof.
  eexists. split; [vm_compute; reflexivity|].
  assert (H : reachable exFiles exIsTest exIsSource exRelative exLoggerClear
                (mkSys
                   (mkWatcher true 1 [] []
                      [mkFailureState exA 1 2; mkFailureState exB 1 1] [])
                   (mkDebouncer None false) 0%nat [] [] 0%nat [1] [1]
                   [ApiRun exFiles false 1] [])).
  { apply (steps_reachable exFiles exIsTest exIsSource exRelative
             exLoggerClear
             [TestRun [exA]; RunError 1 exA; TestResult 1 exA true;
              RunError 1 exB]
             (newWatcher exFiles exLoggerClear));
      [apply reachable_new|vm_compute; reflexivity]. }
  split; [exact H|]. split; [reflexivity|].
  exact (proj1
           (reachable_failure_records exFiles exIsTest exIsSource exRelative
              exLoggerClear _ H)).
Defined.

Lemma reachable_dependency_entries_witness :
  exists s,
    steps exFiles exIsTest exIsSource exRelative exLoggerClear
      (newWatcher exFiles exLoggerClear)
      [TestRun [exA]; Dependencies exA [exUtil; exHelper]] = Some s /\
    reachable exFiles exIsTest exIsSource exRelative exLoggerClear s /\
    testDependencies (watcher s) = [mkTestDependency exA [exUtil]] /\
    NoDup (map dep_file (testDependencies (watcher s))).
Proof.
  eexists. split; [vm_compute; reflexivity|].
  assert (H : reachable exFiles exIsTest exIsSource exRelative exLoggerClear
                (mkSys
                   (mkWatcher true 1 [mkTestDependency exA [exUtil]] [] [] [])
                   (mkDebouncer None false) 0%nat [] [] 0%nat [1] [1]
                   [ApiRun exFiles false 1] [])).
  { apply (steps_reachable exFiles exIsTest exIsSource exRelative
             exLoggerClear
             [TestRun [exA]; Dependencies exA [exUtil; exHelper]]
             (newWatcher exFiles exLoggerClear));
      [apply reachable_new|vm_compute; reflexivity]. }
  split; [exact H|]. split; [reflexivity|].
  exact (proj1
           (reachable_dependency_entries exFiles exIsTest exIsSource
              exRelative exLoggerClear _ H)).
Defined.

Lemma reachable_run_vector_counts_runs_witness :
  reachable exFiles exIsTest exIsSource exRelative exLoggerClear
    (newWatcher exFiles exLoggerClear) /\
  runVector (watcher (newWatcher exFiles exLoggerClear)) =
  Z.of_nat (length (apiCalls (effects (newWatcher exFiles exLoggerClear)))).
Proof.
  assert (H : reachable exFiles exIsTest exIsSource exRelative exLoggerClear
                (newWatcher exFiles exLoggerClear))
    by apply reachable_new.
  split; [exact H|].
  exact (proj1
           (reachable_run_vector_counts_runs exFiles exIsTest exIsSource
              exRelative exLoggerClear _ H)).
Defined.


Lemma cycle_keeps_other_files_witness :
  NoDup [exA] /\
  In (mkTestDependency exB [exUtil])
     (testDependencies
        (fst (runAfterChanges exFiles exIsTest exLoggerClear
                (exWatcher
                   [mkTestDependency exA [exUtil];
                    mkTestDependency exB [exUtil]]
                   [exA] [] [(exA, Unlink)])))).
Proof.
  assert (H : NoDup [exA]) by (repeat constructor; intros []).
  split; [exact H|].
  refine (proj2
            (proj1
               (cycle_keeps_other_files exFiles exIsTest exIsSource exRelative
                  exLoggerClear
                  (exWatcher
                     [mkTestDependency exA [exUtil];
                      mkTestDependency exB [exUtil]]
                     [exA] [] [(exA, Unlink)]) H)
               (mkTestDependency exB [exUtil]))
            (conj (or_intror (or_introl eq_refl)) _)).
  intros [Hin|[]]. discriminate.
Defined.

Lemma cycle_runs_at_most_once_witness :
  dirtyStates (exWatcher [] [exA] [] []) = [] /\
  runAfterChanges exFiles exIsTest exLoggerClear (exWatcher [] [exA] [] []) =
  (exWatcher [] [exA] [] [], []).
Proof.
  split; [reflexivity|].
  exact (proj1 (proj2 (proj2 (proj2
           (cycle_runs_at_most_once exFiles exIsTest exLoggerClear
              (exWatcher [] [exA] [] [])))))
           eq_refl).
Defined.

Lemma cancel_idempotent_witness :
  timer (debouncer (newWatcher exFiles exLoggerClear)) = None /\
  cancel (newWatcher exFiles exLoggerClear) = newWatcher exFiles exLoggerClear.
Proof.
  split; [reflexivity|].
  exact (proj1 (cancel_idempotent (newWatcher exFiles exLoggerClear))
           eq_refl).
Defined.

Lemma cancelled_timeout_is_ignored_witness :
  timer
    (debouncer
       (mkSys (exWatcher [] [] [] [(exA, Change)]) (mkDebouncer (Some 1%nat)
          false) 2%nat [1%nat] [0%nat] 0%nat [] [] [] [])) = Some 1%nat /\
  1%nat <> 0%nat /\
  timerCallback exFiles exIsTest exLoggerClear
    (mkSys (exWatcher [] [] [] [(exA, Change)]) (mkDebouncer (Some 1%nat)
       false) 2%nat [1%nat] [0%nat] 0%nat [] [] [] [])
    0%nat =
  mkSys (exWatcher [] [] [] [(exA, Change)]) (mkDebouncer (Some 1%nat) false)
    2%nat [1%nat] [0%nat] 0%nat [] [] [] [].
Proof.
  assert (H : 1%nat <> 0%nat) by discriminate.
  split; [reflexivity|]. split; [exact H|].
  exact (proj1 (proj2
           (cancelled_timeout_is_ignored exFiles exIsTest exIsSource
              exRelative exLoggerClear
              (mkSys (exWatcher [] [] [] [(exA, Change)])
                 (mkDebouncer (Some 1%nat) false) 2%nat [1%nat] [0%nat] 0%nat
                 [] [] [] [])
              0%nat))
           1%nat eq_refl H).
Defined.

Lemma watch_listener_witness :
  dirtyKind EvUnlink = Some Unlink /\
  dirty_get
    (dirtyStates
       (watcher (onAll (newWatcher exFiles exLoggerClear) EvUnlink exA)))
    exA = Some Unlink.
Proof.
  split; [reflexivity|].
  exact (proj1
           (proj2 (watch_listener (newWatcher exFiles exLoggerClear) EvUnlink
                     exA)
              Unlink eq_refl)).
Defined.


Lemma manual_rerun_runs_all_files_witness :
  exists s',
    steps exFiles exIsTest exIsSource exRelative exLoggerClear
      (newWatcher exFiles exLoggerClear)
      [StdinRerun; Watch EvChange exA; BusyThenManual] = Some s' /\
    dirtyStates (watcher s') = [] /\
    timer (debouncer s') = None.
Proof.
  destruct (manual_rerun_runs_all_files exFiles exIsTest exIsSource exRelative
              exLoggerClear (newWatcher exFiles exLoggerClear)
              [(exA, Change)])
    as (s' & Hs & _ & _ & Hd & Ht & _).
  exists s'. repeat split; assumption.
Defined.

Lemma getChokidarPatterns_spec_witness :
  In "!lib/vendor.js"%string ["lib/*.js"%string; "!lib/vendor.js"%string] /\
  firstCharIs "!" "!lib/vendor.js" = true /\
  In "lib/vendor.js"%string
     (cp_ignored
        (getChokidarPatterns exPathLib exFiles
           ["lib/*.js"%string; "!lib/vendor.js"%string])).
Proof.
  assert (H : In "!lib/vendor.js"%string
                ["lib/*.js"%string; "!lib/vendor.js"%string])
    by (right; now left).
  split; [exact H|]. split; [reflexivity|].
  destruct (proj1 (proj2 (proj2 (proj2 (proj2
              (getChokidarPatterns_spec exPathLib exFiles
                 ["lib/*.js"%string; "!lib/vendor.js"%string])))))
              "!lib/vendor.js"%string H eq_refl)
    as (q & Hq & Hin).
  injection Hq as <-. exact Hin.
Defined.

Lemma makeSourceMatcher_spec_witness :
  String.prefix "../" (matchable exPathLib "../lib/util.js") = true /\
  makeSourceMatcher exPathLib ["../lib/util.js"%string] "../lib/util.js"
  = false.
Proof.
  split; [reflexivity|].
  exact (proj1 (proj2
           (makeSourceMatcher_spec exPathLib ["../lib/util.js"%string]
              "../lib/util.js"))
           eq_refl).
Defined.

Lemma source_matcher_agrees_with_watch_patterns_witness :
  filter (fun p => negb (firstCharIs "!" p)) ["!lib/vendor.js"%string] = [] /\
  mixedPatternsOf exPathLib ["!lib/vendor.js"%string] =
    ["package.json"%string; "**/*.js"%string; "!lib/vendor.js"%string] /\
  cp_paths (getChokidarPatterns exPathLib exFiles ["!lib/vendor.js"%string]) =
    ["package.json"%string; "**/*.js"%string; "test/*.js"%string].
Proof.
  split; [reflexivity|].
  exact (proj1
           (source_matcher_agrees_with_watch_patterns exPathLib exFiles
              ["!lib/vendor.js"%string])
           eq_refl).
Defined.


Lemma subpathsOf_spec_witness :
  hd EmptyString (split "/" "test/unit/fixtures") <> EmptyString /\
  nth 1 (subpathsOf "/" "test/unit/fixtures") EmptyString =
    "test/unit"%string /\
  lastOf (subpathsOf "/" "test/unit/fixtures") =
    Some "test/unit/fixtures"%string.
Proof.
  assert (H : hd EmptyString (split "/" "test/unit/fixtures") <> EmptyString)
    by discriminate.
  split; [exact H|]. split.
  - exact (proj1 (proj2 (subpathsOf_spec "/" "test/unit/fixtures")) H 1%nat
             (le_S _ _ (le_n 2))).
  - exact (proj1 (proj2 (proj2 (subpathsOf_spec "/" "test/unit/fixtures")))
             eq_refl H).
Defined.

Lemma helper_change_reruns_all_witness :
  In exHelper (Object_keys [(exHelper, Change)]) /\
  (extname exPathLib exHelper <> ".js"%string \/
   firstCharIs "_" (basename exPathLib exHelper) = true) /\
  tracedTestsFor [mkTestDependency exA [exUtil]] exHelper = [] /\
  apiCalls
    (snd (runAfterChanges exFiles (makeTestMatcher exPathLib exFiles [])
            exLoggerClear
            (exWatcher [mkTestDependency exA [exUtil]] [] []
               [(exHelper, Change)]))) =
  [(exFiles, false)].
Proof.
  assert (Hk : In exHelper (Object_keys [(exHelper, Change)])) by now left.
  assert (Hr : extname exPathLib exHelper <> ".js"%string \/
               firstCharIs "_" (basename exPathLib exHelper) = true)
    by now right.
  split; [exact Hk|]. split; [exact Hr|]. split; [reflexivity|].
  exact (proj2 (proj2
           (helper_change_reruns_all exPathLib exFiles [] exLoggerClear
              (exWatcher [mkTestDependency exA [exUtil]] [] []
                 [(exHelper, Change)])
              exHelper Hk Hr eq_refl))).
Defined.

Lemma reachable_sources_inside_cwd_witness :
  reachable exFiles exIsTest (makeSourceMatcher exPathLib [exUtil]) exRelative
    exLoggerClear
    (mkSys (mkWatcher true 1 [mkTestDependency exA [exUtil]] [] [] [])
       (mkDebouncer None false) 0%nat [] [] 0%nat [1] [1]
       [ApiRun exFiles false 1] []) /\
  String.prefix "../" (matchable exPathLib exUtil) = false.
Proof.
  assert (H : reachable exFiles exIsTest (makeSourceMatcher exPathLib [exUtil])
                exRelative exLoggerClear
                (mkSys
                   (mkWatcher true 1 [mkTestDependency exA [exUtil]] [] [] [])
                   (mkDebouncer None false) 0%nat [] [] 0%nat [1] [1]
                   [ApiRun exFiles false 1] [])).
  { apply (steps_reachable exFiles exIsTest
             (makeSourceMatcher exPathLib [exUtil]) exRelative exLoggerClear
             [TestRun [exA]; Dependencies exA [exUtil; "../other.js"%string]]
             (newWatcher exFiles exLoggerClear));
      [apply reachable_new|vm_compute; reflexivity]. }
  split; [exact H|].
  exact (proj1
           (reachable_sources_inside_cwd exPathLib exFiles [exUtil] exIsTest
              exRelative exLoggerClear _ H
              (mkTestDependency exA [exUtil]) exUtil
              (or_introl eq_refl) (or_introl eq_refl))).
Defined.
